(** * Verification of the dotfile Python templates

    Shallow embedding of [src/python/script-template.py] (the command-line
    script skeleton) and of [src/python/validation_functions.py] (the
    [ScriptValidator] pre-flight checklist), followed by the theorems that
    settle the properties stated about them.

    Everything the two files obtain from the platform (the file system, the
    executable search path, the import machinery, sockets, [os.statvfs],
    [sys.argv], signals) is an explicit component of the state or of the
    environment record that the embedded functions receive. *)

From Stdlib Require Import String Ascii List ZArith NArith QArith Bool Lia.
Import ListNotations.
Local Open Scope list_scope.
Local Open Scope string_scope.
Set Warnings "-register-all".

(* ================================================================== *)
(** * Python exceptions and the state-and-exception monad               *)
(* ================================================================== *)

Module Py.

(** The subclasses of [OSError] raised by the modelled file-system and
    socket calls. *)
Inductive os_error :=
| FileNotFoundError
| FileExistsError
| NotADirectoryError
| IsADirectoryError
| PermissionError
| SocketError          (* socket.error, socket.gaierror, ConnectionRefusedError *)
| SocketTimeout        (* socket.timeout *)
| OtherOSError.

(** The exceptions that occur in the two files.  [KeyboardInterrupt] and
    [SystemExit] derive from [BaseException] only; every other constructor
    is a subclass of [Exception]. *)
Inductive exn :=
| KeyboardInterrupt
| SystemExit (code : Z)
| ValueError (message : string)
| OSError (kind : os_error)
| ImportError (name : string)
| AttributeError
| TimeoutError
| OtherException (name : string).

(** [isinstance(e, Exception)] *)
Definition is_Exception (e : exn) : bool :=
  match e with
  | KeyboardInterrupt | SystemExit _ => false
  | _ => true
  end.

(** [isinstance(e, KeyboardInterrupt)] *)
Definition is_KeyboardInterrupt (e : exn) : bool :=
  match e with KeyboardInterrupt => true | _ => false end.

(** [isinstance(e, OSError)]; [PermissionError], [socket.error] and
    [socket.timeout] are all subclasses (or aliases) of [OSError], and so
    is the builtin [TimeoutError]. *)
Definition is_OSError (e : exn) : bool :=
  match e with OSError _ | TimeoutError => true | _ => false end.

(** [isinstance(e, ImportError)] ([ModuleNotFoundError] included). *)
Definition is_ImportError (e : exn) : bool :=
  match e with ImportError _ => true | _ => false end.

(** [isinstance(e, AttributeError)] *)
Definition is_AttributeError (e : exn) : bool :=
  match e with AttributeError => true | _ => false end.

(** Outcome of a call: a value, or a raised exception. *)
Inductive result (A : Type) :=
| Ok (a : A)
| Raise (e : exn).
Arguments Ok {A} a.
Arguments Raise {A} e.

Definition is_Ok {A} (r : result A) : bool :=
  match r with Ok _ => true | Raise _ => false end.

(** A computation over a state [S] that returns or raises; the state
    reached is kept in both cases, as a Python exception does not undo the
    effects that precede it. *)
Definition M (S A : Type) : Type := S -> result A * S.

Definition ret {S A} (a : A) : M S A := fun s => (Ok a, s).

Definition bind {S A B} (m : M S A) (k : A -> M S B) : M S B :=
  fun s => match m s with
           | (Ok a, s') => k a s'
           | (Raise e, s') => (Raise e, s')
           end.

Definition raise {S A} (e : exn) : M S A := fun s => (Raise e, s).

Definition get {S} : M S S := fun s => (Ok s, s).
Definition gets {S A} (f : S -> A) : M S A := fun s => (Ok (f s), s).
Definition modify {S} (f : S -> S) : M S unit := fun s => (Ok tt, f s).

(** Lifting of a pure outcome. *)
Definition lift {S A} (r : result A) : M S A := fun s => (r, s).

(** [try: body  except C1 as e: h1(e)  except C2 as e: h2(e) ...]: the
    first clause whose class test accepts the exception handles it; an
    exception raised by a handler is not offered to the other clauses. *)
Definition try_except {S A} (body : M S A)
           (clauses : list ((exn -> bool) * (exn -> M S A))) : M S A :=
  fun s => match body s with
           | (Ok a, s') => (Ok a, s')
           | (Raise e, s') =>
               match find (fun c => fst c e) clauses with
               | Some c => snd c e s'
               | None => (Raise e, s')
               end
           end.

(** [try: body  finally: final].  The [finally] block runs on every way
    out of [body]; when it raises itself, its exception replaces the
    pending outcome, otherwise the outcome of [body] stands. *)
Definition try_finally {S A} (body : M S A) (final : M S unit) : M S A :=
  fun s => match body s with
           | (r, s') => match final s' with
                        | (Ok _, s'') => (r, s'')
                        | (Raise e, s'') => (Raise e, s'')
                        end
           end.

(** [for x in xs: body(x)] *)
Fixpoint for_each {S A} (xs : list A) (body : A -> M S unit) : M S unit :=
  match xs with
  | [] => ret tt
  | x :: xs' => bind (body x) (fun _ => for_each xs' body)
  end.

(** Whatever [m] returns or raises, the state it leaves is related by [R]
    to the state it started from. *)
Definition steps {S} (R : S -> S -> Prop) {A} (m : M S A) : Prop :=
  forall s, R s (snd (m s)).

(** Every exception that [m] raises satisfies [P]. *)
Definition raises_only {S} (P : exn -> Prop) {A} (m : M S A) : Prop :=
  forall s e s', m s = (Raise e, s') -> P e.

(** From a state that satisfies [P], the outcome of [m] and the state it
    leaves satisfy [Q]. *)
Definition hoare {S A} (P : S -> Prop) (m : M S A)
           (Q : result A -> S -> Prop) : Prop :=
  forall s, P s -> Q (fst (m s)) (snd (m s)).

Declare Scope py_scope.
Delimit Scope py_scope with py.
Notation "x <- c1 ;; c2" := (bind c1 (fun x => c2))
  (at level 61, c1 at next level, right associativity) : py_scope.
Notation "c1 ;;; c2" := (bind c1 (fun _ => c2))
  (at level 61, right associativity) : py_scope.

(** The logging levels of the [logging] module, with their numbers. *)
Inductive level := DEBUG | INFO | WARNING | ERROR.

Definition levelno (l : level) : Z :=
  match l with DEBUG => 10 | INFO => 20 | WARNING => 30 | ERROR => 40 end.

End Py.

(* ================================================================== *)
(** * The file system                                                   *)
(* ================================================================== *)

Module Fs.
Import Py.

(** A [pathlib.Path], as the list of its components below the directory
    it is resolved from; [[]] is that directory itself ([Path(".")]).
    Components are plain names: symbolic links and [..] are not part of
    the model. *)
Definition Path := list string.

(** [path.parent]; the parent of [Path(".")] is [Path(".")]. *)
Definition parent (p : Path) : Path := removelast p.

(** [path.name] *)
Definition name (p : Path) : string := last p EmptyString.

(** [str(path)] *)
Definition str (p : Path) : string :=
  match p with
  | [] => "."
  | _ => String.concat "/" p
  end.

(** A file with its bytes, or a directory with its write permission and
    its entries in creation order. *)
Inductive node :=
| File (data : string)
| Dir (writable : bool) (entries : list (string * node)).

(** The tree below the start directory, which is itself a directory. *)
Record filesystem := mkfs {
  root_writable : bool;
  root_entries : list (string * node)
}.

Fixpoint assoc (c : string) (es : list (string * node)) : option node :=
  match es with
  | [] => None
  | (c', n) :: es' => if String.eqb c c' then Some n else assoc c es'
  end.

(** Replace the entry called [c], or append it when there is none. *)
Fixpoint put (c : string) (n : node) (es : list (string * node))
  : list (string * node) :=
  match es with
  | [] => [(c, n)]
  | (c', n') :: es' =>
      if String.eqb c c' then (c', n) :: es' else (c', n') :: put c n es'
  end.

Fixpoint remove (c : string) (es : list (string * node))
  : list (string * node) :=
  match es with
  | [] => []
  | (c', n') :: es' =>
      if String.eqb c c' then es' else (c', n') :: remove c es'
  end.

Fixpoint resolve_in (w : bool) (es : list (string * node)) (p : Path)
  : option node :=
  match p with
  | [] => Some (Dir w es)
  | c :: p' =>
      match assoc c es with
      | Some (Dir w' es') => resolve_in w' es' p'
      | Some (File d) => match p' with [] => Some (File d) | _ => None end
      | None => None
      end
  end.

Definition resolve (fs : filesystem) (p : Path) : option node :=
  resolve_in (root_writable fs) (root_entries fs) p.

(** [path.exists()] *)
Definition exists_ (fs : filesystem) (p : Path) : bool :=
  match resolve fs p with Some _ => true | None => false end.

(** [path.is_dir()] *)
Definition is_dir (fs : filesystem) (p : Path) : bool :=
  match resolve fs p with Some (Dir _ _) => true | _ => false end.

(** [path.is_file()] *)
Definition is_file (fs : filesystem) (p : Path) : bool :=
  match resolve fs p with Some (File _) => true | _ => false end.

(** [path.mkdir(parents=True, exist_ok=True)] inside the directory
    [(w, es)]: existing directories are kept, missing ones are created
    (writable) where the directory that receives them is writable.  A file
    in the way raises [FileExistsError] (last component) or
    [NotADirectoryError] (inner component).  The result is the new list of
    entries of the directory. *)
Fixpoint mkdir_in (w : bool) (es : list (string * node)) (p : Path)
  : result (list (string * node)) :=
  match p with
  | [] => Ok es
  | c :: p' =>
      match assoc c es with
      | Some (Dir w' es') =>
          match mkdir_in w' es' p' with
          | Ok es'' => Ok (put c (Dir w' es'') es)
          | Raise e => Raise e
          end
      | Some (File _) =>
          Raise (OSError match p' with
                         | [] => FileExistsError
                         | _ => NotADirectoryError
                         end)
      | None =>
          if w then
            match mkdir_in true [] p' with
            | Ok es'' => Ok (put c (Dir true es'') es)
            | Raise e => Raise e
            end
          else Raise (OSError PermissionError)
      end
  end.

Definition mkdir_parents (fs : filesystem) (p : Path) : result filesystem :=
  match mkdir_in (root_writable fs) (root_entries fs) p with
  | Ok es => Ok (mkfs (root_writable fs) es)
  | Raise e => Raise e
  end.

(** [open(path, 'w')] followed by writing [data] and closing: the file is
    created in a writable directory or truncated where it exists. *)
Fixpoint write_in (w : bool) (es : list (string * node)) (p : Path)
         (data : string) : result (list (string * node)) :=
  match p with
  | [] => Raise (OSError IsADirectoryError)
  | [c] =>
      match assoc c es with
      | Some (Dir _ _) => Raise (OSError IsADirectoryError)
      | Some (File _) => Ok (put c (File data) es)
      | None => if w then Ok (put c (File data) es)
                else Raise (OSError PermissionError)
      end
  | c :: p' =>
      match assoc c es with
      | Some (Dir w' es') =>
          match write_in w' es' p' data with
          | Ok es'' => Ok (put c (Dir w' es'') es)
          | Raise e => Raise e
          end
      | Some (File _) => Raise (OSError NotADirectoryError)
      | None => Raise (OSError FileNotFoundError)
      end
  end.

Definition write_text (fs : filesystem) (p : Path) (data : string)
  : result filesystem :=
  match write_in (root_writable fs) (root_entries fs) p data with
  | Ok es => Ok (mkfs (root_writable fs) es)
  | Raise e => Raise e
  end.

(** [open(path, 'a')] and close: creates an empty file where there is
    none, leaves an existing file as it is. *)
Definition open_append (fs : filesystem) (p : Path) : result filesystem :=
  match resolve fs p with
  | Some (File _) => Ok fs
  | Some (Dir _ _) => Raise (OSError IsADirectoryError)
  | None => write_text fs p EmptyString
  end.

(** [path.touch()]: an existing file or directory only has its times
    updated; a missing file is created empty. *)
Definition touch (fs : filesystem) (p : Path) : result filesystem :=
  match resolve fs p with
  | Some _ => Ok fs
  | None => write_text fs p EmptyString
  end.

(** [path.unlink()] inside the directory [(w, es)]. *)
Fixpoint unlink_in (w : bool) (es : list (string * node)) (p : Path)
  : result (list (string * node)) :=
  match p with
  | [] => Raise (OSError IsADirectoryError)
  | [c] =>
      match assoc c es with
      | Some (Dir _ _) => Raise (OSError IsADirectoryError)
      | Some (File _) => if w then Ok (remove c es)
                         else Raise (OSError PermissionError)
      | None => Raise (OSError FileNotFoundError)
      end
  | c :: p' =>
      match assoc c es with
      | Some (Dir w' es') =>
          match unlink_in w' es' p' with
          | Ok es'' => Ok (put c (Dir w' es'') es)
          | Raise e => Raise e
          end
      | Some (File _) => Raise (OSError NotADirectoryError)
      | None => Raise (OSError FileNotFoundError)
      end
  end.

Definition unlink (fs : filesystem) (p : Path) : result filesystem :=
  match unlink_in (root_writable fs) (root_entries fs) p with
  | Ok es => Ok (mkfs (root_writable fs) es)
  | Raise e => Raise e
  end.

(** [len(list(path.iterdir()))] *)
Definition iterdir_len (fs : filesystem) (p : Path) : result N :=
  match resolve fs p with
  | Some (Dir _ es) => Ok (N.of_nat (length es))
  | Some (File _) => Raise (OSError NotADirectoryError)
  | None => Raise (OSError FileNotFoundError)
  end.

(** [path.stat().st_size] *)
Definition st_size (fs : filesystem) (p : Path) : result N :=
  match resolve fs p with
  | Some (File d) => Ok (N.of_nat (String.length d))
  | Some (Dir _ es) => Ok 4096%N   (* a directory's own block; never read below *)
  | None => Raise (OSError FileNotFoundError)
  end.

End Fs.

(* ================================================================== *)
(** * JSON values and [json.dump(..., indent=2, ensure_ascii=False)]     *)
(* ================================================================== *)

Module Json.

(** The values that [process_data] builds: strings, integers and
    dictionaries (in insertion order). *)
Inductive json :=
| JStr (s : string)
| JInt (z : Z)
| JObj (fields : list (string * json)).

Definition quote_char : ascii := ascii_of_nat 34.
Definition backslash : ascii := ascii_of_nat 92.
Definition newline : string := String (ascii_of_nat 10) EmptyString.

Definition hex_digit (n : nat) : ascii :=
  if Nat.ltb n 10 then ascii_of_nat (48 + n) else ascii_of_nat (87 + n).

(** One character of a string literal: the quote, the backslash and the
    control characters below 0x20 are escaped, everything else (non-ASCII
    bytes included, as [ensure_ascii] is off) is copied. *)
Definition escape_char (c : ascii) : string :=
  let n := nat_of_ascii c in
  let esc (x : string) := String backslash x in
  if Nat.eqb n 34 then esc (String quote_char EmptyString)
  else if Nat.eqb n 92 then esc (String backslash EmptyString)
  else if Nat.eqb n 10 then esc "n"
  else if Nat.eqb n 13 then esc "r"
  else if Nat.eqb n 9 then esc "t"
  else if Nat.eqb n 8 then esc "b"
  else if Nat.eqb n 12 then esc "f"
  else if Nat.ltb n 32 then
    esc ("u00" ++ String (hex_digit (n / 16))
                        (String (hex_digit (n mod 16)) EmptyString))
  else String c EmptyString.

Fixpoint escape (s : string) : string :=
  match s with
  | EmptyString => EmptyString
  | String c s' => escape_char c ++ escape s'
  end.

Definition quoted (s : string) : string :=
  String quote_char (escape s ++ String quote_char EmptyString).

Fixpoint spaces (n : nat) : string :=
  match n with
  | O => EmptyString
  | S n' => String " " (spaces n')
  end.

(** Decimal digits of a natural number, most significant first; [fuel]
    bounds the number of digits. *)
Fixpoint digits (fuel : nat) (n : N) (acc : string) : string :=
  match fuel with
  | O => acc
  | S fuel' =>
      let d := ascii_of_nat (48 + N.to_nat (n mod 10)) in
      if (n <? 10)%N then String d acc
      else digits fuel' (n / 10)%N (String d acc)
  end.

Definition decimal (z : Z) : string :=
  let n := Z.to_N (Z.abs z) in
  let body := digits (S (N.to_nat (N.log2 n))) n EmptyString in
  if (z <? 0)%Z then String "-" body else body.

(** [json.dumps(j, indent=2, ensure_ascii=False)] at nesting depth
    [depth]: one member per line, ["key": value], the items separated by
    a comma and a newline. *)
Fixpoint dumps (depth : nat) (j : json) : string :=
  match j with
  | JStr s => quoted s
  | JInt z => decimal z
  | JObj [] => "{}"
  | JObj fields =>
      let inner := newline ++ spaces (2 * S depth) in
      "{" ++ inner
          ++ String.concat ("," ++ inner)
               (map (fun kv => quoted (fst kv) ++ ": " ++ dumps (S depth) (snd kv))
                    fields)
          ++ newline ++ spaces (2 * depth) ++ "}"
  end.

(** The keys of a dictionary, in order. *)
Definition keys (j : json) : list string :=
  match j with
  | JObj fields => map fst fields
  | _ => []
  end.

(** [j[k]] *)
Fixpoint lookup (k : string) (fields : list (string * json)) : option json :=
  match fields with
  | [] => None
  | (k', v) :: fields' => if String.eqb k k' then Some v else lookup k fields'
  end.

Definition get (j : json) (k : string) : option json :=
  match j with
  | JObj fields => lookup k fields
  | _ => None
  end.

End Json.

(* ================================================================== *)
(** * src/python/script-template.py                                     *)
(* ================================================================== *)

Module ScriptTemplate.
Import Py Fs Json.
Local Open Scope py_scope.

(** The messages passed to the logger, one constructor per call site,
    carrying the values that the f-string interpolates. *)
Inductive Message :=
| ScriptStarted                       (* "=== Script Started ===" *)
| InputIs (p : Path)                  (* f"Input: {args.input}" *)
| OutputIs (p : Path)                 (* f"Output: {args.output}" *)
| ForceIs (b : bool)                  (* f"Force: {args.force}" *)
| InputValidationCompleted            (* "Input validation completed successfully" *)
| StartingProcessing (p : Path)       (* f"Starting processing of: {input_path}" *)
| ProcessingDirectory (items : N)     (* f"Processing directory with {...} items" *)
| ProcessingFile (size : N)           (* f"Processing file of size {...} bytes" *)
| OutputSavedTo (p : Path)            (* f"Output saved to: {output_path}" *)
| ProcessingCompleted                 (* "Processing completed successfully" *)
| ErrorInProcessing (e : exn)         (* f"Error in processing: {str(e)}" *)
| Traceback (e : exn)                 (* traceback.format_exc() *)
| ScriptCompleted                     (* "=== Script Completed Successfully ===" *)
| ScriptInterrupted                   (* "Script interrupted by user" *)
| ScriptFailed                        (* "=== Script Failed ===" *)
| ErrorIs (e : exn)                   (* f"Error: {str(e)}" *)
| PerformingCleanup                   (* "Performing cleanup operations..." *)
| CleanupCompleted.                   (* "Cleanup completed" *)

Record LogRecord := mkrecord {
  record_level : level;
  record_msg : Message
}.

(** The process as the script sees it: the file system, the calls made
    to the logger so far (oldest first), the name of the module's file
    ([__file__]) and the pending user interrupt.  [sigint = Some k] says
    that SIGINT arrives after [k] more statements of the [try] block of
    [main]; it is delivered once, as a [KeyboardInterrupt] raised at the
    next statement boundary of that block. *)
Record State := mkstate {
  fs : filesystem;
  log : list LogRecord;
  module_file : Path;
  sigint : option nat
}.

Definition set_fs (f : filesystem) (s : State) : State :=
  mkstate f (log s) (module_file s) (sigint s).

Definition add_record (r : LogRecord) (s : State) : State :=
  mkstate (fs s) (log s ++ [r])%list (module_file s) (sigint s).

Definition set_sigint (k : option nat) (s : State) : State :=
  mkstate (fs s) (log s) (module_file s) k.

(** The point between two statements of the [try] block where a pending
    interrupt is raised. *)
Definition checkpoint : M State unit :=
  fun s => match sigint s with
           | Some O => (Raise KeyboardInterrupt, set_sigint None s)
           | Some (S k) => (Ok tt, set_sigint (Some k) s)
           | None => (Ok tt, s)
           end.

Inductive Handler :=
| StreamHandler                 (* logging.StreamHandler(sys.stdout) *)
| FileHandler (file : Path).    (* logging.FileHandler(log_file, encoding='utf-8') *)

Record Logger := mklogger {
  logger_level : level;
  handlers : list Handler
}.

(** [logger.log(lvl, msg)]: the call is recorded; what the handlers print
    is [emitted]. *)
Definition log_at (lvl : level) (logger : Logger) (m : Message) : M State unit :=
  modify (add_record (mkrecord lvl m)).

Definition debug := log_at DEBUG.
Definition info := log_at INFO.
Definition warning := log_at WARNING.
Definition error := log_at ERROR.

(** The records that pass the level of the logger and reach its
    handlers. *)
Definition emitted (logger : Logger) (records : list LogRecord)
  : list LogRecord :=
  filter (fun r => (levelno (logger_level logger) <=? levelno (record_level r))%Z)
         records.

(** Lifting of a file-system operation that replaces the tree. *)
Definition fs_update (op : filesystem -> result filesystem) : M State unit :=
  fun s => match op (fs s) with
           | Ok f => (Ok tt, set_fs f s)
           | Raise e => (Raise e, s)
           end.

(** Lifting of a file-system query. *)
Definition fs_query {A} (q : filesystem -> result A) : M State A :=
  fun s => (q (fs s), s).

(** The parsed command line ([argparse.Namespace]). *)
Record Namespace := mkargs {
  input : Path;
  output : Path;
  force : bool;
  log_level : level;
  log_file : option Path
}.

(** [setup_logging(log_level, log_file)]: a console handler, and a file
    handler when a log file is given; creating the file handler opens the
    file for appending. *)
Definition setup_logging (log_level : level) (log_file : option Path)
  : M State Logger :=
  let console_handler := StreamHandler in
  match log_file with
  | Some file =>
      fs_update (fun f => open_append f file) ;;;
      ret (mklogger log_level [console_handler; FileHandler file])
  | None => ret (mklogger log_level [console_handler])
  end.

(** [validate_inputs(input_path, output_path, force)] *)
Definition validate_inputs (input_path output_path : Path) (force : bool)
  : M State bool :=
  (* Check if input exists *)
  input_exists <- gets (fun s => exists_ (fs s) input_path) ;;
  if negb input_exists then
    raise (ValueError ("Input path does not exist: " ++ str input_path))
  else
    (* Create output directory if needed *)
    fs_update (fun f => mkdir_parents f (parent output_path)) ;;;
    (* Check if output exists and force is not specified *)
    output_exists <- gets (fun s => exists_ (fs s) output_path) ;;
    if output_exists && negb force then
      raise (ValueError ("Output file exists and --force not specified: "
                           ++ str output_path))
    else ret true.

(** The dictionary that [process_data] writes and returns. *)
Definition output_data (file input_path output_path : Path) (result : json)
  : json :=
  JObj [ ("processed_at", JStr (name file));
         ("input_path", JStr (str input_path));
         ("output_path", JStr (str output_path));
         ("status", JStr "success");
         ("details", result) ].

(** [process_data(input_path, output_path, logger)] *)
Definition process_data (input_path output_path : Path) (logger : Logger)
  : M State json :=
  try_except
    (info logger (StartingProcessing input_path) ;;;
     input_is_dir <- gets (fun s => is_dir (fs s) input_path) ;;
     result <-
       (if input_is_dir : bool then
          n <- fs_query (fun f => iterdir_len f input_path) ;;
          info logger (ProcessingDirectory n) ;;;
          items <- fs_query (fun f => iterdir_len f input_path) ;;
          ret (JObj [("type", JStr "directory"); ("items", JInt (Z.of_N items))])
        else
          n <- fs_query (fun f => st_size f input_path) ;;
          info logger (ProcessingFile n) ;;;
          size <- fs_query (fun f => st_size f input_path) ;;
          ret (JObj [("type", JStr "file"); ("size", JInt (Z.of_N size))])) ;;
     file <- gets module_file ;;
     let data := output_data file input_path output_path result in
     (* Save output with UTF-8 encoding *)
     fs_update (fun f => write_text f output_path (dumps 0 data)) ;;;
     info logger (OutputSavedTo output_path) ;;;
     info logger ProcessingCompleted ;;;
     ret data)
    [ (is_Exception,
       fun e => error logger (ErrorInProcessing e) ;;;
                debug logger (Traceback e) ;;;
                raise e) ].

(** [cleanup_resources(logger)] *)
Definition cleanup_resources (logger : Logger) : M State unit :=
  info logger PerformingCleanup ;;;
  info logger CleanupCompleted.

(** The records that mark the start and the end of an execution of
    [cleanup_resources]; counting them in the log counts the executions. *)
Definition is_cleanup_start (r : LogRecord) : bool :=
  match record_msg r with PerformingCleanup => true | _ => false end.

Definition is_cleanup_end (r : LogRecord) : bool :=
  match record_msg r with CleanupCompleted => true | _ => false end.

Definition cleanup_starts (records : list LogRecord) : nat :=
  length (filter is_cleanup_start records).

Definition cleanup_ends (records : list LogRecord) : nat :=
  length (filter is_cleanup_end records).

(** The body of the [try] block of [main]. *)
Definition main_body (args : Namespace) (logger : Logger) : M State Z :=
  checkpoint ;;; info logger ScriptStarted ;;;
  checkpoint ;;; info logger (InputIs (input args)) ;;;
  checkpoint ;;; info logger (OutputIs (output args)) ;;;
  checkpoint ;;; info logger (ForceIs (force args)) ;;;
  (* Validate inputs *)
  checkpoint ;;; validate_inputs (input args) (output args) (force args) ;;;
  checkpoint ;;; info logger InputValidationCompleted ;;;
  (* Process data *)
  checkpoint ;;; process_data (input args) (output args) logger ;;;
  checkpoint ;;; info logger ScriptCompleted ;;;
  checkpoint ;;; ret 0%Z.

(** The [try ... except KeyboardInterrupt ... except Exception ...] part
    of [main]. *)
Definition main_try (args : Namespace) (logger : Logger) : M State Z :=
  try_except (main_body args logger)
    [ (is_KeyboardInterrupt,
       fun _ => warning logger ScriptInterrupted ;;; ret 130%Z);
      (is_Exception,
       fun e => error logger ScriptFailed ;;;
                error logger (ErrorIs e) ;;;
                debug logger (Traceback e) ;;;
                ret 1%Z) ].

(** [main()].  [parse_args] is the outcome of [parser.parse_args()] on the
    command line of the process: the namespace, or the [SystemExit] that
    argparse raises on a malformed command line, on [--help] and on
    [--version]. *)
Definition main (parse_args : result Namespace) : M State Z :=
  (* Parse arguments *)
  args <- lift parse_args ;;
  (* Set up logging *)
  logger <- setup_logging (log_level args) (log_file args) ;;
  try_finally (main_try args logger) (cleanup_resources logger).

End ScriptTemplate.

(* ================================================================== *)
(** * src/python/validation_functions.py                                *)
(* ================================================================== *)

Module Validation.
Import Py Fs.
Local Open Scope py_scope.

(** A value of the system-information dictionary. *)
Inductive info_value :=
| IStr (s : string)
| IVersion (major minor micro : Z)    (* f"{major}.{minor}.{micro}" *)
| IPath (p : Path).

(** What the validator reads from the platform.  Every field is the
    outcome of the library call named beside it; a call that can raise
    yields the exception it raises. *)
Record Env := mkenv {
  version_info : Z * Z * Z;                       (* sys.version_info[:3] *)
  which : string -> option string;                (* shutil.which(cmd) *)
  import_ : string -> option exn;                 (* __import__(module); None: imported *)
  create_connection : string -> Z -> Z -> option exn;
                        (* socket.create_connection((host, port), timeout).close() *)
  system : string;                                (* platform.system() *)
  statvfs : string -> result (N * N);             (* os.statvfs(p): f_frsize, f_bavail *)
  time : Z;                                       (* int(time.time()) *)
  cwd : Path;                                     (* Path.cwd() *)
  platform_ : string;                             (* platform.platform() *)
  architecture : string;                          (* platform.architecture()[0] *)
  processor : string;                             (* platform.processor() *)
  node_ : string;                                 (* platform.node() *)
  getenv : string -> option string;               (* os.getenv(name) *)
  script_path : Path;                             (* Path(sys.argv[0]).resolve() *)
  executable : string                             (* sys.executable *)
}.

(** The messages passed to the logger, one constructor per call site. *)
Inductive Message :=
| PythonVersionPassed (current : Z * Z)
| PythonVersionBelowMinimum (current required : Z * Z)
| CommandPassed (command : string)
| CommandAlternativePassed (alt_cmd command : string)
| CommandNotFound (command : string)
| PathDoesNotExist (p : Path)
| PathIsNotAFile (p : Path)
| PathIsNotADirectory (p : Path)
| WriteAccessValidated (p : Path)
| PathNotWritable (p : Path) (e : exn)
| PathPassed (p : Path)
| NetworkValidated (host : string) (port : Z)
| NetworkTestFailed (host : string) (port : Z) (e : exn)
| ModuleImportPassed (module : string)
| ModuleNotAvailable (module : string)
| MissingModules (missing : list string)
| OSPassed (current_os : string)
| UnsupportedOS (supported : list string) (current_os : string)
| DiskSpacePassed (available_gb : Q)
| InsufficientDiskSpace (min_gb available_gb : Q)
| UnableToCheckDiskSpace
| StartingSystemValidation
| SystemInformation
| SystemInformationEntry (key : string) (value : info_value)
| NetworkFailedContinuing
| SystemValidationFailed (errors : Z)
| SystemValidationCompleted.

Record LogRecord := mkrecord {
  record_level : level;
  record_msg : Message
}.

(** The [ScriptValidator] object. *)
Record ScriptValidator := mkvalidator {
  script_name : string;
  script_version : string;
  logger_level : level;
  validation_errors : Z
}.

(** [ScriptValidator(script_name, log_level)] *)
Definition init (script_name : string) (log_level : level) : ScriptValidator :=
  mkvalidator script_name "1.0.0" log_level 0.

(** The validator together with the file system it probes and the calls
    made to its logger so far (oldest first). *)
Record State := mkstate {
  self : ScriptValidator;
  fs : filesystem;
  log : list LogRecord
}.

Definition tally (s : State) : Z := validation_errors (self s).

Definition add_record (r : LogRecord) (s : State) : State :=
  mkstate (self s) (fs s) (log s ++ [r])%list.

Definition set_fs (f : filesystem) (s : State) : State :=
  mkstate (self s) f (log s).

(** [self.validation_errors += 1] *)
Definition increment_errors : M State unit :=
  modify (fun s =>
    mkstate (mkvalidator (script_name (self s)) (script_version (self s))
                         (logger_level (self s))
                         (validation_errors (self s) + 1))
            (fs s) (log s)).

Definition log_at (lvl : level) (m : Message) : M State unit :=
  modify (add_record (mkrecord lvl m)).

Definition info := log_at INFO.
Definition warning := log_at WARNING.
Definition error := log_at ERROR.

Definition fs_update (op : filesystem -> result filesystem) : M State unit :=
  fun s => match op (fs s) with
           | Ok f => (Ok tt, set_fs f s)
           | Raise e => (Raise e, s)
           end.

(** [x or default] on an optional list: [None] and the empty list are
    both false. *)
Definition or_default {A} (x : option (list A)) (default : list A) : list A :=
  match x with
  | Some (a :: l) => a :: l
  | _ => default
  end.

(** Truth value of an optional list. *)
Definition truthy {A} (x : option (list A)) : bool :=
  match x with
  | Some (_ :: _) => true
  | _ => false
  end.

(** [current >= min_version] on pairs, in lexicographic order. *)
Definition tuple_ge (current min_version : Z * Z) : bool :=
  let '(a, b) := current in
  let '(c, d) := min_version in
  (c <? a)%Z || ((a =? c)%Z && (d <=? b)%Z).

(** [validate_python_version(min_version)] *)
Definition validate_python_version (env : Env) (min_version : Z * Z)
  : M State bool :=
  let current := (fst (fst (version_info env)), snd (fst (version_info env))) in
  if tuple_ge current min_version then
    info (PythonVersionPassed current) ;;;
    ret true
  else
    error (PythonVersionBelowMinimum current min_version) ;;;
    increment_errors ;;;
    ret false.

(** Truth value of [shutil.which(cmd)]: a path was found (the path of an
    executable is never the empty string). *)
Definition resolvable (env : Env) (cmd : string) : bool :=
  match which env cmd with
  | Some EmptyString => false
  | Some _ => true
  | None => false
  end.

(** The loop over the alternatives: the first one found, if any. *)
Fixpoint first_resolvable (env : Env) (alternatives : list string)
  : option string :=
  match alternatives with
  | [] => None
  | alt_cmd :: rest =>
      if resolvable env alt_cmd then Some alt_cmd
      else first_resolvable env rest
  end.

(** [validate_command(command, alternatives)] *)
Definition validate_command (env : Env) (command : string)
           (alternatives : option (list string)) : M State bool :=
  let alternatives := or_default alternatives [] in
  (* Test primary command *)
  if resolvable env command then
    info (CommandPassed command) ;;;
    ret true
  else
    (* Test alternatives *)
    match first_resolvable env alternatives with
    | Some alt_cmd =>
        info (CommandAlternativePassed alt_cmd command) ;;;
        ret true
    | None =>
        error (CommandNotFound command) ;;;
        increment_errors ;;;
        ret false
    end.

(** [f"test_write_{int(time.time())}.tmp"] *)
Definition probe_name (env : Env) : string :=
  "test_write_" ++ Json.decimal (time env) ++ ".tmp".

(** [validate_path(path, path_type, check_writable)] *)
Definition validate_path (env : Env) (path : Path) (path_type : string)
           (check_writable : bool) : M State bool :=
  (* Basic existence check *)
  path_exists <- gets (fun s => exists_ (fs s) path) ;;
  if negb path_exists then
    error (PathDoesNotExist path) ;;; increment_errors ;;; ret false
  else
    (* Type-specific validation *)
    path_is_file <- gets (fun s => is_file (fs s) path) ;;
    path_is_dir <- gets (fun s => is_dir (fs s) path) ;;
    if String.eqb path_type "file" && negb path_is_file then
      error (PathIsNotAFile path) ;;; increment_errors ;;; ret false
    else if String.eqb path_type "directory" && negb path_is_dir then
      error (PathIsNotADirectory path) ;;; increment_errors ;;; ret false
    else
      (* Write access check *)
      writable <-
        (if check_writable then
           try_except
             ((if path_is_dir then
                 let test_file := (path ++ [probe_name env])%list in
                 fs_update (fun f => touch f test_file) ;;;
                 fs_update (fun f => unlink f test_file)
               else
                 (* For files, check if parent directory is writable *)
                 let parent_test := (parent path ++ [probe_name env])%list in
                 fs_update (fun f => touch f parent_test) ;;;
                 fs_update (fun f => unlink f parent_test)) ;;;
              info (WriteAccessValidated path) ;;;
              ret true)
             [ (is_OSError,
                fun e => error (PathNotWritable path e) ;;;
                         increment_errors ;;;
                         ret false) ]
         else ret true) ;;
      if writable : bool then
        info (PathPassed path) ;;; ret true
      else ret false.

(** [validate_network(host, port, timeout)] *)
Definition validate_network (env : Env) (host : string) (port timeout : Z)
  : M State bool :=
  try_except
    (lift (match create_connection env host port timeout with
           | None => Ok tt
           | Some e => Raise e
           end) ;;;
     info (NetworkValidated host port) ;;;
     ret true)
    [ (is_OSError,
       fun e => warning (NetworkTestFailed host port e) ;;;
                ret false) ].

(** [__import__(module)] returns: the module is importable. *)
Definition importable (env : Env) (module : string) : bool :=
  match import_ env module with
  | None => true
  | Some _ => false
  end.

(** The loop of [validate_imports]; [missing_modules] is the list built
    so far, which the loop returns. *)
Fixpoint validate_imports_loop (env : Env) (modules missing_modules : list string)
  : M State (list string) :=
  match modules with
  | [] => ret missing_modules
  | module :: rest =>
      missing_modules' <-
        try_except
          (lift (match import_ env module with
                 | None => Ok tt
                 | Some e => Raise e
                 end) ;;;
           info (ModuleImportPassed module) ;;;
           ret missing_modules)
          [ (is_ImportError,
             fun _ => error (ModuleNotAvailable module) ;;;
                      increment_errors ;;;
                      ret (missing_modules ++ [module])%list) ] ;;
      validate_imports_loop env rest missing_modules'
  end.

(** [validate_imports(modules)] *)
Definition validate_imports (env : Env) (modules : list string) : M State bool :=
  missing_modules <- validate_imports_loop env modules [] ;;
  match missing_modules with
  | _ :: _ =>
      error (MissingModules missing_modules) ;;;
      ret false
  | [] => ret true
  end.

(** [current_os in supported_os] *)
Definition member (x : string) (l : list string) : bool :=
  existsb (String.eqb x) l.

(** [validate_os(supported_os)] *)
Definition validate_os (env : Env) (supported_os : option (list string))
  : M State bool :=
  let supported_os := or_default supported_os ["Windows"; "Linux"; "Darwin"] in
  let current_os := system env in
  if member current_os supported_os then
    info (OSPassed current_os) ;;;
    ret true
  else
    error (UnsupportedOS supported_os current_os) ;;;
    increment_errors ;;;
    ret false.

(** [(statvfs.f_frsize * statvfs.f_bavail) / (1024**3)].  The Python
    floats are represented by the rational numbers they stand for. *)
Definition available_gb (frsize bavail : N) : Q :=
  Qmake (Z.of_N (frsize * bavail)) (2 ^ 30).

(** The float [0.1]: the binary64 number nearest to one tenth. *)
Definition float_0_1 : Q := 3602879701896397 # 36028797018963968.

(** [validate_disk_space(path, min_gb)] *)
Definition validate_disk_space (env : Env) (path : Path) (min_gb : Q)
  : M State bool :=
  try_except
    (st <- lift (statvfs env (str path)) ;;
     let available := available_gb (fst st) (snd st) in
     if Qle_bool min_gb available then
       info (DiskSpacePassed available) ;;;
       ret true
     else
       error (InsufficientDiskSpace min_gb available) ;;;
       increment_errors ;;;
       ret false)
    [ (fun e => is_OSError e || is_AttributeError e,
       fun _ =>
         (* Fallback for Windows or other systems *)
         warning UnableToCheckDiskSpace ;;;
         ret true) ].

(** [x or default] on a string. *)
Definition or_string (x default : string) : string :=
  match x with
  | EmptyString => default
  | _ => x
  end.

(** [os.getenv(name, default)] *)
Definition getenv_default (env : Env) (name default : string) : string :=
  match getenv env name with
  | Some v => v
  | None => default
  end.

(** [get_system_info()] *)
Definition get_system_info (env : Env) : list (string * info_value) :=
  let '(major, minor, micro) := version_info env in
  [ ("python_version", IVersion major minor micro);
    ("platform", IStr (platform_ env));
    ("architecture", IStr (architecture env));
    ("processor", IStr (or_string (processor env) "Unknown"));
    ("hostname", IStr (node_ env));
    ("user", IStr (getenv_default env "USER"
                     (getenv_default env "USERNAME" "Unknown")));
    ("script_path", IPath (script_path env));
    ("working_directory", IPath (cwd env));
    ("python_executable", IStr (executable env)) ].

(** [validate_system(min_python_version, required_commands,
    required_modules, supported_os)] *)
Definition validate_system (env : Env) (min_python_version : Z * Z)
           (required_commands required_modules supported_os : option (list string))
  : M State bool :=
  info StartingSystemValidation ;;;
  (* Log system information *)
  let sys_info := get_system_info env in
  info SystemInformation ;;;
  for_each sys_info (fun kv => info (SystemInformationEntry (fst kv) (snd kv))) ;;;
  (* Validate Python version *)
  validate_python_version env min_python_version ;;;
  (* Validate operating system *)
  (if truthy supported_os then
     validate_os env supported_os ;;; ret tt
   else ret tt) ;;;
  (* Validate required commands *)
  (if truthy required_commands then
     for_each (or_default required_commands [])
              (fun cmd => validate_command env cmd None ;;; ret tt)
   else ret tt) ;;;
  (* Validate required modules *)
  (if truthy required_modules then
     validate_imports env (or_default required_modules []) ;;; ret tt
   else ret tt) ;;;
  (* Validate basic paths *)
  validate_path env (cwd env) "directory" true ;;;
  (* Network validation (optional) *)
  connected <- validate_network env "github.com" 443 5 ;;
  (if negb connected then warning NetworkFailedContinuing else ret tt) ;;;
  (* Disk space validation *)
  validate_disk_space env (cwd env) float_0_1 ;;;
  errors <- gets tally ;;
  if (0 <? errors)%Z then
    error (SystemValidationFailed errors) ;;;
    ret false
  else
    info SystemValidationCompleted ;;;
    ret true.

(** The composition as the specification words it: the system-info
    snapshot is logged first, then the version, OS, command, module, path,
    network and disk-space checks run in sequence, and the answer is
    whether the tally is zero afterwards.  [with_os_check] tells whether
    the OS check takes part; the sentence of the specification is the case
    [true] ([all_checks_in_sequence]). *)
Definition checks_in_sequence (with_os_check : bool) (env : Env)
           (min_python_version : Z * Z)
           (required_commands required_modules supported_os : option (list string))
  : M State bool :=
  info StartingSystemValidation ;;;
  info SystemInformation ;;;
  for_each (get_system_info env)
           (fun kv => info (SystemInformationEntry (fst kv) (snd kv))) ;;;
  validate_python_version env min_python_version ;;;
  (if with_os_check then validate_os env supported_os ;;; ret tt else ret tt) ;;;
  for_each (or_default required_commands [])
           (fun cmd => validate_command env cmd None ;;; ret tt) ;;;
  validate_imports env (or_default required_modules []) ;;;
  validate_path env (cwd env) "directory" true ;;;
  connected <- validate_network env "github.com" 443 5 ;;
  (if negb connected then warning NetworkFailedContinuing else ret tt) ;;;
  validate_disk_space env (cwd env) float_0_1 ;;;
  errors <- gets tally ;;
  if (errors =? 0)%Z then
    info SystemValidationCompleted ;;;
    ret true
  else
    error (SystemValidationFailed errors) ;;;
    ret false.

Definition all_checks_in_sequence := checks_in_sequence true.

(** The checks of the validator with their arguments. *)
Inductive Check :=
| PythonVersion (min_version : Z * Z)
| Command (command : string) (alternatives : option (list string))
| PathCheck (path : Path) (path_type : string) (check_writable : bool)
| Network (host : string) (port timeout : Z)
| Imports (modules : list string)
| OperatingSystem (supported_os : option (list string))
| DiskSpace (path : Path) (min_gb : Q).

(** Calling the method that performs a check. *)
Definition run_check (env : Env) (c : Check) : M State bool :=
  match c with
  | PythonVersion min_version => validate_python_version env min_version
  | Command command alternatives => validate_command env command alternatives
  | PathCheck path path_type check_writable =>
      validate_path env path path_type check_writable
  | Network host port timeout => validate_network env host port timeout
  | Imports modules => validate_imports env modules
  | OperatingSystem supported_os => validate_os env supported_os
  | DiskSpace path min_gb => validate_disk_space env path min_gb
  end.

(** What is expected of a check: it never lowers the tally, and leaves it
    as it was when it returns [True]. *)
Definition honest (m : M State bool) : Prop :=
  forall s : State,
    (tally s <= tally (snd (m s)))%Z
    /\ (fst (m s) = Ok true -> tally (snd (m s)) = tally s).

End Validation.

(* ================================================================== *)
(** * validation_functions.py: the prompt and the example [main]        *)
(* ================================================================== *)

Module Interactive.
Import Py Fs.

(** What arrives on standard input while [input()] waits: a line, the end
    of the stream or Ctrl-C, each after a number of seconds (not negative),
    or nothing at all. *)
Inductive stdin_event :=
| Line (after : Z) (text : string)
| EndOfFile (after : Z)
| CtrlC (after : Z)
| Silence.

(** The terminal of the process: whether the platform has [signal.SIGALRM]
    ([hasattr(signal, 'SIGALRM')]), and what the user does. *)
Record Console := mkconsole {
  has_SIGALRM : bool;
  stdin : stdin_event
}.

(** A message passed to the logger of the validator: one of the checks,
    or the one of [prompt_with_timeout]. *)
Inductive Message :=
| OfCheck (m : Validation.Message)
| NoInputDetected (default : string).  (* f"No input detected, using default: {default}" *)

Record LogRecord := mkrecord {
  record_level : level;
  record_msg : Message
}.

(** The process as the prompt and [main] see it: the validator object,
    the file system, the calls made to the logger, the text printed, the
    seconds until a pending SIGALRM, and whether [timeout_handler] is the
    handler of SIGALRM. *)
Record Terminal := mkterminal {
  self : Validation.ScriptValidator;
  fs : filesystem;
  log : list LogRecord;
  stdout : list string;
  alarm : option Z;
  timeout_handler_installed : bool
}.

(** A computation that returns, raises, or never comes back to its
    caller ([None]): it waits forever, or the process is killed. *)
Definition IO (A : Type) : Type := Terminal -> option (result A * Terminal).

Definition io_ret {A} (a : A) : IO A := fun t => Some (Ok a, t).

Definition io_raise {A} (e : exn) : IO A := fun t => Some (Raise e, t).

Definition io_bind {A B} (m : IO A) (k : A -> IO B) : IO B :=
  fun t => match m t with
           | Some (Ok a, t') => k a t'
           | Some (Raise e, t') => Some (Raise e, t')
           | None => None
           end.

(** [try: body  except C1 as e: h1(e) ...] *)
Definition io_try_except {A} (body : IO A)
           (clauses : list ((exn -> bool) * (exn -> IO A))) : IO A :=
  fun t => match body t with
           | Some (Ok a, t') => Some (Ok a, t')
           | Some (Raise e, t') =>
               match find (fun c => fst c e) clauses with
               | Some c => snd c e t'
               | None => Some (Raise e, t')
               end
           | None => None
           end.

Declare Scope io_scope.
Delimit Scope io_scope with io.
Notation "x <- c1 ;; c2" := (io_bind c1 (fun x => c2))
  (at level 61, c1 at next level, right associativity) : io_scope.
Notation "c1 ;;; c2" := (io_bind c1 (fun _ => c2))
  (at level 61, right associativity) : io_scope.
Local Open Scope io_scope.

(** A method of the validator, run in the process: it works on the
    validator object and the file system, and the records it passes to the
    logger are appended to the log. *)
Definition of_validator {A} (m : M Validation.State A) : IO A :=
  fun t =>
    let '(r, s') := m (Validation.mkstate (self t) (fs t) []) in
    Some (r,
          mkterminal (Validation.self s') (Validation.fs s')
            (log t ++ map (fun r => mkrecord (Validation.record_level r)
                                             (OfCheck (Validation.record_msg r)))
                          (Validation.log s'))%list
            (stdout t) (alarm t) (timeout_handler_installed t)).

(** [print(text, end=end_, flush=True)] *)
Definition print (text end_ : string) : IO unit :=
  fun t => Some (Ok tt,
                 mkterminal (self t) (fs t) (log t)
                            (stdout t ++ [(text ++ end_)%string])%list
                            (alarm t) (timeout_handler_installed t)).

Definition newline : string := String (ascii_of_nat 10) EmptyString.

(** [self.logger.warning(msg)] *)
Definition warning (m : Message) : IO unit :=
  fun t => Some (Ok tt,
                 mkterminal (self t) (fs t) (log t ++ [mkrecord WARNING m])%list
                            (stdout t) (alarm t) (timeout_handler_installed t)).

(** [signal.signal(signal.SIGALRM, timeout_handler)] *)
Definition signal_signal : IO unit :=
  fun t => Some (Ok tt,
                 mkterminal (self t) (fs t) (log t) (stdout t) (alarm t) true).

(** [signal.alarm(seconds)]: the argument is converted to a C [int]
    ([OverflowError] outside its range) and passed to [alarm(unsigned)];
    0 cancels the pending alarm, any other value replaces it. *)
Definition signal_alarm (seconds : Z) : IO unit :=
  fun t =>
    if ((seconds <? - 2 ^ 31) || (2 ^ 31 <=? seconds))%Z then
      Some (Raise (OtherException "OverflowError"), t)
    else
      Some (Ok tt,
            mkterminal (self t) (fs t) (log t) (stdout t)
                       (if (seconds =? 0)%Z then None
                        else Some (seconds mod 2 ^ 32)%Z)
                       (timeout_handler_installed t)).

(** The alarm goes off [after] seconds from now or earlier. *)
Definition alarm_before (t : Terminal) (after : Z) : bool :=
  match alarm t with
  | Some seconds => (seconds <=? after)%Z
  | None => false
  end.

(** The terminal [after] seconds later: a pending alarm is that much
    nearer. *)
Definition later (after : Z) (t : Terminal) : Terminal :=
  mkterminal (self t) (fs t) (log t) (stdout t)
             (match alarm t with
              | Some seconds => Some (seconds - after)%Z
              | None => None
              end)
             (timeout_handler_installed t).

(** SIGALRM is delivered: [timeout_handler] raises [TimeoutError]; without
    a handler the signal ends the process. *)
Definition alarm_goes_off {A} : IO A :=
  fun t =>
    if timeout_handler_installed t then
      Some (Raise TimeoutError,
            mkterminal (self t) (fs t) (log t) (stdout t) None true)
    else None.

(** [input()]: what the user does decides, unless the alarm goes off
    first. *)
Definition input_ (c : Console) : IO string :=
  fun t =>
    match stdin c with
    | Line after text =>
        if alarm_before t after then alarm_goes_off t
        else Some (Ok text, later after t)
    | EndOfFile after =>
        if alarm_before t after then alarm_goes_off t
        else Some (Raise (OtherException "EOFError"), later after t)
    | CtrlC after =>
        if alarm_before t after then alarm_goes_off t
        else Some (Raise KeyboardInterrupt, later after t)
    | Silence =>
        match alarm t with
        | Some _ => alarm_goes_off t
        | None => None
        end
    end.

(** [isinstance(e, TimeoutError)] *)
Definition is_TimeoutError (e : exn) : bool :=
  match e with TimeoutError => true | _ => false end.

(** [prompt_with_timeout(prompt, timeout, default)] *)
Definition prompt_with_timeout (c : Console) (prompt : string) (timeout : Z)
           (default : string) : IO string :=
  print (prompt ++ " (auto-continues in " ++ Json.decimal timeout ++ "s): ")
        EmptyString ;;;
  io_try_except
    ((* Set up signal handler for timeout (Unix only) *)
     (if has_SIGALRM c then
        signal_signal ;;;
        signal_alarm timeout
      else io_ret tt) ;;;
     response <- input_ c ;;
     (if has_SIGALRM c then
        signal_alarm 0  (* Cancel alarm *)
      else io_ret tt) ;;;
     io_ret response)
    [ (fun e => is_TimeoutError e || is_KeyboardInterrupt e,
       fun _ =>
         print EmptyString newline ;;;
         warning (NoInputDetected default) ;;;
         io_ret default) ].

Definition lower_char (ch : ascii) : ascii :=
  let n := nat_of_ascii ch in
  if (Nat.leb 65 n && Nat.leb n 90)%bool then ascii_of_nat (n + 32) else ch.

(** [s.lower()], on the ASCII letters. *)
Fixpoint lower (s : string) : string :=
  match s with
  | EmptyString => EmptyString
  | String ch s' => String (lower_char ch) (lower s')
  end.

(** [sys.exit(code)] *)
Definition sys_exit {A} (code : Z) : IO A := io_raise (SystemExit code).

(** [main()]: the example usage of the validation system. *)
Definition main (env : Validation.Env) (c : Console) : IO unit :=
  (fun t => Some (Ok tt,
                  mkterminal (Validation.init "example-script" INFO) (fs t)
                             (log t) (stdout t) (alarm t)
                             (timeout_handler_installed t))) ;;;
  (* Basic validation *)
  passed <- of_validator
              (Validation.validate_system env (3, 7)%Z
                 (Some ["git"; "python"])
                 (Some ["os"; "sys"; "pathlib"])
                 (Some ["Windows"; "Linux"; "Darwin"])) ;;
  (if negb passed then
     print "System validation failed!" newline ;;;
     sys_exit 1
   else io_ret tt) ;;;
  (* Example prompt with timeout *)
  response <- prompt_with_timeout c "Continue? (y/N)" 10 "n" ;;
  (if negb (String.eqb (lower response) "y") then
     print "Operation cancelled" newline ;;;
     sys_exit 0
   else io_ret tt) ;;;
  print "Validation passed! Script can continue..." newline.

End Interactive.

(* ================================================================== *)
(** * Concrete processes used by the examples                           *)
(* ================================================================== *)

Module Samples.
Import Py Fs Json.

(** A writable start directory holding the file [in.txt] (5 bytes), the
    directory [data] with two files, and the file [old.json]. *)
Definition sample_fs : filesystem :=
  mkfs true
       [ ("in.txt", File "hello");
         ("data", Dir true [("a", File "1"); ("b", File "22")]);
         ("old.json", File "{}") ].

(** The script started in [sample_fs], with SIGINT pending as [k] says. *)
Definition sample_state (k : option nat) : ScriptTemplate.State :=
  ScriptTemplate.mkstate sample_fs [] ["opt"; "script-template.py"] k.

Definition sample_logger : ScriptTemplate.Logger :=
  ScriptTemplate.mklogger INFO [ScriptTemplate.StreamHandler].

(** [-i in.txt -o out/r.json] *)
Definition sample_args (input output : Path) (force : bool)
  : ScriptTemplate.Namespace :=
  ScriptTemplate.mkargs input output force INFO None.

(** A Linux host with Python 3.11, [git] and [python3] on the search
    path, the standard modules importable, network access and 50 GiB free;
    [__import__] of the empty name raises [ValueError], and every other
    unknown module [ModuleNotFoundError]. *)
Definition sample_env (os_name : string) : Validation.Env :=
  Validation.mkenv
    (3, 11, 4)%Z
    (fun cmd => if String.eqb cmd "git" then Some "/usr/bin/git"
                else if String.eqb cmd "python3" then Some "/usr/bin/python3"
                else None)
    (fun module => if String.eqb module "os" then None
                   else if String.eqb module "sys" then None
                   else if String.eqb module EmptyString
                        then Some (ValueError "Empty module name")
                   else Some (ImportError module))
    (fun host port timeout =>
       if String.eqb host "github.com" then None else Some (OSError SocketError))
    os_name
    (fun p => if String.eqb p "mnt" then Raise (OSError FileNotFoundError)
              else Ok (4096, 13107200)%N)
    1700000000%Z
    ["home"]
    "Linux-6.1-x86_64"
    "64bit"
    EmptyString
    "host"
    (fun name => if String.eqb name "USER" then Some "emil" else None)
    ["home"; "script.py"]
    "/usr/bin/python3".

(** A file system with the writable working directory [home] and the
    read-only directory [srv]. *)
Definition sample_disk : filesystem :=
  mkfs true [ ("home", Dir true [("notes.txt", File "n")]);
              ("srv", Dir false []) ].

(** A fresh validator in [sample_disk]. *)
Definition sample_validator : Validation.State :=
  Validation.mkstate (Validation.init "example-script" INFO) sample_disk [].

(** The host of [sample_env "Linux"] with [python] on the search path and
    [pathlib] importable as well. *)
Definition sample_workstation : Validation.Env :=
  let env := sample_env "Linux" in
  Validation.mkenv
    (Validation.version_info env)
    (fun cmd => if String.eqb cmd "python" then Some "/usr/bin/python"
                else Validation.which env cmd)
    (fun module => if String.eqb module "pathlib" then None
                   else Validation.import_ env module)
    (Validation.create_connection env)
    (Validation.system env)
    (Validation.statvfs env)
    (Validation.time env)
    (Validation.cwd env)
    (Validation.platform_ env)
    (Validation.architecture env)
    (Validation.processor env)
    (Validation.node_ env)
    (Validation.getenv env)
    (Validation.script_path env)
    (Validation.executable env).

(** A process started in [sample_disk] that has printed nothing, with no
    alarm pending. *)
Definition sample_terminal : Interactive.Terminal :=
  Interactive.mkterminal (Validation.init "example-script" INFO) sample_disk
                         [] [] None false.

End Samples.

(* ================================================================== *)
(** * Theorems                                                          *)
(* ================================================================== *)

Import Py Fs Json ScriptTemplate Samples.

(** ** The monad *)

Section MonadLemmas.
Context {S A B : Type}.

Lemma bind_ok (m : M S A) (k : A -> M S B) s a s' :
  m s = (Ok a, s') -> bind m k s = k a s'.
Proof. intros H. unfold bind. now rewrite H. Qed.

Lemma bind_raise (m : M S A) (k : A -> M S B) s e s' :
  m s = (Raise e, s') -> bind m k s = (Raise e, s').
Proof. intros H. unfold bind. now rewrite H. Qed.

(** Two sequences agree at [s] when their heads agree there and their
    continuations agree on whatever the head returns. *)
Lemma bind_congr (m m' : M S A) (k k' : A -> M S B) s :
  m s = m' s ->
  (forall a s', m s = (Ok a, s') -> k a s' = k' a s') ->
  bind m k s = bind m' k' s.
Proof.
  intros Hm Hk. unfold bind. rewrite <- Hm.
  destruct (m s) as [[a|e] s'] eqn:E; auto.
Qed.

Lemma bind_inv_ok (m : M S A) (k : A -> M S B) s b s2 :
  bind m k s = (Ok b, s2) ->
  exists a s1, m s = (Ok a, s1) /\ k a s1 = (Ok b, s2).
Proof.
  unfold bind. destruct (m s) as [[a|e] s1]; intros H.
  - eauto.
  - discriminate.
Qed.

Lemma bind_inv_raise (m : M S A) (k : A -> M S B) s e s2 :
  bind m k s = (Raise e, s2) ->
  m s = (Raise e, s2) \/ exists a s1, m s = (Ok a, s1) /\ k a s1 = (Raise e, s2).
Proof.
  unfold bind. destruct (m s) as [[a|e'] s1]; intros H.
  - right. eauto.
  - left. now inversion H.
Qed.
End MonadLemmas.


(** ** Relations between the state before and after a computation *)

Section Steps.
Context {S : Type} (R : S -> S -> Prop).
Hypothesis R_refl : forall s, R s s.
Hypothesis R_trans : forall s1 s2 s3, R s1 s2 -> R s2 s3 -> R s1 s3.

Lemma steps_ret {A} (a : A) : steps R (ret a).
Proof. intros s. apply R_refl. Qed.

Lemma steps_raise {A} e : steps R (@raise S A e).
Proof. intros s. apply R_refl. Qed.

Lemma steps_gets {A} (f : S -> A) : steps R (gets f).
Proof. intros s. apply R_refl. Qed.

Lemma steps_lift {A} (r : result A) : steps R (lift r).
Proof. intros s. apply R_refl. Qed.

Lemma steps_modify (f : S -> S) : (forall s, R s (f s)) -> steps R (modify f).
Proof. intros H s. apply H. Qed.

Lemma steps_bind {A B} (m : M S A) (k : A -> M S B) :
  steps R m -> (forall a, steps R (k a)) -> steps R (bind m k).
Proof.
  intros Hm Hk s. unfold bind. specialize (Hm s).
  destruct (m s) as [[a|e] s1]; cbn [snd] in *; auto.
  eapply R_trans; [exact Hm|apply Hk].
Qed.

Lemma steps_try_except {A} (body : M S A) clauses :
  steps R body ->
  (forall c e, In c clauses -> steps R (snd c e)) ->
  steps R (try_except body clauses).
Proof.
  intros Hb Hc s. unfold try_except. specialize (Hb s).
  destruct (body s) as [[a|e] s1]; cbn [snd] in *; auto.
  destruct (find (fun c => fst c e) clauses) as [c|] eqn:F; cbn [snd]; auto.
  apply find_some in F. destruct F as [F _].
  eapply R_trans; [exact Hb|apply (Hc c e F)].
Qed.

Lemma steps_try_finally {A} (body : M S A) final :
  steps R body -> steps R final -> steps R (try_finally body final).
Proof.
  intros Hb Hf s. unfold try_finally. specialize (Hb s).
  destruct (body s) as [r s1]; cbn [snd] in *.
  specialize (Hf s1).
  destruct (final s1) as [[u|e] s2]; cbn [snd] in *;
    eapply R_trans; eauto.
Qed.

Lemma steps_for_each {A} (xs : list A) (body : A -> M S unit) :
  (forall x, steps R (body x)) -> steps R (for_each xs body).
Proof.
  intros Hb. induction xs as [|x xs IH]; cbn [for_each].
  - apply steps_ret.
  - apply steps_bind; auto.
Qed.

Lemma steps_if {A} (b : bool) (m1 m2 : M S A) :
  steps R m1 -> steps R m2 -> steps R (if b then m1 else m2).
Proof. now destruct b. Qed.
End Steps.

(** ** The exceptions that a computation can raise *)

Section RaisesOnly.
Context {S : Type} (P : exn -> Prop).

Lemma raises_only_ret {A} (a : A) : raises_only (S:=S) P (ret a).
Proof. intros s e s' H. discriminate. Qed.

Lemma raises_only_gets {A} (f : S -> A) : raises_only (S:=S) P (gets f).
Proof. intros s e s' H. discriminate. Qed.

Lemma raises_only_modify (f : S -> S) : raises_only (S:=S) P (modify f).
Proof. intros s e s' H. discriminate. Qed.

Lemma raises_only_raise {A} e : P e -> raises_only (S:=S) P (@raise S A e).
Proof. intros He s e' s' H. inversion H; subst. exact He. Qed.

Lemma raises_only_bind {A B} (m : M S A) (k : A -> M S B) :
  raises_only (S:=S) P m -> (forall a, raises_only (S:=S) P (k a)) -> raises_only (S:=S) P (bind m k).
Proof.
  intros Hm Hk s e s' H.
  destruct (bind_inv_raise _ _ _ _ _ H) as [H1|(a & s1 & _ & H1)].
  - exact (Hm _ _ _ H1).
  - exact (Hk _ _ _ _ H1).
Qed.

Lemma raises_only_if {A} (b : bool) (m1 m2 : M S A) :
  raises_only (S:=S) P m1 -> raises_only (S:=S) P m2 -> raises_only (S:=S) P (if b then m1 else m2).
Proof. now destruct b. Qed.

(** A [try] statement raises what its handlers raise, when given an
    exception of the body, and what no clause catches. *)
Lemma raises_only_try_except {A} (body : M S A) clauses :
  raises_only (S:=S) P body ->
  (forall c e, In c clauses -> P e -> raises_only (S:=S) P (snd c e)) ->
  raises_only (S:=S) P (try_except body clauses).
Proof.
  intros Hb Hc s e s' H. unfold try_except in H.
  destruct (body s) as [[a|e0] s1] eqn:E; [discriminate|].
  pose proof (Hb _ _ _ E) as He0.
  destruct (find (fun c => fst c e0) clauses) as [c|] eqn:F.
  - apply find_some in F. destruct F as [F _].
    exact (Hc c e0 F He0 _ _ _ H).
  - inversion H; subst. exact He0.
Qed.
End RaisesOnly.

(** ** The file system *)

Lemma assoc_put_same c n es : assoc c (put c n es) = Some n.
Proof.
  induction es as [|[c' n'] es IH]; simpl.
  - now rewrite String.eqb_refl.
  - destruct (String.eqb c c') eqn:E; simpl; rewrite E; auto.
Qed.

Lemma put_assoc_id c n es : assoc c es = Some n -> put c n es = es.
Proof.
  induction es as [|[c' n'] es IH]; simpl; [discriminate|].
  destruct (String.eqb c c') eqn:E; intros H.
  - now inversion H.
  - now rewrite IH.
Qed.

(** A path that resolves has a parent that [mkdir] finds in place: nothing
    is created. *)
Lemma removelast_cons2 {A} (a b : A) l :
  removelast (a :: b :: l) = a :: removelast (b :: l).
Proof. reflexivity. Qed.

Lemma mkdir_in_cons w es c p :
  mkdir_in w es (c :: p) =
  match assoc c es with
  | Some (Dir w' es') =>
      match mkdir_in w' es' p with
      | Ok es'' => Ok (put c (Dir w' es'') es)
      | Raise e => Raise e
      end
  | Some (File _) =>
      Raise (OSError match p with
                     | [] => FileExistsError
                     | _ => NotADirectoryError
                     end)
  | None =>
      if w then
        match mkdir_in true [] p with
        | Ok es'' => Ok (put c (Dir true es'') es)
        | Raise e => Raise e
        end
      else Raise (OSError PermissionError)
  end.
Proof. reflexivity. Qed.

Lemma resolve_in_cons w es c p :
  resolve_in w es (c :: p) =
  match assoc c es with
  | Some (Dir w' es') => resolve_in w' es' p
  | Some (File d) => match p with [] => Some (File d) | _ => None end
  | None => None
  end.
Proof. reflexivity. Qed.

Lemma mkdir_in_parent_of_existing p : forall w es n,
  resolve_in w es p = Some n ->
  mkdir_in w es (removelast p) = Ok es.
Proof.
  induction p as [|c p IH]; intros w es n H; [reflexivity|].
  destruct p as [|c2 p]; [reflexivity|].
  rewrite removelast_cons2, mkdir_in_cons.
  rewrite resolve_in_cons in H.
  destruct (assoc c es) as [[d|w' es']|] eqn:E; try discriminate.
  rewrite (IH w' es' n H).
  now rewrite (put_assoc_id _ _ _ E).
Qed.

(** [mkdir] leaves a directory at the path it was given. *)
Lemma mkdir_in_is_dir p : forall w es es',
  mkdir_in w es p = Ok es' ->
  exists w2 es2, resolve_in w es' p = Some (Dir w2 es2).
Proof.
  induction p as [|c p IH]; intros w es es' H; simpl in *.
  - inversion H; subst. eauto.
  - destruct (assoc c es) as [[d|w' e1]|] eqn:E.
    + discriminate.
    + destruct (mkdir_in w' e1 p) as [e2|] eqn:E2; [|discriminate].
      inversion H; subst. rewrite assoc_put_same. eauto.
    + destruct w; [|discriminate].
      destruct (mkdir_in true [] p) as [e2|] eqn:E2; [|discriminate].
      inversion H; subst. rewrite assoc_put_same. eauto.
Qed.

(** Creating the parent directories of a path does not bring the path
    itself into existence. *)
Lemma mkdir_in_parent_keeps_missing p : forall w es es',
  mkdir_in w es (removelast p) = Ok es' ->
  resolve_in w es p = None ->
  resolve_in w es' p = None.
Proof.
  induction p as [|c p IH]; intros w es es' H Hn; [discriminate|].
  destruct p as [|c2 p].
  - simpl in H. inversion H; subst. exact Hn.
  - rewrite removelast_cons2, mkdir_in_cons in H.
    rewrite resolve_in_cons in Hn. rewrite resolve_in_cons.
    destruct (assoc c es) as [[d|w' e1]|] eqn:E.
    + discriminate.
    + destruct (mkdir_in w' e1 (removelast (c2 :: p))) as [e2|] eqn:E2;
        [|discriminate].
      inversion H; subst. rewrite assoc_put_same.
      exact (IH _ _ _ E2 Hn).
    + destruct w; [|discriminate].
      destruct (mkdir_in true [] (removelast (c2 :: p))) as [e2|] eqn:E2;
        [|discriminate].
      inversion H; subst. rewrite assoc_put_same.
      exact (IH _ _ _ E2 eq_refl).
Qed.

(** The file-system calls raise subclasses of [OSError] only. *)
Lemma mkdir_in_raises p : forall w es e,
  mkdir_in w es p = Raise e -> exists k, e = OSError k.
Proof.
  induction p as [|c p IH]; intros w es e H; simpl in H; [discriminate|].
  destruct (assoc c es) as [[d|w' e1]|].
  - inversion H; eauto.
  - destruct (mkdir_in w' e1 p) eqn:E2; [discriminate|].
    inversion H; subst. eauto.
  - destruct w.
    + destruct (mkdir_in true [] p) eqn:E2; [discriminate|].
      inversion H; subst. eauto.
    + inversion H; eauto.
Qed.

Lemma write_in_raises p : forall w es data e,
  write_in w es p data = Raise e -> exists k, e = OSError k.
Proof.
  induction p as [|c p IH]; intros w es data e H; simpl in H.
  - inversion H; eauto.
  - destruct p as [|c2 p].
    + destruct (assoc c es) as [[d|w' e1]|]; try destruct w;
        inversion H; eauto.
    + destruct (assoc c es) as [[d|w' e1]|]; try (inversion H; eauto; fail).
      destruct (write_in w' e1 (c2 :: p) data) eqn:E2; [discriminate|].
      inversion H; subst. eauto.
Qed.

(** ** script-template.py: [validate_inputs] *)

Example validate_inputs_fresh_output :
  validate_inputs ["in.txt"] ["out"; "deep"; "r.json"] false (sample_state None)
  = (Ok true,
     ScriptTemplate.mkstate
       (mkfs true
          [ ("in.txt", File "hello");
            ("data", Dir true [("a", File "1"); ("b", File "22")]);
            ("old.json", File "{}");
            ("out", Dir true [("deep", Dir true [])]) ])
       [] ["opt"; "script-template.py"] None).
Proof. reflexivity. Qed.

Example validate_inputs_existing_output_forced :
  fst (validate_inputs ["in.txt"] ["old.json"] true (sample_state None)) = Ok true.
Proof. reflexivity. Qed.

Example validate_inputs_parent_is_a_file :
  validate_inputs ["in.txt"] ["old.json"; "r.json"] false (sample_state None)
  = (Raise (OSError FileExistsError), sample_state None).
Proof. reflexivity. Qed.

(** Splits the conjunctions and disjunctions among the hypotheses and
    closes the goals that an impossible equation settles. *)
Ltac break_hyps :=
  intros;
  repeat match goal with
         | H : _ /\ _ |- _ => destruct H
         | H : _ \/ _ |- _ => destruct H
         | H : exists _, _ |- _ => destruct H
         | H : Ok _ = Ok _ |- _ => inversion H; clear H; subst
         | H : Raise _ = Raise _ |- _ => inversion H; clear H; subst
         | H : (_, _) = (_, _) |- _ => inversion H; clear H; subst
         end;
  try discriminate; try congruence.

Lemma set_fs_same (s : State) : ScriptTemplate.set_fs (fs s) s = s.
Proof. now destruct s. Qed.

Lemma validate_inputs_missing_input input_path output_path force s :
  exists_ (fs s) input_path = false ->
  validate_inputs input_path output_path force s
  = (Raise (ValueError ("Input path does not exist: " ++ str input_path)), s).
Proof.
  intros H. unfold validate_inputs, bind, gets. now rewrite H.
Qed.

Lemma mkdir_parents_of_existing f p :
  exists_ f p = true -> mkdir_parents f (parent p) = Ok f.
Proof.
  unfold exists_, resolve, mkdir_parents, parent. destruct f as [w es]; cbn [root_writable root_entries].
  destruct (resolve_in w es p) eqn:E; [|discriminate]. intros _.
  now rewrite (mkdir_in_parent_of_existing _ _ _ _ E).
Qed.

Lemma mkdir_parents_keeps_missing f f' p :
  mkdir_parents f (parent p) = Ok f' ->
  exists_ f p = false -> exists_ f' p = false.
Proof.
  unfold exists_, resolve, mkdir_parents, parent. destruct f as [w es]; cbn [root_writable root_entries].
  destruct (mkdir_in w es (removelast p)) as [es'|] eqn:E; [|discriminate].
  intros H; inversion H; subst; cbn [root_writable root_entries].
  destruct (resolve_in w es p) eqn:E2; [discriminate|]. intros _.
  now rewrite (mkdir_in_parent_keeps_missing _ _ _ _ E E2).
Qed.

Lemma mkdir_parents_is_dir f f' p :
  mkdir_parents f p = Ok f' -> is_dir f' p = true.
Proof.
  unfold is_dir, resolve, mkdir_parents. destruct f as [w es]; cbn [root_writable root_entries].
  destruct (mkdir_in w es p) as [es'|] eqn:E; [|discriminate].
  intros H; inversion H; subst; cbn [root_writable root_entries].
  destruct (mkdir_in_is_dir _ _ _ _ E) as (w2 & es2 & Hd). now rewrite Hd.
Qed.

Lemma validate_inputs_existing_output input_path output_path force s :
  exists_ (fs s) input_path = true ->
  exists_ (fs s) output_path = true ->
  validate_inputs input_path output_path force s
  = (if force then Ok true
     else Raise (ValueError ("Output file exists and --force not specified: "
                               ++ str output_path)), s).
Proof.
  intros Hi Ho. unfold validate_inputs, bind, gets, fs_update.
  rewrite Hi. cbn [negb].
  rewrite (mkdir_parents_of_existing _ _ Ho), set_fs_same, Ho.
  now destruct force.
Qed.

Lemma validate_inputs_fresh_output_eq input_path output_path force s :
  exists_ (fs s) input_path = true ->
  exists_ (fs s) output_path = false ->
  validate_inputs input_path output_path force s
  = match mkdir_parents (fs s) (parent output_path) with
    | Ok f => (Ok true, ScriptTemplate.set_fs f s)
    | Raise e => (Raise e, s)
    end.
Proof.
  intros Hi Ho. unfold validate_inputs, bind, gets, fs_update.
  rewrite Hi. cbn [negb].
  destruct (mkdir_parents (fs s) (parent output_path)) as [f|e] eqn:E; [|reflexivity].
  destruct s as [f0 l mf k]; cbn [ScriptTemplate.set_fs ScriptTemplate.fs] in *.
  now rewrite (mkdir_parents_keeps_missing _ _ _ E Ho).
Qed.


(** ** script-template.py: [process_data] *)

Lemma write_in_cons2 w es c c2 p data :
  write_in w es (c :: c2 :: p) data =
  match assoc c es with
  | Some (Dir w' es') =>
      match write_in w' es' (c2 :: p) data with
      | Ok es'' => Ok (put c (Dir w' es'') es)
      | Raise e => Raise e
      end
  | Some (File _) => Raise (OSError NotADirectoryError)
  | None => Raise (OSError FileNotFoundError)
  end.
Proof. reflexivity. Qed.

(** Writing to a missing path inside an existing writable directory
    succeeds, and the path then holds a file with the data written. *)
Lemma write_in_fresh p : forall w es es0 data,
  resolve_in w es (removelast p) = Some (Dir true es0) ->
  resolve_in w es p = None ->
  exists es', write_in w es p data = Ok es'
              /\ resolve_in w es' p = Some (File data).
Proof.
  induction p as [|c p IH]; intros w es es0 data Hp Hn; [discriminate|].
  destruct p as [|c2 p].
  - cbn [removelast resolve_in] in Hp. inversion Hp; subst.
    rewrite resolve_in_cons in Hn. cbn [write_in].
    destruct (assoc c es0) as [[d|w' e1]|] eqn:E; try discriminate.
    eexists; split; [reflexivity|].
    rewrite resolve_in_cons, assoc_put_same. reflexivity.
  - rewrite removelast_cons2, resolve_in_cons in Hp.
    rewrite resolve_in_cons in Hn. rewrite write_in_cons2.
    destruct (assoc c es) as [[d|w' e1]|] eqn:E.
    + destruct (removelast (c2 :: p)); discriminate.
    + destruct (IH _ _ _ data Hp Hn) as (e2 & Hw & Hr).
      rewrite Hw. eexists; split; [reflexivity|].
      rewrite resolve_in_cons, assoc_put_same. exact Hr.
    + discriminate.
Qed.

Lemma write_text_fresh f p es0 data :
  resolve f (parent p) = Some (Dir true es0) ->
  exists_ f p = false ->
  exists f', write_text f p data = Ok f'
             /\ resolve f' p = Some (File data).
Proof.
  unfold exists_, resolve, write_text, parent.
  destruct f as [w es]; cbn [root_writable root_entries].
  intros Hp Hn.
  destruct (resolve_in w es p) eqn:E; [now simpl in Hn|].
  destruct (write_in_fresh p w es es0 data Hp E) as (es' & Hw & Hr).
  rewrite Hw. eexists; split; [reflexivity|exact Hr].
Qed.

(** What [process_data] does when the write succeeds, for a file and for
    a directory. *)
Lemma process_data_file input_path output_path logger s data f' :
  let details := JObj [("type", JStr "file");
                       ("size", JInt (Z.of_N (N.of_nat (String.length data))))] in
  let record := output_data (module_file s) input_path output_path details in
  resolve (fs s) input_path = Some (File data) ->
  write_text (fs s) output_path (dumps 0 record) = Ok f' ->
  exists s', process_data input_path output_path logger s = (Ok record, s')
             /\ fs s' = f'.
Proof.
  intros details record Hin Hw. destruct s as [f l mf k]; cbn [fs module_file] in *.
  eexists. split.
  - unfold process_data, try_except, bind, gets, info, log_at, modify,
      fs_query, fs_update, ret, is_dir, st_size, add_record, ScriptTemplate.set_fs.
    repeat (cbv beta iota delta [fs log module_file sigint fst snd];
            rewrite ?Hin).
    fold details. fold record. rewrite Hw. reflexivity.
  - reflexivity.
Qed.

Lemma process_data_directory input_path output_path logger s w entries f' :
  let details := JObj [("type", JStr "directory");
                       ("items", JInt (Z.of_N (N.of_nat (length entries))))] in
  let record := output_data (module_file s) input_path output_path details in
  resolve (fs s) input_path = Some (Dir w entries) ->
  write_text (fs s) output_path (dumps 0 record) = Ok f' ->
  exists s', process_data input_path output_path logger s = (Ok record, s')
             /\ fs s' = f'.
Proof.
  intros details record Hin Hw. destruct s as [f l mf k]; cbn [fs module_file] in *.
  eexists. split.
  - unfold process_data, try_except, bind, gets, info, log_at, modify,
      fs_query, fs_update, ret, is_dir, iterdir_len, add_record, ScriptTemplate.set_fs.
    repeat (cbv beta iota delta [fs log module_file sigint fst snd];
            rewrite ?Hin).
    fold details. fold record. rewrite Hw. reflexivity.
  - reflexivity.
Qed.

Example process_data_on_a_file :
  let run := process_data ["in.txt"] ["r.json"] sample_logger (sample_state None) in
  fst run = Ok (JObj [ ("processed_at", JStr "script-template.py");
                       ("input_path", JStr "in.txt");
                       ("output_path", JStr "r.json");
                       ("status", JStr "success");
                       ("details", JObj [("type", JStr "file"); ("size", JInt 5)]) ])
  /\ map record_msg (log (snd run))
     = [ StartingProcessing ["in.txt"]; ProcessingFile 5;
         OutputSavedTo ["r.json"]; ProcessingCompleted ].
Proof. split; reflexivity. Qed.

Example process_data_on_a_directory :
  let run := process_data ["data"] ["r.json"] sample_logger (sample_state None) in
  exists text,
    resolve (fs (snd run)) ["r.json"] = Some (File text)
    /\ text = dumps 0 (JObj [ ("processed_at", JStr "script-template.py");
                              ("input_path", JStr "data");
                              ("output_path", JStr "r.json");
                              ("status", JStr "success");
                              ("details", JObj [("type", JStr "directory");
                                                ("items", JInt 2)]) ]).
Proof. eexists. split; reflexivity. Qed.




(** ** script-template.py: [main] *)

(** The exceptions that the handlers of [main] turn into an exit code. *)
Abbreviation handled := (fun e => e = KeyboardInterrupt \/ is_Exception e = true).

Lemma mkdir_parents_raises f p e :
  mkdir_parents f p = Raise e -> exists k, e = OSError k.
Proof.
  unfold mkdir_parents.
  destruct (mkdir_in (root_writable f) (root_entries f) p) eqn:E; [discriminate|].
  intros H; inversion H; subst. exact (mkdir_in_raises _ _ _ _ E).
Qed.

Lemma write_text_raises f p data e :
  write_text f p data = Raise e -> exists k, e = OSError k.
Proof.
  unfold write_text.
  destruct (write_in (root_writable f) (root_entries f) p data) eqn:E;
    [discriminate|].
  intros H; inversion H; subst. exact (write_in_raises _ _ _ _ _ E).
Qed.

Lemma iterdir_len_raises f p e :
  iterdir_len f p = Raise e -> exists k, e = OSError k.
Proof.
  unfold iterdir_len. destruct (resolve f p) as [[d|w es]|]; intros H;
    inversion H; eauto.
Qed.

Lemma st_size_raises f p e :
  st_size f p = Raise e -> exists k, e = OSError k.
Proof.
  unfold st_size. destruct (resolve f p) as [[d|w es]|]; intros H;
    inversion H; eauto.
Qed.

Lemma raises_only_fs_update (P : exn -> Prop) op :
  (forall f e, op f = Raise e -> P e) -> raises_only P (fs_update op).
Proof.
  intros H s e s' E. unfold fs_update in E.
  destruct (op (fs s)) eqn:F; inversion E; subst. exact (H _ _ F).
Qed.

Lemma raises_only_fs_query (P : exn -> Prop) {A} (q : filesystem -> result A) :
  (forall f e, q f = Raise e -> P e) -> raises_only P (fs_query q).
Proof.
  intros H s e s' E. unfold fs_query in E. inversion E; subst. exact (H _ _ H1).
Qed.

Lemma raises_only_checkpoint : raises_only handled checkpoint.
Proof.
  intros s e s' E. unfold checkpoint in E.
  destruct (sigint s) as [[|k]|]; inversion E; subst. now left.
Qed.

Lemma OSError_handled e : (exists k, e = OSError k) -> handled e.
Proof. intros [k ->]. now right. Qed.

Lemma validate_inputs_raises input_path output_path force :
  raises_only handled (validate_inputs input_path output_path force).
Proof.
  unfold validate_inputs.
  apply raises_only_bind; [apply raises_only_gets|intros b].
  apply raises_only_if; [apply raises_only_raise; now right|].
  apply raises_only_bind; [|intros _].
  - apply raises_only_fs_update. intros f e H.
    exact (OSError_handled _ (mkdir_parents_raises _ _ _ H)).
  - apply raises_only_bind; [apply raises_only_gets|intros b2].
    apply raises_only_if; [apply raises_only_raise; now right|].
    apply raises_only_ret.
Qed.

Lemma raises_only_log P lvl logger m : raises_only P (log_at lvl logger m).
Proof. apply raises_only_modify. Qed.

Lemma process_data_raises input_path output_path logger :
  raises_only handled (process_data input_path output_path logger).
Proof.
  unfold process_data, info, error, debug.
  apply raises_only_try_except.
  - apply raises_only_bind; [apply raises_only_log|intros _].
    apply raises_only_bind; [apply raises_only_gets|intros b].
    apply raises_only_bind; [|intros result].
    + apply raises_only_if.
      * apply raises_only_bind; [|intros n].
        { apply raises_only_fs_query. intros f e H.
          exact (OSError_handled _ (iterdir_len_raises _ _ _ H)). }
        apply raises_only_bind; [apply raises_only_log|intros _].
        apply raises_only_bind; [|intros n2; apply raises_only_ret].
        apply raises_only_fs_query. intros f e H.
        exact (OSError_handled _ (iterdir_len_raises _ _ _ H)).
      * apply raises_only_bind; [|intros n].
        { apply raises_only_fs_query. intros f e H.
          exact (OSError_handled _ (st_size_raises _ _ _ H)). }
        apply raises_only_bind; [apply raises_only_log|intros _].
        apply raises_only_bind; [|intros n2; apply raises_only_ret].
        apply raises_only_fs_query. intros f e H.
        exact (OSError_handled _ (st_size_raises _ _ _ H)).
    + apply raises_only_bind; [apply raises_only_gets|intros file].
      apply raises_only_bind; [|intros _].
      * apply raises_only_fs_update. intros f e H.
        exact (OSError_handled _ (write_text_raises _ _ _ _ H)).
      * apply raises_only_bind; [apply raises_only_log|intros _].
        apply raises_only_bind; [apply raises_only_log|intros _].
        apply raises_only_ret.
  - intros c e [<-|[]] He. cbn [snd].
    apply raises_only_bind; [apply raises_only_log|intros _].
    apply raises_only_bind; [apply raises_only_log|intros _].
    apply raises_only_raise. exact He.
Qed.

Lemma main_body_raises args logger :
  raises_only handled (main_body args logger).
Proof.
  unfold main_body, info.
  repeat first
    [ apply raises_only_ret
    | apply raises_only_checkpoint
    | apply raises_only_log
    | apply validate_inputs_raises
    | apply process_data_raises
    | apply raises_only_bind; [|intros ?] ].
Qed.

(** The exit code that the handlers of [main] give to an outcome of the
    [try] block. *)
Lemma main_try_outcome args logger s0 :
  exists code s1,
    main_try args logger s0 = (Ok code, s1)
    /\ (forall v, fst (main_body args logger s0) = Ok v -> code = 0%Z)
    /\ (fst (main_body args logger s0) = Raise KeyboardInterrupt -> code = 130%Z)
    /\ (forall e, fst (main_body args logger s0) = Raise e ->
                  e <> KeyboardInterrupt -> code = 1%Z)
    /\ (code = 0 \/ code = 130 \/ code = 1)%Z.
Proof.
  unfold main_try, try_except.
  destruct (main_body args logger s0) as [[v|e] s1] eqn:E; cbn [fst].
  - assert (v = 0%Z) as ->.
    { unfold main_body in E.
      repeat (apply bind_inv_ok in E; destruct E as (? & ? & _ & E)).
      now inversion E. }
    exists 0%Z, s1. repeat split; break_hyps; auto.
  - destruct (main_body_raises args logger _ _ _ E) as [->|He].
    + cbn [find fst snd is_KeyboardInterrupt].
      eexists 130%Z, _. repeat split; break_hyps; auto.
    + assert (is_KeyboardInterrupt e = false) as Hk by (now destruct e).
      cbn [find fst snd]. rewrite Hk, He. cbn [snd].
      eexists 1%Z, _. repeat split; break_hyps; auto.
Qed.

(** [cleanup_resources] appends its two records and returns. *)
Lemma cleanup_resources_eq logger s :
  cleanup_resources logger s
  = (Ok tt,
     ScriptTemplate.mkstate (fs s)
       ((log s ++ [ScriptTemplate.mkrecord INFO PerformingCleanup])
          ++ [ScriptTemplate.mkrecord INFO CleanupCompleted])%list
       (module_file s) (sigint s)).
Proof. reflexivity. Qed.

(** [main] once the command line is parsed and the logger is set up. *)
Lemma main_after_setup args s logger s0 :
  setup_logging (log_level args) (log_file args) s = (Ok logger, s0) ->
  main (Ok args) s
  = try_finally (main_try args logger) (cleanup_resources logger) s0.
Proof.
  intros H. unfold main, lift, bind at 1. cbn [fst snd].
  unfold bind. now rewrite H.
Qed.

Example main_success :
  let run := main (Ok (sample_args ["in.txt"] ["out"; "r.json"] false))
                  (sample_state None) in
  fst run = Ok 0%Z
  /\ is_file (fs (snd run)) ["out"; "r.json"] = true
  /\ map record_msg (log (snd run))
     = [ ScriptStarted; InputIs ["in.txt"]; OutputIs ["out"; "r.json"];
         ForceIs false; InputValidationCompleted;
         StartingProcessing ["in.txt"]; ProcessingFile 5;
         OutputSavedTo ["out"; "r.json"]; ProcessingCompleted;
         ScriptCompleted; PerformingCleanup; CleanupCompleted ].
Proof. repeat split; reflexivity. Qed.

Example main_output_exists :
  let run := main (Ok (sample_args ["in.txt"] ["old.json"] false))
                  (sample_state None) in
  fst run = Ok 1%Z
  /\ fs (snd run) = sample_fs
  /\ map record_level (log (snd run))
     = [INFO; INFO; INFO; INFO; ERROR; ERROR; DEBUG; INFO; INFO].
Proof. repeat split; reflexivity. Qed.

Example main_missing_input_forced :
  fst (main (Ok (sample_args ["nothing"] ["r.json"] true)) (sample_state None))
  = Ok 1%Z.
Proof. reflexivity. Qed.

Example main_interrupted :
  let run := main (Ok (sample_args ["in.txt"] ["r.json"] false))
                  (sample_state (Some 6%nat)) in
  fst run = Ok 130%Z
  /\ map record_msg (log (snd run))
     = [ ScriptStarted; InputIs ["in.txt"]; OutputIs ["r.json"];
         ForceIs false; InputValidationCompleted;
         ScriptInterrupted; PerformingCleanup; CleanupCompleted ].
Proof. repeat split; reflexivity. Qed.

Example main_usage_error :
  main (Raise (SystemExit 2)) (sample_state None)
  = (Raise (SystemExit 2), sample_state None).
Proof. reflexivity. Qed.



(** ** script-template.py: cleanup *)

(** The relation "no execution of [cleanup_resources] was recorded in
    between". *)
Abbreviation no_cleanup :=
  (fun s s' : State =>
     cleanup_starts (log s') = cleanup_starts (log s)
     /\ cleanup_ends (log s') = cleanup_ends (log s)).

Lemma no_cleanup_refl s : no_cleanup s s.
Proof. now split. Qed.

Lemma no_cleanup_trans s1 s2 s3 :
  no_cleanup s1 s2 -> no_cleanup s2 s3 -> no_cleanup s1 s3.
Proof. intros [A B] [C D]. split; congruence. Qed.

Lemma no_cleanup_log lvl logger m :
  is_cleanup_start (ScriptTemplate.mkrecord lvl m) = false ->
  is_cleanup_end (ScriptTemplate.mkrecord lvl m) = false ->
  steps no_cleanup (log_at lvl logger m).
Proof.
  intros H1 H2 s. unfold log_at, modify, add_record; cbn [snd log].
  unfold cleanup_starts, cleanup_ends.
  rewrite !filter_app. cbn [filter]. rewrite H1, H2, !app_nil_r. now split.
Qed.

Lemma no_cleanup_checkpoint : steps no_cleanup checkpoint.
Proof.
  intros s. unfold checkpoint. destruct (sigint s) as [[|k]|]; now split.
Qed.

Lemma no_cleanup_fs_update op : steps no_cleanup (fs_update op).
Proof.
  intros s. unfold fs_update. destruct (op (fs s)); now split.
Qed.

Lemma no_cleanup_fs_query {A} (q : filesystem -> result A) :
  steps no_cleanup (fs_query q).
Proof. intros s. now split. Qed.

(** Solves [steps no_cleanup m] for straight-line code. *)
Ltac no_cleanup_tac :=
  repeat first
    [ apply (steps_ret no_cleanup no_cleanup_refl)
    | apply (steps_raise no_cleanup no_cleanup_refl)
    | apply (steps_gets no_cleanup no_cleanup_refl)
    | apply no_cleanup_checkpoint
    | apply no_cleanup_fs_update
    | apply no_cleanup_fs_query
    | apply no_cleanup_log; reflexivity
    | apply (steps_if no_cleanup)
    | apply (steps_bind no_cleanup no_cleanup_trans); [|intros ?] ].

Lemma validate_inputs_no_cleanup input_path output_path force :
  steps no_cleanup (validate_inputs input_path output_path force).
Proof. unfold validate_inputs. no_cleanup_tac. Qed.

Lemma process_data_no_cleanup input_path output_path logger :
  steps no_cleanup (process_data input_path output_path logger).
Proof.
  unfold process_data, info, error, debug.
  apply (steps_try_except no_cleanup no_cleanup_trans).
  - no_cleanup_tac.
  - intros c e [<-|[]]. cbn [snd]. no_cleanup_tac.
Qed.

Lemma main_try_no_cleanup args logger :
  steps no_cleanup (main_try args logger).
Proof.
  unfold main_try, main_body, info, warning, error, debug.
  apply (steps_try_except no_cleanup no_cleanup_trans).
  - repeat first
      [ apply validate_inputs_no_cleanup
      | apply process_data_no_cleanup
      | apply (steps_ret no_cleanup no_cleanup_refl)
      | apply no_cleanup_checkpoint
      | apply no_cleanup_log; reflexivity
      | apply (steps_bind no_cleanup no_cleanup_trans); [|intros ?] ].
  - intros c e [<-|[<-|[]]]; cbn [snd]; no_cleanup_tac.
Qed.

Lemma setup_logging_log log_level log_file s :
  log (snd (setup_logging log_level log_file s)) = log s.
Proof.
  unfold setup_logging. destruct log_file as [file|]; [|reflexivity].
  unfold bind, fs_update. destruct (open_append (fs s) file); reflexivity.
Qed.

Lemma cleanup_counts_after l :
  let l' := ((l ++ [ScriptTemplate.mkrecord INFO PerformingCleanup])
               ++ [ScriptTemplate.mkrecord INFO CleanupCompleted])%list in
  cleanup_starts l' = S (cleanup_starts l)
  /\ cleanup_ends l' = S (cleanup_ends l).
Proof.
  unfold cleanup_starts, cleanup_ends. rewrite !filter_app, !length_app.
  cbn. lia.
Qed.


(* ================================================================== *)
(** * Theorems on validation_functions.py                               *)
(* ================================================================== *)

Import Validation.

(** Runs the monadic operations of the validator on the current state. *)
Ltac exec :=
  cbv beta iota delta
    [bind ret raise gets modify lift try_except find fst snd
     Validation.info Validation.warning Validation.error Validation.log_at
     increment_errors Validation.add_record Validation.set_fs
     Validation.fs_update tally self validation_errors
     Validation.fs Validation.log].

Example validate_system_sample :
  let run := validate_system (sample_env "Linux") (3, 7)%Z
               (Some ["git"; "python3"]) (Some ["os"; "sys"])
               (Some ["Windows"; "Linux"; "Darwin"]) sample_validator in
  fst run = Ok true
  /\ tally (snd run) = 0%Z
  /\ Validation.fs (snd run) = sample_disk
  /\ length (Validation.log (snd run)) = 22%nat.
Proof. vm_compute. repeat split; reflexivity. Qed.

(** ** [validate_network] *)

Example validate_network_unreachable :
  validate_network (sample_env "Linux") "example.invalid" 443 5 sample_validator
  = (Ok false,
     Validation.mkstate (init "example-script" INFO) sample_disk
       [Validation.mkrecord WARNING
          (NetworkTestFailed "example.invalid" 443 (OSError SocketError))]).
Proof. reflexivity. Qed.

(** C3.  Whatever [socket.create_connection] does for the host, port and
    timeout, [validate_network] leaves the tally as it was.  When the
    connection is opened it logs at INFO and returns [True]; when it fails
    with a socket error or a timeout it logs one WARNING record, and
    nothing else, and returns [False]. *)
Theorem validate_network_keeps_tally :
  forall (env : Env) (host : string) (port timeout : Z) (s : Validation.State),
    let r := fst (validate_network env host port timeout s) in
    let s' := snd (validate_network env host port timeout s) in
    tally s' = tally s
    /\ self s' = self s
    /\ (create_connection env host port timeout = None ->
          r = Ok true
          /\ Validation.log s'
             = (Validation.log s
                  ++ [Validation.mkrecord INFO (NetworkValidated host port)])%list)
    /\ (forall e, create_connection env host port timeout = Some e ->
                  is_OSError e = true ->
          r = Ok false
          /\ Validation.log s'
             = (Validation.log s
                  ++ [Validation.mkrecord WARNING (NetworkTestFailed host port e)])%list)
    /\ (forall e, create_connection env host port timeout = Some e ->
                  is_OSError e = false ->
          r = Raise e /\ s' = s).
Proof.
  intros env host port timeout s. unfold validate_network.
  destruct (create_connection env host port timeout) as [e|] eqn:E.
  - destruct (is_OSError e) eqn:Ee; exec; rewrite Ee; exec;
      repeat split; break_hyps; auto.
  - exec. repeat split; break_hyps; auto.
Qed.

(** ** [validate_command] *)

Lemma first_resolvable_none env l :
  first_resolvable env l = None <->
  (forall alt_cmd, In alt_cmd l -> resolvable env alt_cmd = false).
Proof.
  induction l as [|a l IH]; cbn [first_resolvable].
  - split; [intros _ ? []|reflexivity].
  - destruct (resolvable env a) eqn:Ea.
    + split; [discriminate|]. intros H.
      rewrite (H a (or_introl eq_refl)) in Ea. discriminate.
    + rewrite IH. split.
      * intros H x [<-|Hx]; auto.
      * intros H x Hx. apply H. now right.
Qed.

Lemma first_resolvable_some env l alt_cmd :
  first_resolvable env l = Some alt_cmd ->
  In alt_cmd l /\ resolvable env alt_cmd = true.
Proof.
  induction l as [|a l IH]; cbn [first_resolvable]; [discriminate|].
  destruct (resolvable env a) eqn:Ea.
  - intros H; inversion H; subst. split; [now left|exact Ea].
  - intros H. destruct (IH H). split; [now right|assumption].
Qed.

Example validate_command_alternative :
  validate_command (sample_env "Linux") "python" (Some ["py"; "python3"])
                   sample_validator
  = (Ok true,
     Validation.mkstate (init "example-script" INFO) sample_disk
       [Validation.mkrecord INFO (CommandAlternativePassed "python3" "python")]).
Proof. reflexivity. Qed.

Example validate_command_nonexistent :
  validate_command (sample_env "Linux") "no-such-tool" None sample_validator
  = (Ok false,
     Validation.mkstate
       (mkvalidator "example-script" "1.0.0" INFO 1) sample_disk
       [Validation.mkrecord ERROR (CommandNotFound "no-such-tool")]).
Proof. reflexivity. Qed.

(** C5.  [validate_command] returns a boolean.  It returns [True], with
    the tally unchanged, exactly when [shutil.which] finds the command or
    one of the alternatives; otherwise it returns [False], logs one ERROR
    record and adds exactly one to the tally.  In particular, a command that
    is not found, given without alternatives, adds exactly one. *)
Theorem validate_command_resolvable :
  forall (env : Env) (command : string) (alternatives : option (list string))
         (s : Validation.State),
    let r := fst (validate_command env command alternatives s) in
    let s' := snd (validate_command env command alternatives s) in
    let found :=
      resolvable env command = true
      \/ exists alt_cmd, In alt_cmd (or_default alternatives [])
                         /\ resolvable env alt_cmd = true in
    (r = Ok true \/ r = Ok false)
    /\ (r = Ok true <-> found)
    /\ (r = Ok true -> tally s' = tally s)
    /\ (r = Ok false ->
          tally s' = (tally s + 1)%Z
          /\ Validation.log s'
             = (Validation.log s
                  ++ [Validation.mkrecord ERROR (CommandNotFound command)])%list)
    /\ (resolvable env command = false ->
        alternatives = None \/ alternatives = Some [] ->
          r = Ok false /\ tally s' = (tally s + 1)%Z).
Proof.
  intros env command alternatives s. unfold validate_command.
  destruct (resolvable env command) eqn:Ec.
  - exec. repeat split; break_hyps; auto.
  - destruct (first_resolvable env (or_default alternatives [])) as [alt_cmd|] eqn:Ea.
    + destruct (first_resolvable_some _ _ _ Ea) as [Hin Hres].
      assert (alternatives <> None /\ alternatives <> Some []) as [Hn1 Hn2]
        by (split; intros ->; destruct Hin).
      exec. repeat split; break_hyps; eauto.
    + pose proof (proj1 (first_resolvable_none _ _) Ea) as Hnone.
      exec. repeat split; break_hyps; auto.
      * rewrite (Hnone _ H) in H0. discriminate.
Qed.

(** ** [validate_disk_space] *)

Example validate_disk_space_enough :
  fst (validate_disk_space (sample_env "Linux") ["home"] (1 # 10) sample_validator)
  = Ok true.
Proof. reflexivity. Qed.

Example validate_disk_space_short :
  let run := validate_disk_space (sample_env "Linux") ["home"] (51 # 1)
                                 sample_validator in
  fst run = Ok false /\ tally (snd run) = 1%Z.
Proof. split; reflexivity. Qed.

Example validate_disk_space_unsupported :
  validate_disk_space (sample_env "Linux") ["mnt"] (1 # 1) sample_validator
  = (Ok true,
     Validation.mkstate (init "example-script" INFO) sample_disk
       [Validation.mkrecord WARNING UnableToCheckDiskSpace]).
Proof. reflexivity. Qed.


(** ** [validate_imports] *)

(** The state after [logger.log(lvl, m)]. *)
Abbreviation logged lvl m s := (Validation.add_record (Validation.mkrecord lvl m) s).

(** The state after [self.validation_errors += 1]. *)
Abbreviation incremented s :=
  (Validation.mkstate
     (mkvalidator (script_name (self s)) (script_version (self s))
                  (logger_level (self s)) (validation_errors (self s) + 1))
     (Validation.fs s) (Validation.log s)).

Lemma tally_logged lvl m s : tally (logged lvl m s) = tally s.
Proof. reflexivity. Qed.

Lemma tally_incremented s : tally (incremented s) = (tally s + 1)%Z.
Proof. reflexivity. Qed.

(** One turn of the loop of [validate_imports]. *)
Lemma validate_imports_loop_cons env module rest missing s :
  validate_imports_loop env (module :: rest) missing s
  = match import_ env module with
    | None =>
        validate_imports_loop env rest missing
          (logged INFO (ModuleImportPassed module) s)
    | Some e =>
        if is_ImportError e then
          validate_imports_loop env rest (missing ++ [module])%list
            (incremented (logged ERROR (ModuleNotAvailable module) s))
        else (Raise e, s)
    end.
Proof.
  cbn [validate_imports_loop].
  destruct (import_ env module) as [e|] eqn:E.
  - destruct (is_ImportError e) eqn:Ee; exec; rewrite Ee; reflexivity.
  - reflexivity.
Qed.

Abbreviation not_importable env := (fun module => negb (importable env module)).

(** When the loop comes to its end, the list it returns has gained the
    modules that cannot be imported, and the tally one for each of them. *)
Lemma validate_imports_loop_ok env modules : forall missing s missing' s',
  validate_imports_loop env modules missing s = (Ok missing', s') ->
  missing' = (missing ++ filter (not_importable env) modules)%list
  /\ tally s' = (tally s + Z.of_nat (length (filter (not_importable env) modules)))%Z.
Proof.
  induction modules as [|module rest IH]; intros missing s missing' s' H.
  - inversion H; subst. cbn. rewrite app_nil_r. split; [reflexivity|lia].
  - rewrite validate_imports_loop_cons in H. cbn [filter].
    assert (negb (importable env module)
            = match import_ env module with Some _ => true | None => false end)
      as Hi by (unfold importable; now destruct (import_ env module)).
    rewrite Hi. clear Hi.
    destruct (import_ env module) as [e|] eqn:E.
    + destruct (is_ImportError e); [|discriminate].
      destruct (IH _ _ _ _ H) as [-> ->].
      rewrite <- app_assoc, tally_incremented, tally_logged.
      split; [reflexivity|]. cbn [length]. lia.
    + destruct (IH _ _ _ _ H) as [-> ->]. now rewrite tally_logged.
Qed.

(** The loop never lowers the tally, however it ends. *)
Lemma validate_imports_loop_mono env modules : forall missing s,
  (tally s <= tally (snd (validate_imports_loop env modules missing s)))%Z.
Proof.
  induction modules as [|module rest IH]; intros missing s.
  - cbn. lia.
  - rewrite validate_imports_loop_cons.
    destruct (import_ env module) as [e|].
    + destruct (is_ImportError e).
      * eapply Z.le_trans; [|apply IH].
        rewrite tally_incremented, tally_logged. lia.
      * cbn. lia.
    + eapply Z.le_trans; [|apply IH]. rewrite tally_logged. lia.
Qed.

(** The loop comes to its end when every import returns or raises
    [ImportError]. *)
Lemma validate_imports_loop_total env modules : forall missing s,
  (forall module, In module modules ->
     import_ env module = None
     \/ exists e, import_ env module = Some e /\ is_ImportError e = true) ->
  exists missing' s',
    validate_imports_loop env modules missing s = (Ok missing', s').
Proof.
  induction modules as [|module rest IH]; intros missing s H.
  - now exists missing, s.
  - rewrite validate_imports_loop_cons.
    destruct (H module (or_introl eq_refl)) as [->|(e & -> & ->)];
      apply IH; intros m Hm; apply H; now right.
Qed.

Lemma validate_imports_outcome env modules s missing' s1 :
  validate_imports_loop env modules [] s = (Ok missing', s1) ->
  exists s',
    validate_imports env modules s
    = (Ok (match missing' with [] => true | _ => false end), s')
    /\ tally s' = tally s1.
Proof.
  intros H. unfold validate_imports, bind. rewrite H.
  destruct missing'; eexists; split; reflexivity.
Qed.

Lemma filter_nil_iff {A} (f : A -> bool) l :
  filter f l = [] <-> (forall x, In x l -> f x = false).
Proof.
  induction l as [|a l IH]; cbn [filter].
  - split; [intros _ ? []|reflexivity].
  - destruct (f a) eqn:E.
    + split; [discriminate|]. intros H.
      rewrite (H a (or_introl eq_refl)) in E. discriminate.
    + rewrite IH. split.
      * intros H x [<-|Hx]; auto.
      * intros H x Hx. apply H. now right.
Qed.

Example validate_imports_two_missing :
  let run := validate_imports (sample_env "Linux") ["os"; "yaml"; "sys"; "numpy"]
                              sample_validator in
  fst run = Ok false
  /\ tally (snd run) = 2%Z
  /\ map Validation.record_msg (Validation.log (snd run))
     = [ ModuleImportPassed "os"; ModuleNotAvailable "yaml";
         ModuleImportPassed "sys"; ModuleNotAvailable "numpy";
         MissingModules ["yaml"; "numpy"] ].
Proof. repeat split; reflexivity. Qed.

(** C6, as amended.  For every list of module names whose imports each
    either return or raise [ImportError], [validate_imports] returns a
    boolean, which is [True] exactly when every name of the list is
    importable, and the tally grows by exactly the number of names (counted
    with repetition) that are not importable. *)
Theorem validate_imports_counts_missing :
  forall (env : Env) (modules : list string) (s : Validation.State),
    (forall module, In module modules ->
       import_ env module = None
       \/ exists e, import_ env module = Some e /\ is_ImportError e = true) ->
    exists (b : bool) (s' : Validation.State),
      validate_imports env modules s = (Ok b, s')
      /\ (b = true <-> forall module, In module modules ->
                                      importable env module = true)
      /\ tally s'
         = (tally s + Z.of_nat (length (filter (not_importable env) modules)))%Z.
Proof.
  intros env modules s H.
  destruct (validate_imports_loop_total env modules [] s H) as (missing' & s1 & Hloop).
  destruct (validate_imports_loop_ok _ _ _ _ _ _ Hloop) as [Hmissing Htally].
  destruct (validate_imports_outcome _ _ _ _ _ Hloop) as (s' & Hrun & Hs').
  cbn [app] in Hmissing.
  exists (match missing' with [] => true | _ => false end), s'.
  split; [exact Hrun|]. split; [|congruence].
  rewrite Hmissing.
  destruct (filter (not_importable env) modules) eqn:F.
  - split; [intros _|reflexivity].
    intros module Hin.
    pose proof (proj1 (filter_nil_iff _ _) F module Hin) as Hm.
    cbn beta in Hm. now destruct (importable env module).
  - split; [discriminate|]. intros Hall.
    assert (In s0 (filter (not_importable env) modules)) as Hin
        by (rewrite F; now left).
    apply filter_In in Hin. destruct Hin as [Hin Hm].
    rewrite (Hall _ Hin) in Hm. discriminate.
Qed.

Lemma validate_imports_counts_missing_witness :
  exists (b : bool) (s' : Validation.State),
    validate_imports (sample_env "Linux") ["os"; "yaml"] sample_validator
    = (Ok b, s')
    /\ tally s' = 1%Z.
Proof.
  destruct (validate_imports_counts_missing (sample_env "Linux") ["os"; "yaml"]
              sample_validator) as (b & s' & Hrun & _ & Htally).
  - intros module [<-|[<-|[]]].
    + now left.
    + right. eexists. split; reflexivity.
  - exists b, s'. split; [exact Hrun|exact Htally].
Defined.

(** The claim fails for the list that holds the empty name, which is not
    importable: [__import__] raises [ValueError] for it, which
    [validate_imports] does not catch, so that no boolean is returned and
    the tally has not grown by the one missing name. *)
Lemma validate_imports_empty_name :
  let run := validate_imports (sample_env "Linux") [EmptyString] sample_validator in
  importable (sample_env "Linux") EmptyString = false
  /\ length (filter (not_importable (sample_env "Linux")) [EmptyString]) = 1%nat
  /\ fst run = Raise (ValueError "Empty module name")
  /\ tally (snd run) = tally sample_validator.
Proof. repeat split; reflexivity. Qed.

(** ** The tally across a check *)

(** Case analysis on every test that the code under execution performs. *)
Ltac branches :=
  repeat match goal with
         | |- context [if ?b then _ else _] => destruct b eqn:?
         | |- context [match ?x with _ => _ end] => destruct x eqn:?
         end.

Lemma validate_python_version_honest env min_version :
  honest (validate_python_version env min_version).
Proof.
  intros s. unfold validate_python_version.
  destruct (tuple_ge _ min_version); exec; split; break_hyps; lia.
Qed.

Lemma validate_command_honest env command alternatives :
  honest (validate_command env command alternatives).
Proof.
  intros s. unfold validate_command.
  destruct (resolvable env command);
    [|destruct (first_resolvable env (or_default alternatives []))];
    exec; split; break_hyps; lia.
Qed.

Lemma validate_network_honest env host port timeout :
  honest (validate_network env host port timeout).
Proof.
  intros s. unfold validate_network.
  destruct (create_connection env host port timeout) as [e|];
    [destruct (is_OSError e) eqn:Ee|]; exec; rewrite ?Ee; exec;
    split; break_hyps; lia.
Qed.

Lemma validate_os_honest env supported_os :
  honest (validate_os env supported_os).
Proof.
  intros s. unfold validate_os.
  destruct (member (system env) _); exec; split; break_hyps; lia.
Qed.

Lemma validate_disk_space_honest env path min_gb :
  honest (validate_disk_space env path min_gb).
Proof.
  intros s. unfold validate_disk_space.
  destruct (statvfs env (str path)) as [[frsize bavail]|e].
  - destruct (Qle_bool min_gb (available_gb frsize bavail)) eqn:Eq;
      exec; rewrite Eq; exec; split; break_hyps; lia.
  - destruct (is_OSError e || is_AttributeError e) eqn:Ee;
      exec; rewrite Ee; exec; split; break_hyps; lia.
Qed.

Lemma validate_imports_honest env modules :
  honest (validate_imports env modules).
Proof.
  intros s. unfold validate_imports, bind.
  pose proof (validate_imports_loop_mono env modules [] s) as Hmono.
  destruct (validate_imports_loop env modules [] s) as [[missing'|e] s1] eqn:E;
    cbn [snd] in Hmono.
  - destruct (validate_imports_loop_ok _ _ _ _ _ _ E) as [Hm Ht].
    cbn [app] in Hm.
    destruct missing' as [|m l].
    + rewrite <- Hm in Ht. cbn in Ht. cbn [fst snd ret].
      split; [lia|intros _; lia].
    + exec. split; [exact Hmono|discriminate].
  - cbn [fst snd]. split; [exact Hmono|discriminate].
Qed.

(** The relation "the tally has not moved". *)
Abbreviation same_tally :=
  (fun s s' : Validation.State => tally s' = tally s).

Lemma same_tally_refl s : same_tally s s.
Proof. reflexivity. Qed.

Lemma same_tally_trans s1 s2 s3 :
  same_tally s1 s2 -> same_tally s2 s3 -> same_tally s1 s3.
Proof. cbn beta. congruence. Qed.

Lemma same_tally_log lvl m : steps same_tally (Validation.log_at lvl m).
Proof. intros s. reflexivity. Qed.

Lemma same_tally_fs_update op : steps same_tally (Validation.fs_update op).
Proof.
  intros s. unfold Validation.fs_update.
  destruct (op (Validation.fs s)); reflexivity.
Qed.

(** Solves [steps same_tally m] for code that only logs and probes. *)
Ltac same_tally_tac :=
  repeat first
    [ apply (steps_ret same_tally same_tally_refl)
    | apply same_tally_log
    | apply same_tally_fs_update
    | apply (steps_if same_tally)
    | apply (steps_bind same_tally same_tally_trans); [|intros ?] ].

(** Counting a failure: an ERROR record, one more in the tally, [False]. *)
Lemma count_failure_eq m s :
  (Validation.error m ;;; increment_errors ;;; ret false)%py s
  = (Ok false, incremented (logged ERROR m s)).
Proof. reflexivity. Qed.

(** A [try] statement whose body does not touch the tally and returns
    [True], and whose handler counts one failure and returns [False]. *)
Lemma guarded_probe_honest (body : M Validation.State bool) caught m :
  steps same_tally body ->
  honest (try_except body
            [ (caught,
               fun e => (Validation.error (m e) ;;; increment_errors ;;;
                         ret false)%py) ]).
Proof.
  intros Hbody s. specialize (Hbody s). unfold try_except.
  destruct (body s) as [[b|e] s1]; cbn [snd] in Hbody.
  - cbn [fst snd]. split; [lia|intros _; exact Hbody].
  - cbn [find fst snd]. destruct (caught e).
    + cbn [fst snd]. cbv beta. rewrite count_failure_eq. cbn [fst snd].
      rewrite tally_incremented, tally_logged, Hbody.
      split; [lia|discriminate].
    + cbn [fst snd]. split; [lia|discriminate].
Qed.

Lemma honest_count_failure m :
  honest (Validation.error m ;;; increment_errors ;;; ret false)%py.
Proof.
  intros s. rewrite count_failure_eq. cbn [fst snd].
  rewrite tally_incremented, tally_logged. split; [lia|discriminate].
Qed.

Lemma honest_gets {A} (f : Validation.State -> A) k :
  (forall a, honest (k a)) -> honest (bind (gets f) k).
Proof. intros H s. exact (H (f s) s). Qed.

Lemma honest_if (b : bool) m1 m2 :
  honest m1 -> honest m2 -> honest (if b then m1 else m2).
Proof. now destruct b. Qed.

Lemma honest_ret_true : honest (ret true).
Proof. intros s. cbn. split; [lia|reflexivity]. Qed.

(** A check that ends by reporting what an honest step has found. *)
Lemma honest_report w m :
  honest w ->
  honest (bind w (fun found : bool =>
                    if found then (Validation.info m ;;; ret true)%py
                    else ret false)).
Proof.
  intros Hw s. specialize (Hw s). unfold bind.
  destruct (w s) as [[[|]|e] s1]; cbn [fst snd] in *.
  - change (tally s <= tally s1 /\ (Ok true = Ok true -> tally s1 = tally s))%Z.
    exact Hw.
  - split; [apply Hw|discriminate].
  - split; [apply Hw|discriminate].
Qed.

Lemma validate_path_honest env path path_type check_writable :
  honest (validate_path env path path_type check_writable).
Proof.
  unfold validate_path.
  apply honest_gets; intros path_exists.
  apply honest_if; [apply honest_count_failure|].
  apply honest_gets; intros path_is_file.
  apply honest_gets; intros path_is_dir.
  apply honest_if; [apply honest_count_failure|].
  apply honest_if; [apply honest_count_failure|].
  apply honest_report.
  destruct check_writable; [|apply honest_ret_true].
  apply guarded_probe_honest with (m := PathNotWritable path).
  same_tally_tac.
Qed.

Example validate_path_read_only_directory :
  let run := validate_path (sample_env "Linux") ["srv"] "directory" true
                           sample_validator in
  fst run = Ok false
  /\ tally (snd run) = 1%Z
  /\ map Validation.record_msg (Validation.log (snd run))
     = [PathNotWritable ["srv"] (OSError PermissionError)].
Proof. repeat split; reflexivity. Qed.

Example validate_path_writable_directory :
  validate_path (sample_env "Linux") ["home"] "directory" true sample_validator
  = (Ok true,
     Validation.mkstate (init "example-script" INFO) sample_disk
       [ Validation.mkrecord INFO (WriteAccessValidated ["home"]);
         Validation.mkrecord INFO (PathPassed ["home"]) ]).
Proof. reflexivity. Qed.

Example validate_path_wrong_kind :
  let run := validate_path (sample_env "Linux") ["home"; "notes.txt"] "directory"
                           false sample_validator in
  fst run = Ok false /\ tally (snd run) = 1%Z.
Proof. split; reflexivity. Qed.

(** C10.  For each of the seven checks and every argument, environment
    and state, the tally after the call is at least the tally before it,
    whether the call returns or raises, and it is the tally before it
    whenever the call returns [True]. *)
Theorem check_tally_never_decreases :
  forall (env : Env) (c : Check) (s : Validation.State),
    let r := fst (run_check env c s) in
    let s' := snd (run_check env c s) in
    (tally s <= tally s')%Z
    /\ (r = Ok true -> tally s' = tally s).
Proof.
  intros env c s.
  destruct c; cbn [run_check].
  - apply validate_python_version_honest.
  - apply validate_command_honest.
  - apply validate_path_honest.
  - apply validate_network_honest.
  - apply validate_imports_honest.
  - apply validate_os_honest.
  - apply validate_disk_space_honest.
Qed.

(** ** [validate_system] *)

(** The relation "the tally has not gone down". *)
Abbreviation mono :=
  (fun s s' : Validation.State => (tally s <= tally s')%Z).

Lemma mono_refl s : mono s s.
Proof. cbn beta. lia. Qed.

Lemma mono_trans s1 s2 s3 : mono s1 s2 -> mono s2 s3 -> mono s1 s3.
Proof. cbn beta. lia. Qed.

Lemma honest_mono m : honest m -> steps mono m.
Proof. intros H s. apply H. Qed.

Lemma mono_log lvl m : steps mono (Validation.log_at lvl m).
Proof. intros s. rewrite (same_tally_log lvl m s). lia. Qed.

(** Solves [steps mono m] for a sequence of checks and log calls. *)
Ltac mono_tac :=
  repeat first
    [ apply (steps_ret mono mono_refl)
    | apply (steps_gets mono mono_refl)
    | apply mono_log
    | apply honest_mono;
      first [ apply validate_python_version_honest
            | apply validate_command_honest
            | apply validate_path_honest
            | apply validate_network_honest
            | apply validate_imports_honest
            | apply validate_os_honest
            | apply validate_disk_space_honest ]
    | apply (steps_for_each mono mono_refl mono_trans); intros ?
    | apply (steps_if mono)
    | apply (steps_bind mono mono_trans); [|intros ?] ].

Lemma validate_system_mono env min_python_version required_commands
      required_modules supported_os :
  steps mono (validate_system env min_python_version required_commands
                              required_modules supported_os).
Proof.
  unfold validate_system, Validation.info, Validation.warning, Validation.error.
  mono_tac.
Qed.

(** Sequences that start from a non-negative tally and agree on their
    heads agree when their continuations agree on non-negative tallies. *)
Lemma bind_congr_nonneg {A B} (m m' : M Validation.State A)
      (k k' : A -> M Validation.State B) s :
  (0 <= tally s)%Z ->
  steps mono m ->
  m s = m' s ->
  (forall a s', (0 <= tally s')%Z -> k a s' = k' a s') ->
  bind m k s = bind m' k' s.
Proof.
  intros Hs Hm Heq Hk. apply bind_congr; [exact Heq|].
  intros a s' H. apply Hk. specialize (Hm s). rewrite H in Hm.
  cbn [snd] in Hm. lia.
Qed.

(** Dropping the value of a call before going on. *)
Lemma bind_discard {S A B} (m : M S A) (k : M S B) s :
  bind (bind m (fun _ => ret tt)) (fun _ => k) s = bind m (fun _ => k) s.
Proof. unfold bind, ret. now destruct (m s) as [[a|e] s1]. Qed.

(** The guard of [validate_system] on the modules only skips a call that
    does nothing. *)
Lemma guarded_imports_eq {B} env required_modules (k k' : M Validation.State B) s :
  (0 <= tally s)%Z ->
  (forall s', (0 <= tally s')%Z -> k s' = k' s') ->
  bind (if truthy required_modules
        then (validate_imports env (or_default required_modules []) ;;; ret tt)%py
        else ret tt) (fun _ => k) s
  = bind (validate_imports env (or_default required_modules [])) (fun _ => k') s.
Proof.
  intros Hs Hk.
  destruct required_modules as [[|module rest]|]; cbn [truthy or_default].
  - cbn. now apply Hk.
  - rewrite bind_discard.
    apply bind_congr_nonneg; auto.
    apply honest_mono, validate_imports_honest.
  - cbn. now apply Hk.
Qed.

(** [validate_system] is the sequence of the checks in which the OS check
    takes part when [supported_os] is a non-empty list. *)
Lemma validate_system_eq_sequence env min_python_version required_commands
      required_modules supported_os s :
  (0 <= tally s)%Z ->
  validate_system env min_python_version required_commands required_modules
                  supported_os s
  = checks_in_sequence (truthy supported_os) env min_python_version
                       required_commands required_modules supported_os s.
Proof.
  intros Hs. unfold validate_system, checks_in_sequence. cbv zeta.
  unfold Validation.info, Validation.warning, Validation.error.
  apply bind_congr_nonneg; [exact Hs|mono_tac|reflexivity|clear s Hs; intros _ s Hs].
  apply bind_congr_nonneg; [exact Hs|mono_tac|reflexivity|clear s Hs; intros _ s Hs].
  apply bind_congr_nonneg; [exact Hs|mono_tac|reflexivity|clear s Hs; intros _ s Hs].
  apply bind_congr_nonneg; [exact Hs|mono_tac|reflexivity|clear s Hs; intros _ s Hs].
  apply bind_congr_nonneg; [exact Hs|mono_tac|reflexivity|clear s Hs; intros _ s Hs].
  apply bind_congr_nonneg; [exact Hs|mono_tac| |clear s Hs; intros _ s Hs].
  { now destruct required_commands as [[|cmd rest]|]. }
  apply guarded_imports_eq; [exact Hs|clear s Hs; intros s Hs].
  apply bind_congr_nonneg; [exact Hs|mono_tac|reflexivity|clear s Hs; intros _ s Hs].
  apply bind_congr_nonneg; [exact Hs|mono_tac|reflexivity|clear s Hs; intros connected s Hs].
  apply bind_congr_nonneg; [exact Hs|mono_tac|reflexivity|clear s Hs; intros _ s Hs].
  apply bind_congr_nonneg; [exact Hs|mono_tac|reflexivity|clear s Hs; intros _ s Hs].
  rewrite !(bind_ok (gets tally) _ s (tally s) s eq_refl).
  destruct (0 <? tally s)%Z eqn:E1; destruct (tally s =? 0)%Z eqn:E2;
    try reflexivity; lia.
Qed.

(** The answer of [validate_system] is the closing test on the tally. *)
Lemma validate_system_answer env min_python_version required_commands
      required_modules supported_os s b s' :
  validate_system env min_python_version required_commands required_modules
                  supported_os s = (Ok b, s') ->
  b = negb (0 <? tally s')%Z.
Proof.
  unfold validate_system. cbv zeta. intros H.
  repeat (apply bind_inv_ok in H; destruct H as (? & ? & ? & H)).
  match goal with
  | G : gets tally _ = (Ok _, _) |- _ => inversion G; subst; clear G
  end.
  match type of H with
  | context [(0 <? ?t)%Z] => destruct (0 <? t)%Z eqn:E
  end; inversion H; subst;
    rewrite tally_logged, E; reflexivity.
Qed.

(** The relation "the log has only been appended to". *)
Abbreviation grows :=
  (fun s s' : Validation.State =>
     exists rest, Validation.log s' = (Validation.log s ++ rest)%list).

Lemma grows_refl s : grows s s.
Proof. exists []. now rewrite app_nil_r. Qed.

Lemma grows_trans s1 s2 s3 : grows s1 s2 -> grows s2 s3 -> grows s1 s3.
Proof.
  intros [r1 H1] [r2 H2]. exists (r1 ++ r2)%list.
  now rewrite H2, H1, app_assoc.
Qed.

Lemma grows_log lvl m : steps grows (Validation.log_at lvl m).
Proof. intros s. now exists [Validation.mkrecord lvl m]. Qed.

Lemma grows_increment : steps grows increment_errors.
Proof. intros s. exists []. cbn. now rewrite app_nil_r. Qed.

Lemma grows_fs_update op : steps grows (Validation.fs_update op).
Proof.
  intros s. unfold Validation.fs_update.
  destruct (op (Validation.fs s)); exists []; cbn; now rewrite app_nil_r.
Qed.

(** Solves [steps grows m] for the code of the checks. *)
Ltac grows_tac :=
  repeat first
    [ apply (steps_ret grows grows_refl)
    | apply (steps_raise grows grows_refl)
    | apply (steps_gets grows grows_refl)
    | apply (steps_lift grows grows_refl)
    | apply grows_log
    | apply grows_increment
    | apply grows_fs_update
    | apply (steps_if grows)
    | apply (steps_for_each grows grows_refl grows_trans); intros ?
    | apply (steps_bind grows grows_trans); [|intros ?]
    | apply (steps_try_except grows grows_trans);
      [|intros ? ? [<-|[]]; cbn [snd]] ].

Lemma validate_python_version_grows env min_version :
  steps grows (validate_python_version env min_version).
Proof.
  unfold validate_python_version, Validation.info, Validation.error. grows_tac.
Qed.

Lemma validate_command_grows env command alternatives :
  steps grows (validate_command env command alternatives).
Proof.
  unfold validate_command, Validation.info, Validation.error.
  apply (steps_if grows); [grows_tac|].
  destruct (first_resolvable env (or_default alternatives [])); grows_tac.
Qed.

Lemma validate_path_grows env path path_type check_writable :
  steps grows (validate_path env path path_type check_writable).
Proof.
  unfold validate_path, Validation.info, Validation.error. grows_tac.
Qed.

Lemma validate_network_grows env host port timeout :
  steps grows (validate_network env host port timeout).
Proof.
  unfold validate_network, Validation.info, Validation.warning. grows_tac.
Qed.

Lemma validate_imports_loop_grows env modules : forall missing,
  steps grows (validate_imports_loop env modules missing).
Proof.
  induction modules as [|module rest IH]; intros missing;
    cbn [validate_imports_loop].
  - grows_tac.
  - unfold Validation.info, Validation.error.
    apply (steps_bind grows grows_trans); [grows_tac|intros ?; apply IH].
Qed.

Lemma validate_imports_grows env modules :
  steps grows (validate_imports env modules).
Proof.
  unfold validate_imports, Validation.error.
  apply (steps_bind grows grows_trans);
    [apply validate_imports_loop_grows|intros [|? ?]; grows_tac].
Qed.

Lemma validate_os_grows env supported_os :
  steps grows (validate_os env supported_os).
Proof.
  unfold validate_os, Validation.info, Validation.error. grows_tac.
Qed.

Lemma validate_disk_space_grows env path min_gb :
  steps grows (validate_disk_space env path min_gb).
Proof.
  unfold validate_disk_space, Validation.info, Validation.warning,
    Validation.error.
  grows_tac.
Qed.

(** The records of the system-information snapshot. *)
Abbreviation snapshot env :=
  (map (fun kv => Validation.mkrecord INFO
                    (SystemInformationEntry (fst kv) (snd kv)))
       (get_system_info env)).

Lemma bind_log {B} lvl m (k : unit -> M Validation.State B) s :
  bind (Validation.log_at lvl m) k s = k tt (logged lvl m s).
Proof. reflexivity. Qed.

Lemma log_entries_eq (entries : list (string * info_value)) : forall s,
  for_each entries
    (fun kv => Validation.info (SystemInformationEntry (fst kv) (snd kv))) s
  = (Ok tt,
     Validation.mkstate (self s) (Validation.fs s)
       (Validation.log s
          ++ map (fun kv => Validation.mkrecord INFO
                              (SystemInformationEntry (fst kv) (snd kv)))
                 entries)%list).
Proof.
  induction entries as [|kv entries IH]; intros s.
  - cbn. rewrite app_nil_r. now destruct s.
  - cbn [for_each map].
    unfold Validation.info at 1. rewrite bind_log.
    rewrite IH. cbn [self Validation.fs Validation.log Validation.add_record].
    now rewrite <- app_assoc.
Qed.

(** [validate_system] opens the log with its announcement and the
    system-information snapshot, before any check has logged. *)
Lemma validate_system_snapshot_first env min_python_version required_commands
      required_modules supported_os s :
  exists rest,
    Validation.log
      (snd (validate_system env min_python_version required_commands
                            required_modules supported_os s))
    = (Validation.log s
         ++ [ Validation.mkrecord INFO StartingSystemValidation;
              Validation.mkrecord INFO SystemInformation ]
         ++ snapshot env ++ rest)%list.
Proof.
  unfold validate_system. cbv zeta.
  unfold Validation.info at 1 2. rewrite !bind_log.
  rewrite (bind_ok _ _ _ _ _ (log_entries_eq _ _)).
  match goal with
  | |- context [snd (?rest_of_checks ?s1)] =>
      assert (steps grows rest_of_checks) as Hrest
  end.
  { unfold Validation.info, Validation.warning, Validation.error.
    repeat first
      [ apply validate_python_version_grows
      | apply validate_command_grows
      | apply validate_path_grows
      | apply validate_network_grows
      | apply validate_imports_grows
      | apply validate_os_grows
      | apply validate_disk_space_grows
      | apply (steps_ret grows grows_refl)
      | apply (steps_gets grows grows_refl)
      | apply grows_log
      | apply (steps_if grows)
      | apply (steps_for_each grows grows_refl grows_trans); intros ?
      | apply (steps_bind grows grows_trans); [|intros ?] ]. }
  match goal with
  | |- context [snd (?rest_of_checks ?s1)] =>
      destruct (Hrest s1) as [rest Hlog]
  end.
  exists rest. rewrite Hlog.
  cbn [Validation.log Validation.add_record].
  now rewrite <- !app_assoc.
Qed.

Example validate_system_counts_failures :
  let run := validate_system (sample_env "Linux") (3, 12)%Z
               (Some ["git"; "make"]) (Some ["os"; "yaml"]) (Some ["Darwin"])
               sample_validator in
  fst run = Ok false /\ tally (snd run) = 4%Z.
Proof. vm_compute. split; reflexivity. Qed.

(** C2, as amended.  From a tally that is not negative (the constructor
    sets it to 0 and the checks only raise it), [validate_system] logs its
    announcement and the system-information snapshot first, then runs in
    sequence the version check, the OS check when [supported_os] is a
    non-empty list (the OS check is skipped otherwise), the command checks,
    the module check, the path check, the network check and the disk-space
    check; when the sequence finishes, it returns [True] if and only if the
    tally is zero. *)
Theorem validate_system_sequence :
  forall (env : Env) (min_python_version : Z * Z)
         (required_commands required_modules supported_os : option (list string))
         (s : Validation.State),
    (0 <= tally s)%Z ->
    let run := validate_system env min_python_version required_commands
                               required_modules supported_os s in
    run = checks_in_sequence (truthy supported_os) env min_python_version
                             required_commands required_modules supported_os s
    /\ (truthy supported_os = true ->
        run = all_checks_in_sequence env min_python_version required_commands
                                     required_modules supported_os s)
    /\ (forall b, fst run = Ok b -> (b = true <-> tally (snd run) = 0%Z))
    /\ (exists rest,
          Validation.log (snd run)
          = (Validation.log s
               ++ [ Validation.mkrecord INFO StartingSystemValidation;
                    Validation.mkrecord INFO SystemInformation ]
               ++ snapshot env ++ rest)%list).
Proof.
  intros env min_python_version required_commands required_modules
         supported_os s Hs run.
  pose proof (validate_system_eq_sequence env min_python_version
                required_commands required_modules supported_os s Hs) as Heq.
  split; [exact Heq|]. split; [|split].
  - intros Hos. unfold all_checks_in_sequence. now rewrite <- Hos.
  - intros b Hb.
    pose proof (validate_system_mono env min_python_version required_commands
                  required_modules supported_os s) as Hmono.
    fold run in Hmono. cbn beta in Hmono.
    assert (run = (Ok b, snd run)) as Hrun
        by (rewrite <- Hb; now destruct run).
    pose proof (validate_system_answer _ _ _ _ _ _ _ _ Hrun) as ->.
    destruct (0 <? tally (snd run))%Z eqn:E; cbn [negb].
    + split; [discriminate|]. lia.
    + split; [|reflexivity]. lia.
  - apply validate_system_snapshot_first.
Qed.

Lemma validate_system_sequence_witness :
  let run := validate_system (sample_env "Linux") (3, 7)%Z (Some ["git"])
               (Some ["os"]) (Some ["Linux"]) sample_validator in
  run = all_checks_in_sequence (sample_env "Linux") (3, 7)%Z (Some ["git"])
          (Some ["os"]) (Some ["Linux"]) sample_validator
  /\ (fst run = Ok true -> tally (snd run) = 0%Z).
Proof.
  intros run.
  assert (0 <= tally sample_validator)%Z as H0 by (cbn; lia).
  destruct (validate_system_sequence (sample_env "Linux") (3, 7)%Z (Some ["git"])
              (Some ["os"]) (Some ["Linux"]) sample_validator H0)
    as (_ & Hall & Hiff & _).
  split.
  - exact (Hall eq_refl).
  - intros Hb. exact (proj1 (Hiff true Hb) eq_refl).
Defined.

(** The claim fails for the default arguments on a host whose OS is not
    among Windows, Linux and Darwin: the OS check fails there and counts one
    failure, so that the sequence of all the checks ends with a tally of 1 and
    answers [False], while [validate_system], which leaves the OS check out
    when no list is given, ends with a tally of 0 and answers [True]. *)
Lemma validate_system_skips_os_check :
  let env := sample_env "FreeBSD" in
  let run := validate_system env (3, 7)%Z None None None sample_validator in
  let all := all_checks_in_sequence env (3, 7)%Z None None None sample_validator in
  fst (validate_os env None sample_validator) = Ok false
  /\ fst all = Ok false /\ tally (snd all) = 1%Z
  /\ fst run = Ok true /\ tally (snd run) = 0%Z
  /\ run <> all.
Proof.
  vm_compute. repeat split; try reflexivity. discriminate.
Qed.

(* ================================================================== *)
(** * Further properties of script-template.py                          *)
(* ================================================================== *)

Import ScriptTemplate.

(** ** Pre- and postconditions *)

Section Hoare.
Context {S : Type}.

Lemma hoare_bind {A B} (P : S -> Prop) (m : M S A) (k : A -> M S B)
      (P' : A -> S -> Prop) (Q : result B -> S -> Prop) :
  hoare P m (fun r s' => match r with
                         | Ok a => P' a s'
                         | Raise e => Q (Raise e) s'
                         end) ->
  (forall a, hoare (P' a) (k a) Q) ->
  hoare P (bind m k) Q.
Proof.
  intros Hm Hk s Hs. specialize (Hm s Hs). unfold bind.
  destruct (m s) as [[a|e] s1]; cbn [fst snd] in *.
  - exact (Hk a s1 Hm).
  - exact Hm.
Qed.

Lemma hoare_ret {A} (P : S -> Prop) (a : A) (Q : result A -> S -> Prop) :
  (forall s, P s -> Q (Ok a) s) -> hoare P (ret a) Q.
Proof. intros H s Hs. exact (H s Hs). Qed.

Lemma hoare_weaken {A} (P P' : S -> Prop) (m : M S A)
      (Q Q' : result A -> S -> Prop) :
  hoare P' m Q' ->
  (forall s, P s -> P' s) ->
  (forall r s, Q' r s -> Q r s) ->
  hoare P m Q.
Proof. intros H HP HQ s Hs. apply HQ, H, HP, Hs. Qed.

Lemma hoare_false {A} (m : M S A) (Q : result A -> S -> Prop) :
  hoare (fun _ => False) m Q.
Proof. intros s []. Qed.
End Hoare.

(** ** More on the file system *)

Lemma assoc_put_other c c' n es :
  String.eqb c' c = false -> assoc c' (put c n es) = assoc c' es.
Proof.
  intros Hne. induction es as [|[k v] es IH]; cbn [put assoc].
  - now rewrite Hne.
  - destruct (String.eqb c k) eqn:E; cbn [assoc].
    + apply String.eqb_eq in E. subst k. now rewrite Hne.
    + now rewrite IH.
Qed.

Lemma put_put c n es : put c n (put c n es) = put c n es.
Proof. apply put_assoc_id, assoc_put_same. Qed.

(** [mkdir] keeps every file with its content. *)
Lemma mkdir_in_keeps_files p : forall w es es' q d,
  mkdir_in w es p = Ok es' ->
  resolve_in w es q = Some (File d) ->
  resolve_in w es' q = Some (File d).
Proof.
  induction p as [|c p IH]; intros w es es' q d H Hq.
  - inversion H; subst. exact Hq.
  - rewrite mkdir_in_cons in H.
    destruct q as [|c2 q]; [discriminate|].
    rewrite resolve_in_cons in Hq. rewrite resolve_in_cons.
    destruct (String.eqb c2 c) eqn:Ec.
    + apply String.eqb_eq in Ec. subst c2.
      destruct (assoc c es) as [[d0|w' e1]|] eqn:E; try discriminate.
      destruct (mkdir_in w' e1 p) as [e2|] eqn:E2; [|discriminate].
      inversion H; subst. rewrite assoc_put_same. exact (IH _ _ _ _ _ E2 Hq).
    + destruct (assoc c es) as [[d0|w' e1]|] eqn:E; try discriminate.
      * destruct (mkdir_in w' e1 p) as [e2|] eqn:E2; [|discriminate].
        inversion H; subst. now rewrite (assoc_put_other _ _ _ _ Ec).
      * destruct w; [|discriminate].
        destruct (mkdir_in true [] p) as [e2|] eqn:E2; [|discriminate].
        inversion H; subst. now rewrite (assoc_put_other _ _ _ _ Ec).
Qed.

(** [mkdir] keeps every path that exists in existence. *)
Lemma mkdir_in_keeps_existing p : forall w es es' q n,
  mkdir_in w es p = Ok es' ->
  resolve_in w es q = Some n ->
  exists n', resolve_in w es' q = Some n'.
Proof.
  induction p as [|c p IH]; intros w es es' q n H Hq.
  - inversion H; subst. eauto.
  - rewrite mkdir_in_cons in H.
    destruct q as [|c2 q]; [cbn; eauto|].
    rewrite resolve_in_cons in Hq. rewrite resolve_in_cons.
    destruct (String.eqb c2 c) eqn:Ec.
    + apply String.eqb_eq in Ec. subst c2.
      destruct (assoc c es) as [[d0|w' e1]|] eqn:E; try discriminate.
      destruct (mkdir_in w' e1 p) as [e2|] eqn:E2; [|discriminate].
      inversion H; subst. rewrite assoc_put_same. exact (IH _ _ _ _ _ E2 Hq).
    + destruct (assoc c es) as [[d0|w' e1]|] eqn:E; try discriminate.
      * destruct (mkdir_in w' e1 p) as [e2|] eqn:E2; [|discriminate].
        inversion H; subst. rewrite (assoc_put_other _ _ _ _ Ec). eauto.
      * destruct w; [|discriminate].
        destruct (mkdir_in true [] p) as [e2|] eqn:E2; [|discriminate].
        inversion H; subst. rewrite (assoc_put_other _ _ _ _ Ec). eauto.
Qed.

(** Making directories that have just been made changes nothing. *)
Lemma mkdir_in_again p : forall w es es',
  mkdir_in w es p = Ok es' -> mkdir_in w es' p = Ok es'.
Proof.
  induction p as [|c p IH]; intros w es es' H; [reflexivity|].
  rewrite mkdir_in_cons in H. rewrite mkdir_in_cons.
  destruct (assoc c es) as [[d0|w' e1]|] eqn:E; try discriminate.
  - destruct (mkdir_in w' e1 p) as [e2|] eqn:E2; [|discriminate].
    inversion H; subst. rewrite assoc_put_same, (IH _ _ _ E2).
    now rewrite put_put.
  - destruct w; [|discriminate].
    destruct (mkdir_in true [] p) as [e2|] eqn:E2; [|discriminate].
    inversion H; subst. rewrite assoc_put_same, (IH _ _ _ E2).
    now rewrite put_put.
Qed.

Lemma mkdir_parents_keeps_files f f' p q d :
  mkdir_parents f p = Ok f' ->
  resolve f q = Some (File d) -> resolve f' q = Some (File d).
Proof.
  unfold mkdir_parents, resolve. destruct f as [w es]; cbn [root_writable root_entries].
  destruct (mkdir_in w es p) as [es'|] eqn:E; [|discriminate].
  intros H; inversion H; subst; cbn [root_writable root_entries].
  exact (mkdir_in_keeps_files _ _ _ _ _ _ E).
Qed.

Lemma mkdir_parents_keeps_existing f f' p q :
  mkdir_parents f p = Ok f' -> exists_ f q = true -> exists_ f' q = true.
Proof.
  unfold mkdir_parents, exists_, resolve.
  destruct f as [w es]; cbn [root_writable root_entries].
  destruct (mkdir_in w es p) as [es'|] eqn:E; [|discriminate].
  intros H; inversion H; subst; cbn [root_writable root_entries].
  destruct (resolve_in w es q) as [n|] eqn:Eq; [|discriminate]. intros _.
  destruct (mkdir_in_keeps_existing _ _ _ _ _ _ E Eq) as [n' ->]. reflexivity.
Qed.

Lemma mkdir_parents_again f f' p :
  mkdir_parents f p = Ok f' -> mkdir_parents f' p = Ok f'.
Proof.
  unfold mkdir_parents. destruct f as [w es]; cbn [root_writable root_entries].
  destruct (mkdir_in w es p) as [es'|] eqn:E; [|discriminate].
  intros H; inversion H; subst; cbn [root_writable root_entries].
  now rewrite (mkdir_in_again _ _ _ _ E).
Qed.

(** The two ways in which [validate_inputs] ends, with the state it
    leaves. *)
Lemma validate_inputs_cases input_path output_path force s :
  let run := validate_inputs input_path output_path force s in
  (snd run = s)
  \/ (exists f, mkdir_parents (fs s) (parent output_path) = Ok f
                /\ exists_ (fs s) input_path = true
                /\ exists_ (fs s) output_path = false
                /\ run = (Ok true, ScriptTemplate.set_fs f s)).
Proof.
  intros run. subst run.
  destruct (exists_ (fs s) input_path) eqn:Ein.
  - destruct (exists_ (fs s) output_path) eqn:Eout.
    + left. now rewrite (validate_inputs_existing_output _ _ _ _ Ein Eout).
    + rewrite (validate_inputs_fresh_output_eq _ _ _ _ Ein Eout).
      destruct (mkdir_parents (fs s) (parent output_path)) as [f|e] eqn:E.
      * right. exists f. auto.
      * now left.
  - left. now rewrite (validate_inputs_missing_input _ _ _ _ Ein).
Qed.

(** X1.  [validate_inputs] never removes or rewrites a file: a path that
    holds a file before the call holds the same file after it, whether the
    call returns or raises. *)
Theorem validate_inputs_keeps_files :
  forall (input_path output_path : Path) (force : bool) (s : State)
         (q : Path) (data : string),
    resolve (fs s) q = Some (File data) ->
    resolve (fs (snd (validate_inputs input_path output_path force s))) q
    = Some (File data).
Proof.
  intros input_path output_path force s q data Hq.
  destruct (validate_inputs_cases input_path output_path force s)
    as [->|(f & Hmk & _ & _ & ->)]; [exact Hq|].
  cbn [snd]. destruct s; cbn [fs ScriptTemplate.set_fs] in *.
  exact (mkdir_parents_keeps_files _ _ _ _ _ Hmk Hq).
Qed.

Lemma validate_inputs_keeps_files_witness :
  resolve (fs (snd (validate_inputs ["in.txt"] ["out"; "deep"; "r.json"] false
                                    (sample_state None)))) ["data"; "b"]
  = Some (File "22").
Proof.
  apply (validate_inputs_keeps_files ["in.txt"] ["out"; "deep"; "r.json"] false
           (sample_state None) ["data"; "b"] "22").
  reflexivity.
Defined.

(** X2.  A validation that has passed passes again, and the second call
    changes nothing: the directories it would make are in place. *)
Theorem validate_inputs_idempotent :
  forall (input_path output_path : Path) (force : bool) (s s' : State) (b : bool),
    validate_inputs input_path output_path force s = (Ok b, s') ->
    validate_inputs input_path output_path force s' = (Ok true, s').
Proof.
  intros input_path output_path force s s' b H.
  destruct (exists_ (fs s) input_path) eqn:Ein.
  2:{ rewrite (validate_inputs_missing_input _ _ _ _ Ein) in H. discriminate. }
  destruct (exists_ (fs s) output_path) eqn:Eout.
  - rewrite (validate_inputs_existing_output _ _ _ _ Ein Eout) in H.
    destruct force; [|discriminate]. inversion H; subst.
    now rewrite (validate_inputs_existing_output _ _ _ _ Ein Eout).
  - rewrite (validate_inputs_fresh_output_eq _ _ _ _ Ein Eout) in H.
    destruct (mkdir_parents (fs s) (parent output_path)) as [f|e] eqn:E;
      [|discriminate].
    inversion H; subst. clear H.
    assert (exists_ f input_path = true) as Ein'
        by exact (mkdir_parents_keeps_existing _ _ _ _ E Ein).
    assert (exists_ f output_path = false) as Eout'
        by exact (mkdir_parents_keeps_missing _ _ _ E Eout).
    destruct s as [f0 l mf k].
    change (ScriptTemplate.set_fs f (ScriptTemplate.mkstate f0 l mf k))
      with (ScriptTemplate.mkstate f l mf k).
    rewrite (validate_inputs_fresh_output_eq input_path output_path force
               (ScriptTemplate.mkstate f l mf k) Ein' Eout').
    change (fs (ScriptTemplate.mkstate f l mf k)) with f.
    change (fs (ScriptTemplate.mkstate f0 l mf k)) with f0 in E.
    now rewrite (mkdir_parents_again _ _ _ E).
Qed.

Lemma validate_inputs_idempotent_witness :
  let s' := snd (validate_inputs ["in.txt"] ["out"; "r.json"] false
                                 (sample_state None)) in
  validate_inputs ["in.txt"] ["out"; "r.json"] false s' = (Ok true, s').
Proof.
  intros s'.
  apply (validate_inputs_idempotent ["in.txt"] ["out"; "r.json"] false
           (sample_state None) s' true).
  reflexivity.
Defined.

(** ** [process_data]: every outcome *)

(** Unfolds [process_data] on a state whose components are known. *)
Ltac run_process_data Hin :=
  unfold process_data, try_except, bind, gets, info, error, debug, log_at,
    modify, fs_query, fs_update, ret, raise, is_dir, st_size, iterdir_len,
    add_record, ScriptTemplate.set_fs;
  repeat (cbv beta iota delta [fs log module_file sigint fst snd find];
          rewrite ?Hin).

(** [process_data] either writes the record and returns it, having logged
    at INFO only, or raises an [OSError] that it has logged at ERROR and
    DEBUG, with the file system as it was. *)
Lemma process_data_outcome input_path output_path logger s :
  (exists record s',
      process_data input_path output_path logger s = (Ok record, s')
      /\ write_text (fs s) output_path (dumps 0 record) = Ok (fs s')
      /\ exists rest, log s' = (log s ++ rest)%list
                      /\ Forall (fun r => record_level r = INFO) rest)
  \/ (exists k s',
         process_data input_path output_path logger s = (Raise (OSError k), s')
         /\ fs s' = fs s
         /\ exists before,
              log s' = (log s ++ before
                          ++ [ ScriptTemplate.mkrecord ERROR
                                 (ErrorInProcessing (OSError k));
                               ScriptTemplate.mkrecord DEBUG
                                 (Traceback (OSError k)) ])%list).
Proof.
  destruct s as [f l mf sg].
  destruct (resolve f input_path) as [[data|w entries]|] eqn:Ein.
  - (* a file *)
    destruct (write_text f output_path
                (dumps 0 (output_data mf input_path output_path
                   (JObj [("type", JStr "file");
                          ("size", JInt (Z.of_N (N.of_nat (String.length data))))]))))
      as [f'|e] eqn:Hw.
    + left. eexists _, _. split; [|split].
      * run_process_data Ein. rewrite Hw. reflexivity.
      * exact Hw.
      * cbn [log]. rewrite <- !app_assoc. eexists. split; [reflexivity|].
        repeat constructor.
    + right. destruct (write_text_raises _ _ _ _ Hw) as [k ->].
      eexists k, _. split; [|split].
      * run_process_data Ein. rewrite Hw. reflexivity.
      * reflexivity.
      * exists [ScriptTemplate.mkrecord INFO (StartingProcessing input_path);
                ScriptTemplate.mkrecord INFO
                  (ProcessingFile (N.of_nat (String.length data)))].
        cbn [log]. rewrite <- !app_assoc. reflexivity.
  - (* a directory *)
    destruct (write_text f output_path
                (dumps 0 (output_data mf input_path output_path
                   (JObj [("type", JStr "directory");
                          ("items", JInt (Z.of_N (N.of_nat (length entries))))]))))
      as [f'|e] eqn:Hw.
    + left. eexists _, _. split; [|split].
      * run_process_data Ein. rewrite Hw. reflexivity.
      * exact Hw.
      * cbn [log]. rewrite <- !app_assoc. eexists. split; [reflexivity|].
        repeat constructor.
    + right. destruct (write_text_raises _ _ _ _ Hw) as [k ->].
      eexists k, _. split; [|split].
      * run_process_data Ein. rewrite Hw. reflexivity.
      * reflexivity.
      * exists [ScriptTemplate.mkrecord INFO (StartingProcessing input_path);
                ScriptTemplate.mkrecord INFO
                  (ProcessingDirectory (N.of_nat (length entries)))].
        cbn [log]. rewrite <- !app_assoc. reflexivity.
  - (* nothing at the input path *)
    right. eexists FileNotFoundError, _. split; [|split].
    + run_process_data Ein. reflexivity.
    + reflexivity.
    + exists [ScriptTemplate.mkrecord INFO (StartingProcessing input_path)].
      cbn [log]. rewrite <- !app_assoc. reflexivity.
Qed.

(** Writing a file leaves the files at every other path as they are. *)
Lemma write_in_keeps_others p : forall w es data es' q d,
  write_in w es p data = Ok es' ->
  q <> p ->
  resolve_in w es q = Some (File d) ->
  resolve_in w es' q = Some (File d).
Proof.
  induction p as [|c p IH]; intros w es data es' q d H Hne Hq; [discriminate|].
  destruct q as [|c2 q]; [discriminate|].
  rewrite resolve_in_cons in Hq. rewrite resolve_in_cons.
  destruct p as [|c3 p].
  - cbn [write_in] in H.
    destruct (String.eqb c2 c) eqn:Ec.
    + apply String.eqb_eq in Ec. subst c2.
      destruct q as [|c4 q]; [now contradiction Hne|].
      destruct (assoc c es) as [[d0|w' e1]|]; discriminate.
    + assert (es' = put c (File data) es) as ->.
      { destruct (assoc c es) as [[d0|w' e1]|]; try destruct w;
          inversion H; reflexivity. }
      now rewrite (assoc_put_other _ _ _ _ Ec).
  - rewrite write_in_cons2 in H.
    destruct (assoc c es) as [[d0|w' e1]|] eqn:E; try discriminate.
    destruct (write_in w' e1 (c3 :: p) data) as [e2|] eqn:E2; [|discriminate].
    inversion H; subst. clear H.
    destruct (String.eqb c2 c) eqn:Ec.
    + apply String.eqb_eq in Ec. subst c2.
      rewrite E in Hq. rewrite assoc_put_same.
      apply (IH _ _ _ _ _ _ E2); [|exact Hq].
      intros ->. now apply Hne.
    + now rewrite (assoc_put_other _ _ _ _ Ec).
Qed.

Lemma write_text_keeps_others f f' p data q d :
  write_text f p data = Ok f' ->
  q <> p ->
  resolve f q = Some (File d) -> resolve f' q = Some (File d).
Proof.
  unfold write_text, resolve. destruct f as [w es]; cbn [root_writable root_entries].
  destruct (write_in w es p data) as [es'|] eqn:E; [|discriminate].
  intros H; inversion H; subst; cbn [root_writable root_entries].
  exact (write_in_keeps_others _ _ _ _ _ _ _ E).
Qed.





(** ** [main]: every outcome of the [try] statement *)

(** The state [s] after more calls to the logger. *)
Abbreviation with_records s records :=
  (ScriptTemplate.mkstate (fs s) (app (log s) records) (module_file s)
                          (sigint s)).

Abbreviation cleanup_records :=
  [ ScriptTemplate.mkrecord INFO PerformingCleanup;
    ScriptTemplate.mkrecord INFO CleanupCompleted ].

(** What the handlers and the [finally] block of [main] make of each
    outcome of the [try] block. *)
Lemma main_protected_eq args logger s0 :
  try_finally (main_try args logger) (cleanup_resources logger) s0
  = match main_body args logger s0 with
    | (Ok v, s1) => (Ok v, with_records s1 cleanup_records)
    | (Raise e, s1) =>
        if is_KeyboardInterrupt e then
          (Ok 130%Z,
           with_records s1
             (ScriptTemplate.mkrecord WARNING ScriptInterrupted :: cleanup_records))
        else if is_Exception e then
          (Ok 1%Z,
           with_records s1
             ([ ScriptTemplate.mkrecord ERROR ScriptFailed;
                ScriptTemplate.mkrecord ERROR (ErrorIs e);
                ScriptTemplate.mkrecord DEBUG (Traceback e) ] ++ cleanup_records))
        else (Raise e, with_records s1 cleanup_records)
    end.
Proof.
  unfold try_finally, main_try, try_except.
  destruct (main_body args logger s0) as [[v|e] s1].
  - rewrite cleanup_resources_eq, <- app_assoc. reflexivity.
  - cbn [find fst snd].
    destruct (is_KeyboardInterrupt e).
    + cbn [snd]. unfold bind, warning, log_at, modify, ret, add_record.
      rewrite cleanup_resources_eq. cbn [fs log module_file sigint].
      now rewrite <- !app_assoc.
    + destruct (is_Exception e).
      * cbn [snd]. unfold bind, error, debug, log_at, modify, ret, add_record.
        rewrite cleanup_resources_eq. cbn [fs log module_file sigint].
        now rewrite <- !app_assoc.
      * rewrite cleanup_resources_eq, <- app_assoc. reflexivity.
Qed.



(** ** [main]: rejections *)

Lemma checkpoint_cases s :
  (checkpoint s = (Ok tt, s) /\ sigint s = None)
  \/ (exists k, sigint s = Some (S k)
                /\ checkpoint s = (Ok tt, ScriptTemplate.set_sigint (Some k) s))
  \/ (sigint s = Some O
      /\ checkpoint s = (Raise KeyboardInterrupt, ScriptTemplate.set_sigint None s)).
Proof.
  unfold checkpoint. destruct (sigint s) as [[|k]|]; eauto.
Qed.

(** A run of the [try] block in which validation is bound to reject:
    the file system [f0] is not touched, and the block is left by the
    [ValueError] of the validation, or by a pending interrupt. *)
Lemma main_body_rejected args logger f0 (pending : bool) :
  (forall s1, fs s1 = f0 ->
     exists message,
       validate_inputs (input args) (output args) (force args) s1
       = (Raise (ValueError message), s1)) ->
  hoare (fun s => fs s = f0 /\ (pending = false -> sigint s = None))
        (main_body args logger)
        (fun r s' => fs s' = f0
                     /\ ((r = Raise KeyboardInterrupt /\ pending = true)
                         \/ exists message, r = Raise (ValueError message))).
Proof.
  intros Hreject. unfold main_body.
  (* the checkpoints and the log calls keep the precondition *)
  assert (Hcp : forall B (k : unit -> M State B) Q,
             (forall s, fs s = f0 -> pending = true -> Q (Raise KeyboardInterrupt) s) ->
             hoare (fun s => fs s = f0 /\ (pending = false -> sigint s = None))
                   (k tt) Q ->
             hoare (fun s => fs s = f0 /\ (pending = false -> sigint s = None))
                   (bind checkpoint k) Q).
  { intros B k Q HQ Hk s [Hfs Hsig]. unfold bind.
    destruct (checkpoint_cases s) as [[-> Hn]|[(j & Hj & ->)|[Hz ->]]];
      cbn [fst snd].
    - apply Hk. auto.
    - assert (pending = true) as Hp.
      { destruct pending; [reflexivity|]. rewrite Hsig in Hj; [discriminate|reflexivity]. }
      apply Hk. split; [now destruct s|]. intros Hf. congruence.
    - assert (pending = true) as Hp.
      { destruct pending; [reflexivity|]. rewrite Hsig in Hz; [discriminate|reflexivity]. }
      apply HQ; [now destruct s|exact Hp]. }
  assert (Hlog : forall B lvl m (k : unit -> M State B) Q,
             hoare (fun s => fs s = f0 /\ (pending = false -> sigint s = None))
                   (k tt) Q ->
             hoare (fun s => fs s = f0 /\ (pending = false -> sigint s = None))
                   (bind (log_at lvl logger m) k) Q).
  { intros B lvl m k Q Hk s [Hfs Hsig].
    change (bind (log_at lvl logger m) k s)
      with (k tt (add_record (ScriptTemplate.mkrecord lvl m) s)).
    apply Hk. split; [now destruct s|now destruct s]. }
  unfold info.
  repeat first
    [ apply Hcp; [intros s Hfs Hp; split; [exact Hfs|now left]|]
    | apply Hlog ].
  intros s [Hfs Hsig]. unfold bind.
  destruct (Hreject s Hfs) as [message ->]. cbn [fst snd].
  split; [exact Hfs|]. right. now exists message.
Qed.

(** X6.  When the input path is missing (whatever the force flag), or the
    output path exists and [--force] is not given, a run of [main] without
    log file returns exit code 1 (or 130, if the user interrupts before the
    validation) and leaves the file system exactly as it was: no directory
    made, nothing written. *)
Theorem main_rejection_changes_nothing :
  forall (args : Namespace) (s : State),
    log_file args = None ->
    exists_ (fs s) (input args) = false
    \/ (exists_ (fs s) (output args) = true /\ force args = false) ->
    exists (code : Z) (s' : State),
      main (Ok args) s = (Ok code, s')
      /\ fs s' = fs s
      /\ (code = 1 \/ code = 130)%Z
      /\ (sigint s = None -> code = 1%Z).
Proof.
  intros args s Hfile Hcase.
  assert (setup_logging (log_level args) (log_file args) s
          = (Ok (mklogger (log_level args) [StreamHandler]), s)) as Hsetup
      by (now rewrite Hfile).
  rewrite (main_after_setup _ _ _ _ Hsetup), main_protected_eq.
  set (logger := mklogger (log_level args) [StreamHandler]).
  assert (forall s1, fs s1 = fs s ->
            exists message,
              validate_inputs (input args) (output args) (force args) s1
              = (Raise (ValueError message), s1)) as Hreject.
  { intros s1 Hfs. rewrite <- Hfs in Hcase.
    destruct (exists_ (fs s1) (input args)) eqn:Ein.
    - destruct Hcase as [|[Eout Hforce]]; [discriminate|].
      rewrite (validate_inputs_existing_output _ _ _ _ Ein Eout), Hforce. eauto.
    - rewrite (validate_inputs_missing_input _ _ _ _ Ein). eauto. }
  pose proof (main_body_rejected args logger (fs s)
                (match sigint s with None => false | Some _ => true end)
                Hreject s) as Hbody.
  destruct (main_body args logger s) as [r s1].
  cbn [fst snd] in Hbody.
  destruct Hbody as [Hfs Hr].
  { split; [reflexivity|]. now destruct (sigint s). }
  destruct Hr as [[-> Hp]|[message ->]]; cbn [is_KeyboardInterrupt is_Exception].
  - eexists _, _. split; [reflexivity|]. cbn [fs]. split; [exact Hfs|].
    split; [now right|]. intros Hn. rewrite Hn in Hp. discriminate.
  - eexists _, _. split; [reflexivity|]. cbn [fs]. split; [exact Hfs|].
    split; [now left|reflexivity].
Qed.

Lemma main_rejection_changes_nothing_witness :
  exists (code : Z) (s' : State),
    main (Ok (sample_args ["in.txt"] ["old.json"] false)) (sample_state (Some 2%nat))
    = (Ok code, s')
    /\ fs s' = sample_fs.
Proof.
  destruct (main_rejection_changes_nothing
              (sample_args ["in.txt"] ["old.json"] false)
              (sample_state (Some 2%nat)) eq_refl
              (or_intror (conj eq_refl eq_refl)))
    as (code & s' & Hrun & Hfs & _).
  exists code, s'. split; [exact Hrun|exact Hfs].
Defined.

(** ** [main]: successful runs *)

(** The relation "no interrupt was consumed or scheduled". *)
Abbreviation same_sigint :=
  (fun s s' : State => sigint s' = sigint s).

Lemma same_sigint_refl s : same_sigint s s.
Proof. reflexivity. Qed.

Lemma same_sigint_trans s1 s2 s3 :
  same_sigint s1 s2 -> same_sigint s2 s3 -> same_sigint s1 s3.
Proof. cbn beta. congruence. Qed.

Lemma same_sigint_log lvl logger m : steps same_sigint (log_at lvl logger m).
Proof. intros s. reflexivity. Qed.

Lemma same_sigint_fs_update op : steps same_sigint (fs_update op).
Proof. intros s. unfold fs_update. now destruct (op (fs s)). Qed.

Lemma same_sigint_fs_query {A} (q : filesystem -> result A) :
  steps same_sigint (fs_query q).
Proof. intros s. reflexivity. Qed.

Ltac same_sigint_tac :=
  repeat first
    [ apply (steps_ret same_sigint same_sigint_refl)
    | apply (steps_raise same_sigint same_sigint_refl)
    | apply (steps_gets same_sigint same_sigint_refl)
    | apply same_sigint_fs_update
    | apply same_sigint_fs_query
    | apply same_sigint_log
    | apply (steps_if same_sigint)
    | apply (steps_bind same_sigint same_sigint_trans); [|intros ?] ].

Lemma validate_inputs_sigint input_path output_path force :
  steps same_sigint (validate_inputs input_path output_path force).
Proof. unfold validate_inputs. same_sigint_tac. Qed.

Lemma process_data_sigint input_path output_path logger :
  steps same_sigint (process_data input_path output_path logger).
Proof.
  unfold process_data, info, error, debug.
  apply (steps_try_except same_sigint same_sigint_trans).
  - same_sigint_tac.
  - intros c e [<-|[]]. cbn [snd]. same_sigint_tac.
Qed.

Lemma checkpoint_none s : sigint s = None -> checkpoint s = (Ok tt, s).
Proof. intros H. unfold checkpoint. now rewrite H. Qed.

Lemma bind_checkpoint_none {B} (k : unit -> M State B) s :
  sigint s = None -> bind checkpoint k s = k tt s.
Proof. intros H. unfold bind. now rewrite (checkpoint_none s H). Qed.

Lemma bind_log_at {B} lvl logger m (k : unit -> M State B) s :
  bind (log_at lvl logger m) k s
  = k tt (add_record (ScriptTemplate.mkrecord lvl m) s).
Proof. reflexivity. Qed.

(** The [try] block when no interrupt is pending: the four opening
    records, the validation, the processing, the closing record. *)
Lemma main_body_uninterrupted args logger s :
  sigint s = None ->
  main_body args logger s
  = match validate_inputs (input args) (output args) (force args)
            (with_records s
               [ ScriptTemplate.mkrecord INFO ScriptStarted;
                 ScriptTemplate.mkrecord INFO (InputIs (input args));
                 ScriptTemplate.mkrecord INFO (OutputIs (output args));
                 ScriptTemplate.mkrecord INFO (ForceIs (force args)) ]) with
    | (Raise e, s2) => (Raise e, s2)
    | (Ok _, s2) =>
        match process_data (input args) (output args) logger
                (add_record
                   (ScriptTemplate.mkrecord INFO InputValidationCompleted) s2) with
        | (Raise e, s4) => (Raise e, s4)
        | (Ok _, s4) =>
            (Ok 0%Z, add_record (ScriptTemplate.mkrecord INFO ScriptCompleted) s4)
        end
    end.
Proof.
  intros Hsig. destruct s as [f l mf sg]. cbn [sigint] in Hsig. subst sg.
  unfold main_body, info.
  repeat (rewrite bind_checkpoint_none by reflexivity; rewrite bind_log_at).
  rewrite bind_checkpoint_none by reflexivity.
  unfold add_record. cbn [fs log module_file sigint].
  rewrite <- !app_assoc. cbn [app].
  match goal with
  | |- bind ?v _ ?s1 = _ =>
      pose proof (validate_inputs_sigint (input args) (output args) (force args) s1)
        as Hv; unfold bind at 1; destruct (v s1) as [[b|e] s2]
  end; [|reflexivity].
  cbn [snd sigint] in Hv.
  rewrite bind_checkpoint_none by exact Hv. rewrite bind_log_at.
  unfold add_record.
  rewrite bind_checkpoint_none by (now destruct s2).
  match goal with
  | |- bind ?v _ ?s3 = _ =>
      pose proof (process_data_sigint (input args) (output args) logger s3)
        as Hp; unfold bind at 1; destruct (v s3) as [[r|e] s4]
  end; [|reflexivity].
  cbn [snd] in Hp.
  assert (sigint s4 = None) as Hs4 by (rewrite Hp; now destruct s2).
  rewrite bind_checkpoint_none by exact Hs4. rewrite bind_log_at.
  unfold add_record.
  rewrite bind_checkpoint_none by (now destruct s4).
  reflexivity.
Qed.

(** Whenever a write succeeds, the path holds the data written. *)
Lemma write_in_result p : forall w es data es',
  write_in w es p data = Ok es' -> resolve_in w es' p = Some (File data).
Proof.
  induction p as [|c p IH]; intros w es data es' H; [discriminate|].
  destruct p as [|c2 p].
  - cbn [write_in] in H.
    assert (es' = put c (File data) es) as ->.
    { destruct (assoc c es) as [[d0|w' e1]|]; try destruct w;
        inversion H; reflexivity. }
    now rewrite resolve_in_cons, assoc_put_same.
  - rewrite write_in_cons2 in H.
    destruct (assoc c es) as [[d0|w' e1]|]; try discriminate.
    destruct (write_in w' e1 (c2 :: p) data) as [e2|] eqn:E2; [|discriminate].
    inversion H; subst. rewrite resolve_in_cons, assoc_put_same.
    exact (IH _ _ _ _ E2).
Qed.

Lemma write_text_result f f' p data :
  write_text f p data = Ok f' -> resolve f' p = Some (File data).
Proof.
  unfold write_text, resolve. destruct f as [w es]; cbn [root_writable root_entries].
  destruct (write_in w es p data) as [es'|] eqn:E; [|discriminate].
  intros H; inversion H; subst; cbn [root_writable root_entries].
  exact (write_in_result _ _ _ _ _ E).
Qed.

(** Opening an existing file for writing succeeds. *)
Lemma write_in_existing p : forall w es old data,
  resolve_in w es p = Some (File old) ->
  exists es', write_in w es p data = Ok es'.
Proof.
  induction p as [|c p IH]; intros w es old data H; [discriminate|].
  rewrite resolve_in_cons in H.
  destruct p as [|c2 p].
  - cbn [write_in].
    destruct (assoc c es) as [[d0|w' e1]|]; try discriminate. eauto.
  - rewrite write_in_cons2.
    destruct (assoc c es) as [[d0|w' e1]|]; try discriminate.
    destruct (IH _ _ _ data H) as [e2 ->]. eauto.
Qed.

Lemma write_text_existing f p old data :
  resolve f p = Some (File old) ->
  exists f', write_text f p data = Ok f'.
Proof.
  unfold write_text, resolve. destruct f as [w es]; cbn [root_writable root_entries].
  intros H. destruct (write_in_existing _ _ _ _ data H) as [es' ->]. eauto.
Qed.

(** [process_data] succeeds wherever the input exists and the output can
    be written, and leaves the record in the output file. *)
Lemma process_data_succeeds input_path output_path logger s :
  exists_ (fs s) input_path = true ->
  (forall data, exists f', write_text (fs s) output_path data = Ok f') ->
  exists record s',
    process_data input_path output_path logger s = (Ok record, s')
    /\ resolve (fs s') output_path = Some (File (dumps 0 record))
    /\ keys record
       = ["processed_at"; "input_path"; "output_path"; "status"; "details"]
    /\ get record "status" = Some (JStr "success")
    /\ exists rest, log s' = (log s ++ rest)%list
                    /\ Forall (fun r => record_level r = INFO) rest.
Proof.
  intros Hin Hwrite. unfold exists_ in Hin.
  destruct (process_data_outcome input_path output_path logger s)
    as [(record & s1 & Hrun & Hw & Hlog)|(k & s1 & Hrun & _)].
  - destruct (resolve (fs s) input_path) as [[data|w entries]|] eqn:Ein;
      [| |discriminate].
    + destruct (Hwrite (dumps 0 (output_data (module_file s) input_path output_path
                 (JObj [("type", JStr "file");
                        ("size", JInt (Z.of_N (N.of_nat (String.length data))))]))))
        as [f' Hw'].
      destruct (process_data_file _ _ logger _ _ _ Ein Hw') as (s2 & Hrun2 & Hfs).
      rewrite Hrun in Hrun2. inversion Hrun2; subst.
      eexists _, s2. split; [exact Hrun|].
      split; [exact (write_text_result _ _ _ _ Hw)|]. auto.
    + destruct (Hwrite (dumps 0 (output_data (module_file s) input_path output_path
                 (JObj [("type", JStr "directory");
                        ("items", JInt (Z.of_N (N.of_nat (length entries))))]))))
        as [f' Hw'].
      destruct (process_data_directory _ _ logger _ _ _ _ Ein Hw')
        as (s2 & Hrun2 & Hfs).
      rewrite Hrun in Hrun2. inversion Hrun2; subst.
      eexists _, s2. split; [exact Hrun|].
      split; [exact (write_text_result _ _ _ _ Hw)|]. auto.
  - exfalso.
    destruct (resolve (fs s) input_path) as [[data|w entries]|] eqn:Ein;
      [| |discriminate].
    + destruct (Hwrite (dumps 0 (output_data (module_file s) input_path output_path
                 (JObj [("type", JStr "file");
                        ("size", JInt (Z.of_N (N.of_nat (String.length data))))]))))
        as [f' Hw'].
      destruct (process_data_file _ _ logger _ _ _ Ein Hw') as (s2 & Hrun2 & _).
      rewrite Hrun in Hrun2. discriminate.
    + destruct (Hwrite (dumps 0 (output_data (module_file s) input_path output_path
                 (JObj [("type", JStr "directory");
                        ("items", JInt (Z.of_N (N.of_nat (length entries))))]))))
        as [f' Hw'].
      destruct (process_data_directory _ _ logger _ _ _ _ Ein Hw')
        as (s2 & Hrun2 & _).
      rewrite Hrun in Hrun2. discriminate.
Qed.

Abbreviation opening_records args :=
  [ ScriptTemplate.mkrecord INFO ScriptStarted;
    ScriptTemplate.mkrecord INFO (InputIs (input args));
    ScriptTemplate.mkrecord INFO (OutputIs (output args));
    ScriptTemplate.mkrecord INFO (ForceIs (force args)) ].

(** A run in which the validation passes and the output can be written. *)
Lemma main_succeeds args s s2 b :
  log_file args = None ->
  sigint s = None ->
  validate_inputs (input args) (output args) (force args)
                  (with_records s (opening_records args)) = (Ok b, s2) ->
  exists_ (fs s2) (input args) = true ->
  (forall data, exists f', write_text (fs s2) (output args) data = Ok f') ->
  exists record s',
    main (Ok args) s = (Ok 0%Z, s')
    /\ resolve (fs s') (output args) = Some (File (dumps 0 record))
    /\ keys record
       = ["processed_at"; "input_path"; "output_path"; "status"; "details"]
    /\ get record "status" = Some (JStr "success").
Proof.
  intros Hfile Hsig Hv Hin Hwrite.
  assert (setup_logging (log_level args) (log_file args) s
          = (Ok (mklogger (log_level args) [StreamHandler]), s)) as Hsetup
      by (now rewrite Hfile).
  rewrite (main_after_setup _ _ _ _ Hsetup), main_protected_eq.
  rewrite (main_body_uninterrupted _ _ _ Hsig), Hv.
  destruct (process_data_succeeds (input args) (output args)
              (mklogger (log_level args) [StreamHandler])
              (add_record (ScriptTemplate.mkrecord INFO InputValidationCompleted) s2))
    as (record & s4 & Hrun & Hout & Hkeys & Hstatus & _).
  - now destruct s2.
  - destruct s2. exact Hwrite.
  - rewrite Hrun. exists record. eexists. split; [reflexivity|].
    cbn [fs]. auto.
Qed.





(** ** [main]: what a successful run logs *)

(** The log is [l0] followed by INFO records only. *)
Abbreviation info_since l0 :=
  (fun s : State =>
     exists rest, log s = app l0 rest
                  /\ Forall (fun r => record_level r = INFO) rest).

Lemma main_body_logs_info args logger l0 :
  hoare (info_since l0) (main_body args logger)
        (fun r s' => match r with
                     | Ok _ => info_since l0 s'
                     | Raise _ => True
                     end).
Proof.
  unfold main_body, info.
  assert (Hcp : forall B (k : unit -> M State B) Q,
             (forall e s, Q (Raise e) s) ->
             hoare (info_since l0) (k tt) Q ->
             hoare (info_since l0) (bind checkpoint k) Q).
  { intros B k Q HQ Hk s Hs. unfold bind.
    destruct (checkpoint_cases s) as [[-> Hn]|[(j & Hj & ->)|[Hz ->]]];
      cbn [fst snd].
    - now apply Hk.
    - apply Hk. now destruct s.
    - apply HQ. }
  assert (Hlog : forall B m (k : unit -> M State B) Q,
             hoare (info_since l0) (k tt) Q ->
             hoare (info_since l0) (bind (log_at INFO logger m) k) Q).
  { intros B m k Q Hk s (rest & Hrest & Hall). rewrite bind_log_at.
    apply Hk. exists (rest ++ [ScriptTemplate.mkrecord INFO m])%list.
    split.
    - unfold add_record. cbn [log]. now rewrite Hrest, app_assoc.
    - apply Forall_app. split; [exact Hall|now repeat constructor]. }
  do 4 (apply Hcp; [now intros|]; apply Hlog).
  apply Hcp; [now intros|].
  apply hoare_bind with (P' := fun _ => info_since l0).
  { intros s Hs.
    destruct (validate_inputs_cases (input args) (output args) (force args) s)
      as [Hsame|(f & _ & _ & _ & ->)].
    - rewrite Hsame.
      now destruct (fst (validate_inputs (input args) (output args) (force args) s)).
    - cbn [fst snd]. now destruct s. }
  intros _. apply Hcp; [now intros|]. apply Hlog. apply Hcp; [now intros|].
  apply hoare_bind with (P' := fun _ => info_since l0).
  { intros s (rest & Hrest & Hall).
    destruct (process_data_outcome (input args) (output args) logger s)
      as [(record & s1 & -> & _ & rest' & Hrest' & Hall')|(k & s1 & -> & _)];
      cbn [fst snd]; [|exact I].
    exists (rest ++ rest')%list. split.
    - now rewrite Hrest', Hrest, app_assoc.
    - apply Forall_app. now split. }
  intros _. apply Hcp; [now intros|]. apply Hlog. apply Hcp; [now intros|].
  apply hoare_ret. now intros.
Qed.

Lemma emitted_app logger l1 l2 :
  emitted logger (l1 ++ l2)%list = (emitted logger l1 ++ emitted logger l2)%list.
Proof. apply filter_app. Qed.

Lemma emitted_info_quiet logger rest :
  logger_level logger = WARNING \/ logger_level logger = ERROR ->
  Forall (fun r => record_level r = INFO) rest ->
  emitted logger rest = [].
Proof.
  intros Hlevel Hall. unfold emitted.
  induction Hall as [|r rest Hr Hrest IH]; [reflexivity|].
  cbn [filter]. rewrite Hr, IH.
  now destruct Hlevel as [-> | ->].
Qed.

(** X9.  A run that ends with exit code 0 has logged at INFO only, so
    that a logger set to WARNING or ERROR prints nothing for it. *)
Theorem main_success_is_quiet :
  forall (args : Namespace) (s s' : State) (logger : Logger),
    main (Ok args) s = (Ok 0%Z, s') ->
    logger_level logger = WARNING \/ logger_level logger = ERROR ->
    emitted logger (log s') = emitted logger (log s).
Proof.
  intros args s s' logger Hrun Hlevel.
  destruct (setup_logging (log_level args) (log_file args) s)
    as [[lg|e] s0] eqn:Hsetup.
  2:{ unfold main, lift, bind at 1 in Hrun. cbn [fst snd] in Hrun.
      unfold bind in Hrun. rewrite Hsetup in Hrun. discriminate. }
  pose proof (setup_logging_log (log_level args) (log_file args) s) as Hlog0.
  rewrite Hsetup in Hlog0. cbn [snd] in Hlog0.
  rewrite (main_after_setup _ _ _ _ Hsetup), main_protected_eq in Hrun.
  pose proof (main_body_logs_info args lg (log s) s0) as Hbody.
  destruct (main_body args lg s0) as [[v|e] s1] eqn:Hb.
  - cbn [fst snd] in Hbody.
    destruct Hbody as (rest & Hrest & Hall).
    { exists []. split; [now rewrite app_nil_r|constructor]. }
    inversion Hrun; subst. cbn [log].
    rewrite Hrest, !emitted_app.
    rewrite (emitted_info_quiet logger rest Hlevel Hall).
    rewrite (emitted_info_quiet logger cleanup_records Hlevel)
      by (repeat constructor).
    now rewrite !app_nil_r.
  - destruct (is_KeyboardInterrupt e); [discriminate|].
    destruct (is_Exception e); discriminate.
Qed.

Lemma main_success_is_quiet_witness :
  emitted (mklogger WARNING [StreamHandler])
          (log (snd (main (Ok (sample_args ["in.txt"] ["r.json"] false))
                          (sample_state None))))
  = [].
Proof.
  exact (main_success_is_quiet (sample_args ["in.txt"] ["r.json"] false)
           (sample_state None) _ (mklogger WARNING [StreamHandler])
           eq_refl (or_introl eq_refl)).
Defined.

(** ** [main]: an early interrupt *)

Lemma bind_checkpoint_pending {B} (k : unit -> M State B) s j :
  sigint s = Some (S j) ->
  bind checkpoint k s = k tt (ScriptTemplate.set_sigint (Some j) s).
Proof. intros H. unfold bind, checkpoint. now rewrite H. Qed.

Lemma bind_checkpoint_now {B} (k : unit -> M State B) s :
  sigint s = Some O ->
  bind checkpoint k s = (Raise KeyboardInterrupt, ScriptTemplate.set_sigint None s).
Proof. intros H. unfold bind, checkpoint. now rewrite H. Qed.

(** X10.  An interrupt that arrives before the validation starts (within
    the first four statements of the [try] block, or right after them)
    ends the run with exit code 130: the records logged so far are followed
    by the interrupt warning and the cleanup, and the file system has not
    been touched. *)
Theorem main_interrupted_before_validation :
  forall (args : Namespace) (s : State) (k : nat),
    log_file args = None ->
    sigint s = Some k ->
    (k <= 4)%nat ->
    main (Ok args) s
    = (Ok 130%Z,
       ScriptTemplate.mkstate (fs s)
         (log s ++ firstn k (opening_records args)
                ++ ScriptTemplate.mkrecord WARNING ScriptInterrupted
                :: cleanup_records)%list
         (module_file s) None).
Proof.
  intros args s k Hfile Hsig Hk.
  assert (setup_logging (log_level args) (log_file args) s
          = (Ok (mklogger (log_level args) [StreamHandler]), s)) as Hsetup
      by (now rewrite Hfile).
  rewrite (main_after_setup _ _ _ _ Hsetup), main_protected_eq.
  destruct s as [f l mf sg]. cbn [sigint] in Hsig. subst sg.
  assert (main_body args (mklogger (log_level args) [StreamHandler])
            (ScriptTemplate.mkstate f l mf (Some k))
          = (Raise KeyboardInterrupt,
             ScriptTemplate.mkstate f
               (l ++ firstn k (opening_records args))%list mf None)) as ->.
  { unfold main_body, info.
    do 5 (destruct k as [|k];
          [ repeat (rewrite bind_checkpoint_pending with (j := _) by reflexivity;
                    rewrite bind_log_at);
            rewrite bind_checkpoint_now by reflexivity;
            unfold add_record, ScriptTemplate.set_sigint;
            cbn [fs log module_file sigint firstn];
            rewrite <- ?app_assoc, ?app_nil_r; reflexivity
          | ]).
    lia. }
  cbn [is_KeyboardInterrupt fs log module_file sigint].
  now rewrite <- app_assoc.
Qed.

Lemma main_interrupted_before_validation_witness :
  fst (main (Ok (sample_args ["nothing"] ["old.json"] false))
            (sample_state (Some 3%nat)))
  = Ok 130%Z.
Proof.
  rewrite (main_interrupted_before_validation
             (sample_args ["nothing"] ["old.json"] false)
             (sample_state (Some 3%nat)) 3 eq_refl eq_refl).
  - reflexivity.
  - repeat constructor.
Defined.

(* ================================================================== *)
(** * Further properties of validation_functions.py                     *)
(* ================================================================== *)

Import Validation.

(** ** [validate_path] *)

Lemma unlink_in_raises p : forall w es e,
  unlink_in w es p = Raise e -> exists k, e = OSError k.
Proof.
  induction p as [|c p IH]; intros w es e H; cbn [unlink_in] in H.
  - inversion H; eauto.
  - destruct p as [|c2 p].
    + destruct (assoc c es) as [[d|w' e1]|]; try destruct w;
        inversion H; eauto.
    + destruct (assoc c es) as [[d|w' e1]|]; try (inversion H; eauto; fail).
      destruct (unlink_in w' e1 (c2 :: p)) eqn:E2; [discriminate|].
      inversion H; subst. eauto.
Qed.

Lemma touch_raises f p e : touch f p = Raise e -> is_OSError e = true.
Proof.
  unfold touch. destruct (resolve f p); [discriminate|].
  intros H. now destruct (write_text_raises _ _ _ _ H) as [k ->].
Qed.

Lemma unlink_raises f p e : unlink f p = Raise e -> is_OSError e = true.
Proof.
  unfold unlink.
  destruct (unlink_in (root_writable f) (root_entries f) p) eqn:E; [discriminate|].
  intros H; inversion H; subst.
  now destruct (unlink_in_raises _ _ _ _ E) as [k ->].
Qed.

(** A computation that returns a boolean, having added one to the tally
    exactly when the boolean is [False]. *)
Abbreviation counts m :=
  (forall s : Validation.State,
      exists (b : bool) (s' : Validation.State),
        m s = (Ok b, s')
        /\ tally s' = Z.add (tally s) (if b then 0%Z else 1%Z)).

Lemma counts_failure m :
  counts (Validation.error m ;;; increment_errors ;;; ret false)%py.
Proof.
  intros s. eexists false, _. rewrite count_failure_eq. split; [reflexivity|].
  now rewrite tally_incremented, tally_logged.
Qed.

Lemma counts_gets {A} (f : Validation.State -> A) k :
  (forall a, counts (k a)) -> counts (bind (gets f) k).
Proof. intros H s. exact (H (f s) s). Qed.

Lemma counts_if (b : bool) (m1 m2 : M Validation.State bool) :
  counts m1 -> counts m2 -> counts (if b then m1 else m2).
Proof. now destruct b. Qed.

Lemma counts_ret_true : counts (ret true).
Proof. intros s. exists true, s. split; [reflexivity|lia]. Qed.

Lemma counts_report (w : M Validation.State bool) m :
  counts w ->
  counts (bind w (fun found : bool =>
                    if found then (Validation.info m ;;; ret true)%py
                    else ret false)).
Proof.
  intros Hw s. destruct (Hw s) as (b & s1 & Hrun & Ht). unfold bind. rewrite Hrun.
  destruct b.
  - eexists true, _. split; [reflexivity|]. now rewrite tally_logged.
  - exists false, s1. split; [reflexivity|exact Ht].
Qed.

(** The write probe: a body that keeps the tally, returns [True] and can
    only raise what the handler catches. *)
Lemma counts_guarded_probe (body : M Validation.State unit) caught m m' :
  steps same_tally body ->
  raises_only (fun e => caught e = true) body ->
  counts (try_except (body ;;; Validation.info m' ;;; ret true)%py
            [ (caught,
               fun e => (Validation.error (m e) ;;; increment_errors ;;;
                         ret false)%py) ]).
Proof.
  intros Hsame Hraises s. specialize (Hsame s). unfold try_except, bind.
  destruct (body s) as [[[]|e] s1] eqn:E; cbn [snd] in Hsame.
  - eexists true, _. split; [reflexivity|].
    rewrite tally_logged, Hsame. lia.
  - cbn [find fst snd]. rewrite (Hraises _ _ _ E). cbn [snd].
    exists false, (incremented (logged ERROR (m e) s1)).
    split; [reflexivity|].
    now rewrite tally_incremented, tally_logged, Hsame.
Qed.

Lemma raises_only_fs_update_v (P : exn -> Prop) op :
  (forall f e, op f = Raise e -> P e) ->
  raises_only P (Validation.fs_update op).
Proof.
  intros H s e s' E. unfold Validation.fs_update in E.
  destruct (op (Validation.fs s)) eqn:F; inversion E; subst. exact (H _ _ F).
Qed.

Lemma probe_raises_caught p :
  raises_only (fun e => is_OSError e = true)
    (Validation.fs_update (fun f => touch f p) ;;;
     Validation.fs_update (fun f => unlink f p))%py.
Proof.
  apply raises_only_bind; [|intros _]; apply raises_only_fs_update_v.
  - intros f e. apply touch_raises.
  - intros f e. apply unlink_raises.
Qed.

Example validate_path_unknown_kind :
  let run := validate_path (sample_env "Linux") ["home"; "notes.txt"] "folder"
                           false sample_validator in
  fst run = Ok true /\ tally (snd run) = 0%Z.
Proof. split; reflexivity. Qed.

Lemma validate_path_counts env path path_type check_writable :
  counts (validate_path env path path_type check_writable).
Proof.
  unfold validate_path.
  apply counts_gets; intros path_exists.
  apply counts_if; [apply counts_failure|].
  apply counts_gets; intros path_is_file.
  apply counts_gets; intros path_is_dir.
  apply counts_if; [apply counts_failure|].
  apply counts_if; [apply counts_failure|].
  apply counts_report.
  destruct check_writable; [|apply counts_ret_true].
  apply counts_guarded_probe with (m := PathNotWritable path).
  - same_tally_tac.
  - destruct path_is_dir; apply probe_raises_caught.
Qed.



(** ** The write probe of [validate_path] *)

Lemma remove_put_fresh c n es : assoc c es = None -> remove c (put c n es) = es.
Proof.
  induction es as [|[k v] es IH]; cbn [assoc put remove].
  - now rewrite String.eqb_refl.
  - destruct (String.eqb c k) eqn:E; [discriminate|]. intros H.
    cbn [remove]. rewrite E. now rewrite IH.
Qed.

Lemma put_put_other c n n' es : put c n (put c n' es) = put c n es.
Proof.
  induction es as [|[k v] es IH]; cbn [put].
  - now rewrite String.eqb_refl.
  - destruct (String.eqb c k) eqn:E; cbn [put]; rewrite E; [reflexivity|].
    now rewrite IH.
Qed.

Lemma write_in_deeper w es c p data :
  p <> [] ->
  write_in w es (c :: p) data =
  match assoc c es with
  | Some (Dir w' es') =>
      match write_in w' es' p data with
      | Ok es'' => Ok (put c (Dir w' es'') es)
      | Raise e => Raise e
      end
  | Some (File _) => Raise (OSError NotADirectoryError)
  | None => Raise (OSError FileNotFoundError)
  end.
Proof. destruct p; [now intros []|reflexivity]. Qed.

Lemma unlink_in_deeper w es c p :
  p <> [] ->
  unlink_in w es (c :: p) =
  match assoc c es with
  | Some (Dir w' es') =>
      match unlink_in w' es' p with
      | Ok es'' => Ok (put c (Dir w' es'') es)
      | Raise e => Raise e
      end
  | Some (File _) => Raise (OSError NotADirectoryError)
  | None => Raise (OSError FileNotFoundError)
  end.
Proof. destruct p; [now intros []|reflexivity]. Qed.

Lemma snoc_not_nil {A} (p : list A) x : (p ++ [x])%list <> [].
Proof. now destruct p. Qed.

(** In a writable directory that has no entry called [probe], creating
    the probe file and removing it gives back the tree as it was. *)
Lemma probe_round_trip path : forall w es es0 probe,
  resolve_in w es path = Some (Dir true es0) ->
  assoc probe es0 = None ->
  resolve_in w es (path ++ [probe])%list = None
  /\ exists es1,
       write_in w es (path ++ [probe])%list EmptyString = Ok es1
       /\ unlink_in w es1 (path ++ [probe])%list = Ok es.
Proof.
  induction path as [|c path IH]; intros w es es0 probe Hdir Hfree.
  - cbn [resolve_in] in Hdir. inversion Hdir; subst.
    cbn [app resolve_in write_in]. rewrite Hfree. split; [reflexivity|].
    eexists. split; [reflexivity|].
    cbn [unlink_in]. rewrite assoc_put_same.
    now rewrite (remove_put_fresh _ _ _ Hfree).
  - rewrite resolve_in_cons in Hdir.
    change ((c :: path) ++ [probe])%list with (c :: (path ++ [probe]))%list.
    rewrite resolve_in_cons, (write_in_deeper _ _ _ _ _ (snoc_not_nil path probe)).
    destruct (assoc c es) as [[d|w' e1]|] eqn:E;
      [destruct path; discriminate| |discriminate].
    destruct (IH _ _ _ _ Hdir Hfree) as (Hnone & e2 & Hw & Hu).
    split; [exact Hnone|].
    rewrite Hw. eexists. split; [reflexivity|].
    rewrite (unlink_in_deeper _ _ _ _ (snoc_not_nil path probe)).
    rewrite assoc_put_same, Hu, put_put_other.
    now rewrite (put_assoc_id _ _ _ E).
Qed.

(** Where the directory already holds a file called [probe], removing
    the probe removes that file. *)
Lemma probe_removes_existing path : forall w es es0 probe d,
  resolve_in w es path = Some (Dir true es0) ->
  assoc probe es0 = Some (File d) ->
  resolve_in w es (path ++ [probe])%list = Some (File d)
  /\ exists es1,
       unlink_in w es (path ++ [probe])%list = Ok es1
       /\ resolve_in w es1 path = Some (Dir true (remove probe es0)).
Proof.
  induction path as [|c path IH]; intros w es es0 probe d Hdir Hthere.
  - cbn [resolve_in] in Hdir. inversion Hdir; subst.
    cbn [app resolve_in unlink_in]. rewrite Hthere. split; [reflexivity|].
    eexists. split; reflexivity.
  - rewrite resolve_in_cons in Hdir.
    change ((c :: path) ++ [probe])%list with (c :: (path ++ [probe]))%list.
    rewrite resolve_in_cons, (unlink_in_deeper _ _ _ _ (snoc_not_nil path probe)).
    destruct (assoc c es) as [[d0|w' e1]|] eqn:E;
      [destruct path; discriminate| |discriminate].
    destruct (IH _ _ _ _ _ Hdir Hthere) as (Hfile & e2 & Hu & Hres).
    split; [exact Hfile|].
    rewrite Hu. eexists. split; [reflexivity|].
    now rewrite resolve_in_cons, assoc_put_same.
Qed.

(** [validate_path] with the write probe, on a directory. *)
Lemma validate_path_probe_eq env path path_type s w es :
  resolve (Validation.fs s) path = Some (Dir w es) ->
  String.eqb path_type "file" = false ->
  validate_path env path path_type true s
  = let probe := (path ++ [probe_name env])%list in
    match touch (Validation.fs s) probe with
    | Raise e => (Ok false, incremented (logged ERROR (PathNotWritable path e) s))
    | Ok f1 =>
        match unlink f1 probe with
        | Raise e =>
            (Ok false,
             incremented (logged ERROR (PathNotWritable path e)
                            (Validation.set_fs f1 s)))
        | Ok f2 =>
            (Ok true,
             logged INFO (PathPassed path)
               (logged INFO (WriteAccessValidated path) (Validation.set_fs f2 s)))
        end
    end.
Proof.
  intros Hdir Hkind. cbv zeta. unfold validate_path.
  generalize (probe_name env). intros probe.
  unfold bind, gets, exists_, is_file, is_dir.
  repeat (cbv beta iota delta [negb andb]; rewrite ?Hdir, ?Hkind).
  destruct (String.eqb path_type "directory");
    repeat (cbv beta iota delta [negb andb]; rewrite ?Hdir);
    unfold try_except, bind, Validation.fs_update;
    destruct (touch (Validation.fs s) (path ++ [probe])%list) as [f1|e] eqn:Et;
    cbv beta iota delta [find fst snd].
  all: try (rewrite (touch_raises _ _ _ Et); reflexivity).
  all: change (Validation.fs (Validation.set_fs f1 s)) with f1;
    destruct (unlink f1 (path ++ [probe])%list) as [f2|e] eqn:Eu;
    cbv beta iota delta [find fst snd];
    [reflexivity|rewrite (unlink_raises _ _ _ Eu); reflexivity].
Qed.

Lemma validate_path_probe_ok env path path_type s entries :
  resolve (Validation.fs s) path = Some (Dir true entries) ->
  String.eqb path_type "file" = false ->
  assoc (probe_name env) entries = None ->
  validate_path env path path_type true s
  = (Ok true,
     Validation.mkstate (self s) (Validation.fs s)
       (Validation.log s
          ++ [ Validation.mkrecord INFO (WriteAccessValidated path);
               Validation.mkrecord INFO (PathPassed path) ])%list).
Proof.
  intros Hdir Hkind Hfree.
  rewrite (validate_path_probe_eq _ _ _ _ _ _ Hdir Hkind). cbv zeta.
  destruct s as [v [w es] lg]. unfold resolve in Hdir.
  cbn [Validation.fs root_writable root_entries] in *.
  destruct (probe_round_trip _ _ _ _ _ Hdir Hfree) as (Hnone & es1 & Hw & Hu).
  unfold touch, resolve, write_text, unlink.
  cbn [root_writable root_entries]. rewrite Hnone, Hw.
  cbn [root_writable root_entries]. rewrite Hu.
  unfold Validation.add_record, Validation.set_fs.
  cbn [self Validation.fs Validation.log]. now rewrite <- app_assoc.
Qed.

(** X13.  On an existing writable directory that has no entry named like
    the probe file, [validate_path] with the write probe passes and leaves
    the file system exactly as it was: the probe file is created and
    removed again. *)
Theorem validate_path_probe_leaves_no_trace :
  forall (env : Env) (path : Path) (path_type : string)
         (s : Validation.State) (entries : list (string * node)),
    resolve (Validation.fs s) path = Some (Dir true entries) ->
    String.eqb path_type "file" = false ->
    assoc (probe_name env) entries = None ->
    validate_path env path path_type true s
    = (Ok true,
       Validation.mkstate (self s) (Validation.fs s)
         (Validation.log s
            ++ [ Validation.mkrecord INFO (WriteAccessValidated path);
                 Validation.mkrecord INFO (PathPassed path) ])%list).
Proof.
  intros env path path_type s entries. apply validate_path_probe_ok.
Qed.

Lemma validate_path_probe_leaves_no_trace_witness :
  Validation.fs (snd (validate_path (sample_env "Linux") ["home"] "directory" true
                                    sample_validator))
  = sample_disk.
Proof.
  rewrite (validate_path_probe_leaves_no_trace (sample_env "Linux") ["home"]
             "directory" sample_validator [("notes.txt", File "n")]
             eq_refl eq_refl eq_refl).
  reflexivity.
Defined.

(** X14.  When the directory already holds a file with the name of the
    probe, the write probe still passes, and removes that file: after the
    check the directory has lost the entry. *)
Theorem validate_path_probe_removes_namesake :
  forall (env : Env) (path : Path) (path_type : string)
         (s : Validation.State) (entries : list (string * node)) (data : string),
    resolve (Validation.fs s) path = Some (Dir true entries) ->
    String.eqb path_type "file" = false ->
    assoc (probe_name env) entries = Some (File data) ->
    exists s',
      validate_path env path path_type true s = (Ok true, s')
      /\ tally s' = tally s
      /\ resolve (Validation.fs s) (path ++ [probe_name env])%list
         = Some (File data)
      /\ resolve (Validation.fs s') path
         = Some (Dir true (remove (probe_name env) entries)).
Proof.
  intros env path path_type s entries data Hdir Hkind Hthere.
  rewrite (validate_path_probe_eq _ _ _ _ _ _ Hdir Hkind). cbv zeta.
  destruct s as [v [w es] lg]. unfold resolve in *.
  cbn [Validation.fs root_writable root_entries] in *.
  destruct (probe_removes_existing _ _ _ _ _ _ Hdir Hthere)
    as (Hfile & es1 & Hu & Hres).
  unfold touch, resolve, unlink.
  cbn [root_writable root_entries]. rewrite Hfile.
  cbn [root_writable root_entries]. rewrite Hu.
  eexists. split; [reflexivity|]. split; [reflexivity|].
  split; [reflexivity|exact Hres].
Qed.

Lemma validate_path_probe_removes_namesake_witness :
  let s := Validation.mkstate (init "example-script" INFO)
             (mkfs true [("home", Dir true [("test_write_1700000000.tmp", File "x");
                                            ("notes.txt", File "n")])]) [] in
  exists s',
    validate_path (sample_env "Linux") ["home"] "any" true s = (Ok true, s')
    /\ resolve (Validation.fs s') ["home"]
       = Some (Dir true [("notes.txt", File "n")]).
Proof.
  intros s.
  destruct (validate_path_probe_removes_namesake (sample_env "Linux") ["home"]
              "any" s _ "x" eq_refl eq_refl eq_refl)
    as (s' & Hrun & _ & _ & Hres).
  exists s'. split; [exact Hrun|exact Hres].
Defined.

(** ** [validate_python_version] and [validate_os] *)

Example validate_python_version_newer_major :
  fst (validate_python_version (sample_env "Linux") (2, 99)%Z sample_validator)
  = Ok true.
Proof. reflexivity. Qed.

(** X15.  [validate_python_version] compares (major, minor) pairs in
    lexicographic order: it passes when the running major version is above
    the required one, whatever the minor versions, or when the major
    versions are equal and the running minor version is at least the
    required one; otherwise it returns [False] and adds exactly one to the
    tally.  The micro version plays no part. *)
Theorem validate_python_version_lexicographic :
  forall (env : Env) (min_major min_minor : Z) (s : Validation.State),
    let major := fst (fst (version_info env)) in
    let minor := snd (fst (version_info env)) in
    let r := fst (validate_python_version env (min_major, min_minor) s) in
    let s' := snd (validate_python_version env (min_major, min_minor) s) in
    let enough := (min_major < major \/ (major = min_major /\ min_minor <= minor))%Z in
    (enough -> r = Ok true /\ tally s' = tally s)
    /\ (~ enough -> r = Ok false /\ tally s' = (tally s + 1)%Z).
Proof.
  intros env min_major min_minor s. cbv zeta.
  unfold validate_python_version, tuple_ge.
  destruct (version_info env) as [[major minor] micro]. cbn [fst snd].
  destruct (min_major <? major)%Z eqn:E1; cbn [orb].
  - apply Z.ltb_lt in E1. split; [intros _; split; reflexivity|]. intros H.
    exfalso. apply H. now left.
  - apply Z.ltb_ge in E1.
    destruct (major =? min_major)%Z eqn:E2; cbn [andb].
    + apply Z.eqb_eq in E2.
      destruct (min_minor <=? minor)%Z eqn:E3.
      * apply Z.leb_le in E3. split; [intros _; split; reflexivity|]. intros H.
        exfalso. apply H. now right.
      * apply Z.leb_gt in E3. split; [intros [H|[_ H]]; lia|].
        intros _. split; reflexivity.
    + apply Z.eqb_neq in E2. split; [intros [H|[H _]]; lia|].
      intros _. split; reflexivity.
Qed.

Lemma member_In x l : member x l = true <-> In x l.
Proof.
  unfold member. rewrite existsb_exists. split.
  - intros (y & Hy & E). apply String.eqb_eq in E. now subst.
  - intros H. exists x. split; [exact H|apply String.eqb_refl].
Qed.

Example validate_os_empty_list :
  fst (validate_os (sample_env "Linux") (Some []) sample_validator) = Ok true.
Proof. reflexivity. Qed.

(** X16.  [validate_os] passes exactly when [platform.system()] is in the
    list given; without a list, and also with an empty list, the list is
    Windows, Linux, Darwin.  A failure logs one ERROR record and adds
    exactly one to the tally. *)
Theorem validate_os_membership :
  forall (env : Env) (supported_os : option (list string)) (s : Validation.State),
    let accepted :=
      match supported_os with
      | Some (name :: names) => name :: names
      | _ => ["Windows"; "Linux"; "Darwin"]
      end in
    let r := fst (validate_os env supported_os s) in
    let s' := snd (validate_os env supported_os s) in
    (In (system env) accepted -> r = Ok true /\ tally s' = tally s)
    /\ (~ In (system env) accepted ->
        r = Ok false
        /\ tally s' = (tally s + 1)%Z
        /\ Validation.log s'
           = (Validation.log s
                ++ [Validation.mkrecord ERROR
                      (UnsupportedOS accepted (system env))])%list).
Proof.
  intros env supported_os s. cbv zeta. unfold validate_os.
  change (or_default supported_os ["Windows"; "Linux"; "Darwin"])
    with (match supported_os with
          | Some (name :: names) => name :: names
          | _ => ["Windows"; "Linux"; "Darwin"]
          end).
  set (accepted := match supported_os with
                   | Some (name :: names) => name :: names
                   | _ => ["Windows"; "Linux"; "Darwin"]
                   end).
  destruct (member (system env) accepted) eqn:E.
  - apply member_In in E. split; [intros _; split; reflexivity|].
    intros H. contradiction.
  - split.
    + intros H. apply member_In in H. congruence.
    + intros _. repeat split; reflexivity.
Qed.

(** ** [validate_system] and [validate_imports]: failures *)

(** X17.  Failures stay: once the tally of a validator is positive,
    every later [validate_system] that returns, returns [False], whatever
    the checks of that call find. *)
Theorem validate_system_failures_stay :
  forall (env : Env) (min_python_version : Z * Z)
         (required_commands required_modules supported_os : option (list string))
         (s s' : Validation.State) (b : bool),
    (0 < tally s)%Z ->
    validate_system env min_python_version required_commands required_modules
                    supported_os s = (Ok b, s') ->
    b = false /\ (0 < tally s')%Z.
Proof.
  intros env min_python_version required_commands required_modules
         supported_os s s' b Hs Hrun.
  pose proof (validate_system_mono env min_python_version required_commands
                required_modules supported_os s) as Hmono.
  rewrite Hrun in Hmono. cbn [snd] in Hmono. cbn beta in Hmono.
  rewrite (validate_system_answer _ _ _ _ _ _ _ _ Hrun).
  assert ((0 <? tally s')%Z = true) as -> by (apply Z.ltb_lt; lia).
  split; [reflexivity|lia].
Qed.

Lemma validate_system_failures_stay_witness :
  let s := snd (validate_command (sample_env "Linux") "no-such-tool" None
                                 sample_validator) in
  fst (validate_system (sample_env "Linux") (3, 7)%Z None None None s) = Ok false.
Proof.
  intros s.
  destruct (validate_system (sample_env "Linux") (3, 7)%Z None None None s)
    as [[b|e] s'] eqn:Hrun.
  - destruct (validate_system_failures_stay (sample_env "Linux") (3, 7)%Z
                None None None s s' b) as [-> _].
    + vm_compute. reflexivity.
    + exact Hrun.
    + reflexivity.
  - vm_compute in Hrun. discriminate.
Defined.

(** The loop of [validate_imports] up to a module whose import raises an
    exception that is not an [ImportError]. *)
Lemma validate_imports_loop_stops env before module after e :
  (forall m, In m before ->
     import_ env m = None
     \/ exists e', import_ env m = Some e' /\ is_ImportError e' = true) ->
  import_ env module = Some e ->
  is_ImportError e = false ->
  forall missing s,
  exists s',
    validate_imports_loop env (before ++ module :: after)%list missing s
    = (Raise e, s')
    /\ tally s'
       = (tally s + Z.of_nat (length (filter (not_importable env) before)))%Z.
Proof.
  intros Hbefore Hmodule He.
  induction before as [|m before IH]; intros missing s.
  - cbn [app]. rewrite validate_imports_loop_cons, Hmodule, He.
    exists s. split; [reflexivity|]. cbn. lia.
  - change ((m :: before) ++ module :: after)%list
      with (m :: (before ++ module :: after))%list.
    rewrite validate_imports_loop_cons. cbn [filter].
    assert (negb (importable env m)
            = match import_ env m with Some _ => true | None => false end)
      as Hi by (unfold importable; now destruct (import_ env m)).
    rewrite Hi. clear Hi.
    assert (forall m', In m' before ->
              import_ env m' = None
              \/ exists e', import_ env m' = Some e' /\ is_ImportError e' = true)
      as Hrest by (intros m' Hm'; apply Hbefore; now right).
    destruct (Hbefore m (or_introl eq_refl)) as [->|(e' & -> & ->)].
    + destruct (IH Hrest missing (logged INFO (ModuleImportPassed m) s))
        as (s' & -> & Ht).
      exists s'. split; [reflexivity|]. now rewrite Ht, tally_logged.
    + destruct (IH Hrest (missing ++ [m])%list
                  (incremented (logged ERROR (ModuleNotAvailable m) s)))
        as (s' & -> & Ht).
      exists s'. split; [reflexivity|].
      rewrite Ht, tally_incremented, tally_logged. cbn [length]. lia.
Qed.

(** X18.  When the import of a module raises an exception that is not an
    [ImportError], [validate_imports] raises it at that module: the tally
    has counted the missing modules listed before it, the modules listed
    after it have not been tried, and the summary record is not logged. *)
Theorem validate_imports_stops_at_other_exception :
  forall (env : Env) (before after : list string) (module : string) (e : exn)
         (s : Validation.State),
    (forall m, In m before ->
       import_ env m = None
       \/ exists e', import_ env m = Some e' /\ is_ImportError e' = true) ->
    import_ env module = Some e ->
    is_ImportError e = false ->
    exists s',
      validate_imports env (before ++ module :: after)%list s = (Raise e, s')
      /\ tally s'
         = (tally s + Z.of_nat (length (filter (not_importable env) before)))%Z
      /\ s' = snd (validate_imports_loop env before [] s).
Proof.
  intros env before after module e s Hbefore Hmodule He.
  destruct (validate_imports_loop_stops env before module after e
              Hbefore Hmodule He [] s) as (s' & Hloop & Ht).
  exists s'. unfold validate_imports, bind. rewrite Hloop.
  split; [reflexivity|]. split; [exact Ht|].
  clear Ht. revert s s' Hloop. generalize (@nil string).
  induction before as [|m before IH]; intros missing s s' Hloop.
  - cbn [app] in Hloop. rewrite validate_imports_loop_cons, Hmodule, He in Hloop.
    now inversion Hloop.
  - change ((m :: before) ++ module :: after)%list
      with (m :: (before ++ module :: after))%list in Hloop.
    rewrite validate_imports_loop_cons in Hloop.
    rewrite validate_imports_loop_cons.
    assert (forall m', In m' before ->
              import_ env m' = None
              \/ exists e', import_ env m' = Some e' /\ is_ImportError e' = true)
      as Hrest by (intros m' Hm'; apply Hbefore; now right).
    destruct (Hbefore m (or_introl eq_refl)) as [Hm|(e' & Hm & He')];
      rewrite Hm in *; [|rewrite He' in *]; exact (IH Hrest _ _ _ Hloop).
Qed.

Lemma validate_imports_stops_at_other_exception_witness :
  exists s',
    validate_imports (sample_env "Linux") ["yaml"; EmptyString; "numpy"]
                     sample_validator
    = (Raise (ValueError "Empty module name"), s')
    /\ tally s' = 1%Z.
Proof.
  destruct (validate_imports_stops_at_other_exception (sample_env "Linux")
              ["yaml"] ["numpy"] EmptyString (ValueError "Empty module name")
              sample_validator) as (s' & Hrun & Ht & _).
  - intros m [<-|[]]. right. eexists. split; reflexivity.
  - reflexivity.
  - reflexivity.
  - exists s'. split; [exact Hrun|exact Ht].
Defined.

(** ** [validate_system]: when it returns *)

(** From a state that satisfies [P], the computation returns, in a state
    that satisfies [P]. *)
Abbreviation proceeds P m :=
  (forall s : Validation.State,
      P s -> exists a (s' : Validation.State), m s = (Ok a, s') /\ P s').

Section Proceeds.
Variable P : Validation.State -> Prop.
Hypothesis P_logged : forall lvl m s, P s -> P (logged lvl m s).

Lemma proceeds_ret {A} (a : A) : proceeds P (ret a).
Proof. intros s Hs. now exists a, s. Qed.

Lemma proceeds_gets {A} (f : Validation.State -> A) : proceeds P (gets f).
Proof. intros s Hs. now exists (f s), s. Qed.

Lemma proceeds_log lvl m : proceeds P (Validation.log_at lvl m).
Proof. intros s Hs. exists tt, (logged lvl m s). split; [reflexivity|auto]. Qed.

Lemma proceeds_bind {A B} (m : M Validation.State A)
      (k : A -> M Validation.State B) :
  proceeds P m -> (forall a, proceeds P (k a)) -> proceeds P (bind m k).
Proof.
  intros Hm Hk s Hs. destruct (Hm s Hs) as (a & s1 & Hrun & Hs1).
  unfold bind. rewrite Hrun. exact (Hk a s1 Hs1).
Qed.

Lemma proceeds_if {A} (b : bool) (m1 m2 : M Validation.State A) :
  proceeds P m1 -> proceeds P m2 -> proceeds P (if b then m1 else m2).
Proof. now destruct b. Qed.

Lemma proceeds_for_each {A} (xs : list A) (body : A -> M Validation.State unit) :
  (forall x, In x xs -> proceeds P (body x)) -> proceeds P (for_each xs body).
Proof.
  induction xs as [|x xs IH]; intros Hb; cbn [for_each].
  - apply proceeds_ret.
  - apply proceeds_bind; [apply Hb; now left|].
    intros _. apply IH. intros y Hy. apply Hb. now right.
Qed.
End Proceeds.

Abbreviation anywhere := (fun _ : Validation.State => True).

Lemma anywhere_logged lvl m s : anywhere s -> anywhere (logged lvl m s).
Proof. trivial. Qed.

Lemma proceeds_counts (m : M Validation.State bool) :
  counts m -> proceeds anywhere m.
Proof. intros H s _. destruct (H s) as (b & s' & Hrun & _). eauto. Qed.

Lemma validate_python_version_returns env min_version :
  proceeds anywhere (validate_python_version env min_version).
Proof.
  intros s _. unfold validate_python_version.
  destruct (tuple_ge _ min_version); eexists _, _; split; try reflexivity; exact I.
Qed.

Lemma validate_os_returns env supported_os :
  proceeds anywhere (validate_os env supported_os).
Proof.
  intros s _. unfold validate_os.
  destruct (member (system env) _); eexists _, _; split; try reflexivity; exact I.
Qed.

Lemma validate_command_returns env command alternatives :
  proceeds anywhere (validate_command env command alternatives).
Proof.
  intros s _. unfold validate_command.
  destruct (resolvable env command);
    [|destruct (first_resolvable env (or_default alternatives []))];
    eexists _, _; split; try reflexivity; exact I.
Qed.

Lemma validate_imports_returns env modules :
  (forall module, In module modules ->
     import_ env module = None
     \/ exists e, import_ env module = Some e /\ is_ImportError e = true) ->
  proceeds anywhere (validate_imports env modules).
Proof.
  intros H s _.
  destruct (validate_imports_loop_total env modules [] s H) as (missing' & s1 & Hloop).
  destruct (validate_imports_outcome _ _ _ _ _ Hloop) as (s' & Hrun & _).
  eauto.
Qed.

Lemma validate_network_returns env host port timeout :
  (create_connection env host port timeout = None
   \/ exists e, create_connection env host port timeout = Some e
                /\ is_OSError e = true) ->
  proceeds anywhere (validate_network env host port timeout).
Proof.
  intros H s _. unfold validate_network.
  destruct H as [->|(e & -> & He)].
  - eexists _, _. split; [reflexivity|exact I].
  - unfold try_except, bind, lift. cbn [find fst snd]. rewrite He.
    eexists _, _. split; [reflexivity|exact I].
Qed.

Lemma validate_disk_space_returns env path min_gb :
  ((exists st, statvfs env (str path) = Ok st)
   \/ exists e, statvfs env (str path) = Raise e
                /\ (is_OSError e = true \/ is_AttributeError e = true)) ->
  proceeds anywhere (validate_disk_space env path min_gb).
Proof.
  intros H s _. unfold validate_disk_space, try_except, bind, lift.
  destruct H as [[st ->]|(e & -> & He)].
  - destruct (Qle_bool min_gb (available_gb (fst st) (snd st)));
      eexists _, _; split; try reflexivity; exact I.
  - cbn [find fst snd].
    assert (is_OSError e || is_AttributeError e = true) as ->
        by (destruct He as [-> | ->]; [reflexivity|apply orb_true_r]).
    eexists _, _. split; [reflexivity|exact I].
Qed.



(** ** [validate_system]: when everything passes *)

(** The validator object and the file system are [v0] and [f0]. *)
Abbreviation untouched v0 f0 :=
  (fun s : Validation.State => self s = v0 /\ Validation.fs s = f0).

Lemma untouched_logged v0 f0 lvl m s :
  untouched v0 f0 s -> untouched v0 f0 (logged lvl m s).
Proof. trivial. Qed.

Lemma validate_python_version_passes v0 f0 env min_version :
  tuple_ge (fst (fst (version_info env)), snd (fst (version_info env)))
           min_version = true ->
  proceeds (untouched v0 f0) (validate_python_version env min_version).
Proof.
  intros H s Hs. unfold validate_python_version. rewrite H.
  eexists _, _. split; [reflexivity|exact Hs].
Qed.

Lemma validate_os_passes v0 f0 env supported_os :
  member (system env) (or_default supported_os ["Windows"; "Linux"; "Darwin"])
  = true ->
  proceeds (untouched v0 f0) (validate_os env supported_os).
Proof.
  intros H s Hs. unfold validate_os. rewrite H.
  eexists _, _. split; [reflexivity|exact Hs].
Qed.

Lemma validate_command_passes v0 f0 env command :
  resolvable env command = true ->
  proceeds (untouched v0 f0) (validate_command env command None).
Proof.
  intros H s Hs. unfold validate_command. rewrite H.
  eexists _, _. split; [reflexivity|exact Hs].
Qed.

Lemma validate_imports_loop_passes v0 f0 env modules :
  (forall module, In module modules -> import_ env module = None) ->
  forall missing s,
    untouched v0 f0 s ->
    exists s', validate_imports_loop env modules missing s = (Ok missing, s')
               /\ untouched v0 f0 s'.
Proof.
  induction modules as [|module rest IH]; intros H missing s Hs.
  - now exists s.
  - rewrite validate_imports_loop_cons, (H module (or_introl eq_refl)).
    apply IH; [intros m Hm; apply H; now right|exact Hs].
Qed.

Lemma validate_imports_passes v0 f0 env modules :
  (forall module, In module modules -> import_ env module = None) ->
  proceeds (untouched v0 f0) (validate_imports env modules).
Proof.
  intros H s Hs.
  destruct (validate_imports_loop_passes v0 f0 env modules H [] s Hs)
    as (s' & Hloop & Hs').
  exists true, s'. unfold validate_imports, bind. rewrite Hloop. now split.
Qed.

Lemma validate_path_passes v0 f0 env path entries :
  resolve f0 path = Some (Dir true entries) ->
  assoc (probe_name env) entries = None ->
  proceeds (untouched v0 f0) (validate_path env path "directory" true).
Proof.
  intros Hdir Hfree s [Hv Hf]. rewrite <- Hf in Hdir.
  rewrite (validate_path_probe_ok env path "directory" s entries Hdir eq_refl Hfree).
  eexists _, _. split; [reflexivity|]. now split.
Qed.

Lemma validate_network_proceeds v0 f0 env host port timeout :
  (create_connection env host port timeout = None
   \/ exists e, create_connection env host port timeout = Some e
                /\ is_OSError e = true) ->
  proceeds (untouched v0 f0) (validate_network env host port timeout).
Proof.
  intros H s Hs. unfold validate_network.
  destruct H as [->|(e & -> & He)].
  - eexists _, _. split; [reflexivity|exact Hs].
  - unfold try_except, bind, lift. cbn [find fst snd]. rewrite He.
    eexists _, _. split; [reflexivity|exact Hs].
Qed.

Lemma validate_disk_space_passes v0 f0 env path min_gb :
  ((exists frsize bavail,
       statvfs env (str path) = Ok (frsize, bavail)
       /\ (min_gb <= available_gb frsize bavail)%Q)
   \/ exists e, statvfs env (str path) = Raise e
                /\ (is_OSError e = true \/ is_AttributeError e = true)) ->
  proceeds (untouched v0 f0) (validate_disk_space env path min_gb).
Proof.
  intros H s Hs. unfold validate_disk_space, try_except, bind, lift.
  destruct H as [(frsize & bavail & -> & Hle)|(e & -> & He)].
  - cbn [fst snd]. apply Qle_bool_iff in Hle. rewrite Hle.
    eexists _, _. split; [reflexivity|exact Hs].
  - cbn [find fst snd].
    assert (is_OSError e || is_AttributeError e = true) as ->
        by (destruct He as [-> | ->]; [reflexivity|apply orb_true_r]).
    eexists _, _. split; [reflexivity|exact Hs].
Qed.

(** X20.  When every check finds what it asks for, a validator without
    failures passes: the running version is at least the minimum, the OS is
    in the list given (if one is given), every required command is found,
    every required module is importable, the working directory is a
    writable directory (with no entry named like the probe file), the
    network call is opened or fails with a socket error, and enough disk
    space is free or [os.statvfs] is unsupported.  Then [validate_system]
    returns [True], the tally is still zero, and neither the validator nor
    the file system has changed. *)
Theorem validate_system_all_pass :
  forall (env : Env) (min_major min_minor : Z)
         (required_commands required_modules supported_os : option (list string))
         (s : Validation.State) (entries : list (string * node)),
    tally s = 0%Z ->
    (min_major < fst (fst (version_info env))
     \/ (fst (fst (version_info env)) = min_major
         /\ min_minor <= snd (fst (version_info env))))%Z ->
    (forall names, supported_os = Some names ->
                   names = [] \/ In (system env) names) ->
    (forall command, In command (or_default required_commands []) ->
                     resolvable env command = true) ->
    (forall module, In module (or_default required_modules []) ->
                    import_ env module = None) ->
    resolve (Validation.fs s) (cwd env) = Some (Dir true entries) ->
    assoc (probe_name env) entries = None ->
    (create_connection env "github.com" 443 5 = None
     \/ exists e, create_connection env "github.com" 443 5 = Some e
                  /\ is_OSError e = true) ->
    ((exists frsize bavail,
         statvfs env (str (cwd env)) = Ok (frsize, bavail)
         /\ (float_0_1 <= available_gb frsize bavail)%Q)
     \/ exists e, statvfs env (str (cwd env)) = Raise e
                  /\ (is_OSError e = true \/ is_AttributeError e = true)) ->
    exists s' : Validation.State,
      validate_system env (min_major, min_minor) required_commands
                      required_modules supported_os s = (Ok true, s')
      /\ tally s' = 0%Z
      /\ self s' = self s
      /\ Validation.fs s' = Validation.fs s.
Proof.
  intros env min_major min_minor required_commands required_modules
         supported_os s entries Htally Hversion Hos Hcommands Hmodules
         Hcwd Hfree Hnet Hdisk.
  assert (tuple_ge (fst (fst (version_info env)), snd (fst (version_info env)))
                   (min_major, min_minor) = true) as Hv.
  { unfold tuple_ge.
    destruct Hversion as [H|[H1 H2]].
    - apply Z.ltb_lt in H. now rewrite H.
    - apply Z.eqb_eq in H1. apply Z.leb_le in H2. rewrite H1, H2.
      apply orb_true_r. }
  assert (proceeds (untouched (self s) (Validation.fs s))
            (validate_system env (min_major, min_minor) required_commands
                             required_modules supported_os)) as H.
  { unfold validate_system, Validation.info, Validation.warning,
      Validation.error. cbv zeta.
    pose proof (untouched_logged (self s) (Validation.fs s)) as Hlogged.
    apply proceeds_bind; [now apply proceeds_log|intros _].
    apply proceeds_bind; [now apply proceeds_log|intros _].
    apply proceeds_bind;
      [apply proceeds_for_each;
       intros kv _; now apply proceeds_log|intros _].
    apply proceeds_bind;
      [exact (validate_python_version_passes _ _ _ _ Hv)|intros _].
    apply proceeds_bind; [|intros _].
    { destruct supported_os as [[|name names]|]; cbn [truthy];
        try (now apply proceeds_ret).
      apply proceeds_bind; [|intros _; now apply proceeds_ret].
      apply validate_os_passes. cbn [or_default]. apply member_In.
      destruct (Hos (name :: names) eq_refl) as [H|H]; [discriminate|exact H]. }
    apply proceeds_bind; [|intros _].
    { apply proceeds_if; [|now apply proceeds_ret].
      apply proceeds_for_each. intros command Hin.
      apply proceeds_bind; [|intros _; now apply proceeds_ret].
      apply validate_command_passes. now apply Hcommands. }
    apply proceeds_bind; [|intros _].
    { apply proceeds_if; [|now apply proceeds_ret].
      apply proceeds_bind; [|intros _; now apply proceeds_ret].
      now apply validate_imports_passes. }
    apply proceeds_bind;
      [exact (validate_path_passes _ _ _ _ _ Hcwd Hfree)|intros _].
    apply proceeds_bind;
      [exact (validate_network_proceeds _ _ _ _ _ _ Hnet)|intros connected].
    apply proceeds_bind;
      [apply proceeds_if; [now apply proceeds_log|now apply proceeds_ret]
      |intros _].
    apply proceeds_bind;
      [exact (validate_disk_space_passes _ _ _ _ _ Hdisk)|intros _].
    apply proceeds_bind; [now apply proceeds_gets|intros errors].
    apply proceeds_if;
      (apply proceeds_bind; [now apply proceeds_log|intros _; now apply proceeds_ret]). }
  destruct (H s (conj eq_refl eq_refl)) as (b & s' & Hrun & Hself & Hfs).
  assert (tally s' = 0%Z) as Ht by (unfold tally; now rewrite Hself).
  pose proof (validate_system_answer _ _ _ _ _ _ _ _ Hrun) as Hb.
  rewrite Ht in Hb. cbn in Hb. subst b.
  exists s'. auto.
Qed.

Lemma validate_system_all_pass_witness :
  exists s' : Validation.State,
    validate_system (sample_env "Linux") (0, 0)%Z (Some ["git"]) (Some ["os"])
                    None sample_validator = (Ok true, s')
    /\ tally s' = 0%Z.
Proof.
  destruct (validate_system_all_pass (sample_env "Linux") 0 0 (Some ["git"])
              (Some ["os"]) None sample_validator [("notes.txt", File "n")])
    as (s' & Hrun & Ht & _).
  - reflexivity.
  - left. cbn. lia.
  - intros names H. discriminate.
  - intros command [<-|[]]. reflexivity.
  - intros module [<-|[]]. reflexivity.
  - reflexivity.
  - reflexivity.
  - now left.
  - left. exists 4096%N, 13107200%N. split; [reflexivity|].
    unfold float_0_1, available_gb, Qle. cbn. lia.
  - exists s'. split; [exact Hrun|exact Ht].
Defined.

(** ** [validate_system]: a required command that is missing *)

(** The loop over the required commands counts a command that is not on
    the search path. *)
Lemma commands_loop_counts_missing env command :
  resolvable env command = false ->
  forall commands s s1,
    In command commands ->
    for_each commands (fun cmd => validate_command env cmd None ;;; ret tt)%py s
    = (Ok tt, s1) ->
    (tally s < tally s1)%Z.
Proof.
  intros Hmissing commands.
  assert (forall cmd, steps mono (validate_command env cmd None ;;; ret tt)%py)
    as Hbody.
  { intros cmd. apply (steps_bind mono mono_trans);
      [apply honest_mono, validate_command_honest
      |intros _; apply (steps_ret mono mono_refl)]. }
  induction commands as [|cmd rest IH]; intros s s1 Hin Hrun; [destruct Hin|].
  cbn [for_each] in Hrun.
  apply bind_inv_ok in Hrun. destruct Hrun as ([] & sa & Hhead & Htail).
  destruct (String.eqb cmd command) eqn:E.
  - apply String.eqb_eq in E. subst cmd.
    pose proof (steps_for_each mono mono_refl mono_trans rest _ Hbody sa) as Hrest.
    rewrite Htail in Hrest. cbn [snd] in Hrest.
    unfold validate_command in Hhead. rewrite Hmissing in Hhead.
    cbn [or_default first_resolvable] in Hhead.
    inversion Hhead. subst sa.
    change (tally s + 1 <= tally s1)%Z in Hrest. lia.
  - apply String.eqb_neq in E.
    destruct Hin as [H|H]; [contradiction|].
    specialize (IH sa s1 H Htail).
    pose proof (Hbody cmd s) as Hstep. rewrite Hhead in Hstep.
    cbn [snd] in Hstep. lia.
Qed.

(** Taking one step of a sequence that has returned: the tally has not
    gone down over it. *)
Ltac step_mono H :=
  apply bind_inv_ok in H;
  let a := fresh "a" in
  let s := fresh "s" in
  let Hstep := fresh "Hstep" in
  destruct H as (a & s & Hstep & H);
  match type of Hstep with
  | ?m ?s0 = _ =>
      let Hm := fresh "Hm" in
      assert (steps mono m) as Hm by mono_tac;
      specialize (Hm s0); rewrite Hstep in Hm; cbn [snd] in Hm
  end.

Lemma validate_system_missing_command_tally env min_python_version commands
      required_modules supported_os command s b s' :
  (0 <= tally s)%Z ->
  In command commands ->
  resolvable env command = false ->
  validate_system env min_python_version (Some commands) required_modules
                  supported_os s = (Ok b, s') ->
  (0 < tally s')%Z.
Proof.
  intros Hs Hin Hmissing Hrun.
  unfold validate_system, Validation.info, Validation.warning,
    Validation.error in Hrun.
  cbv zeta in Hrun.
  do 5 step_mono Hrun.
  apply bind_inv_ok in Hrun. destruct Hrun as ([] & s5 & Hloop & Hrun).
  destruct commands as [|first rest]; [destruct Hin|].
  cbn [truthy or_default] in Hloop.
  apply (commands_loop_counts_missing env command Hmissing) in Hloop;
    [|exact Hin].
  match type of Hrun with
  | ?m s5 = _ =>
      assert (steps mono m) as Hrest by mono_tac;
      specialize (Hrest s5); rewrite Hrun in Hrest; cbn [snd] in Hrest
  end.
  lia.
Qed.

(** X21.  A required command that [shutil.which] does not find makes
    [validate_system] fail: started with a tally that is not negative, a
    call that returns, returns [False], whatever the other checks find and
    wherever the command stands in the list. *)
Theorem validate_system_missing_command :
  forall (env : Env) (min_python_version : Z * Z) (commands : list string)
         (required_modules supported_os : option (list string))
         (command : string) (s s' : Validation.State) (b : bool),
    (0 <= tally s)%Z ->
    In command commands ->
    resolvable env command = false ->
    validate_system env min_python_version (Some commands) required_modules
                    supported_os s = (Ok b, s') ->
    b = false.
Proof.
  intros env min_python_version commands required_modules supported_os
         command s s' b Hs Hin Hmissing Hrun.
  pose proof (validate_system_missing_command_tally _ _ _ _ _ _ _ _ _
                Hs Hin Hmissing Hrun) as Hpos.
  rewrite (validate_system_answer _ _ _ _ _ _ _ _ Hrun).
  apply Z.ltb_lt in Hpos. now rewrite Hpos.
Qed.

Lemma validate_system_missing_command_witness :
  fst (validate_system (sample_env "Linux") (3, 7)%Z
                       (Some ["git"; "python"; "python3"]) None None
                       sample_validator) = Ok false.
Proof.
  destruct (validate_system (sample_env "Linux") (3, 7)%Z
                            (Some ["git"; "python"; "python3"]) None None
                            sample_validator)
    as [[b|e] s'] eqn:Hrun.
  - rewrite (validate_system_missing_command (sample_env "Linux") (3, 7)%Z
               ["git"; "python"; "python3"] None None "python"
               sample_validator s' b); [reflexivity| | | |exact Hrun].
    + cbn. lia.
    + right. now left.
    + reflexivity.
  - vm_compute in Hrun. discriminate.
Defined.


(* ================================================================== *)
(** * Properties of the prompt and of the example [main]                *)
(* ================================================================== *)

Import Interactive.

Lemma append_empty_r (s : string) : (s ++ EmptyString)%string = s.
Proof. induction s as [|ch s IH]; cbn; [reflexivity|now rewrite IH]. Qed.

(** The text that [prompt_with_timeout] prints first. *)
Abbreviation prompt_text prompt timeout :=
  (prompt ++ " (auto-continues in " ++ Json.decimal timeout ++ "s): ")%string.

Lemma int_range (timeout : Z) :
  (- 2 ^ 31 <= timeout < 2 ^ 31)%Z ->
  ((timeout <? - 2 ^ 31) || (2 ^ 31 <=? timeout))%Z = false.
Proof.
  intros H. apply orb_false_iff. split; [apply Z.ltb_ge|apply Z.leb_gt]; lia.
Qed.

(** ** [prompt_with_timeout] *)

Ltac terminal_fields :=
  cbv beta iota delta [Interactive.self Interactive.fs Interactive.log
                       stdout alarm timeout_handler_installed].

Ltac terminal_fields_in H :=
  cbv beta iota delta [Interactive.self Interactive.fs Interactive.log
                       stdout alarm timeout_handler_installed] in H.

Lemma alarm_armed (timeout : Z) (t : Terminal) :
  (0 < timeout < 2 ^ 31)%Z ->
  signal_alarm timeout t
  = Some (Ok tt,
          mkterminal (Interactive.self t) (Interactive.fs t) (Interactive.log t)
                     (stdout t) (Some timeout) (timeout_handler_installed t)).
Proof.
  intros H. unfold signal_alarm.
  rewrite int_range by lia.
  replace (timeout =? 0)%Z with false by (symmetry; apply Z.eqb_neq; lia).
  rewrite Z.mod_small by lia. reflexivity.
Qed.

Lemma alarm_cancelled (t : Terminal) :
  signal_alarm 0 t
  = Some (Ok tt,
          mkterminal (Interactive.self t) (Interactive.fs t) (Interactive.log t)
                     (stdout t) None (timeout_handler_installed t)).
Proof. reflexivity. Qed.

(** With SIGALRM and a timeout of [timeout] seconds, the prompt is decided
    by what happens first. *)
Lemma prompt_with_alarm c prompt default timeout v f l out al h :
  has_SIGALRM c = true ->
  (0 < timeout < 2 ^ 31)%Z ->
  prompt_with_timeout c prompt timeout default (mkterminal v f l out al h)
  = let shown := (out ++ [prompt_text prompt timeout])%list in
    let gave_up remaining :=
      Some (Ok default,
            mkterminal v f (l ++ [mkrecord WARNING (NoInputDetected default)])%list
                       (shown ++ [newline])%list remaining true) in
    match stdin c with
    | Line after text =>
        if (timeout <=? after)%Z then gave_up None
        else Some (Ok text, mkterminal v f l shown None true)
    | EndOfFile after =>
        if (timeout <=? after)%Z then gave_up None
        else Some (Raise (OtherException "EOFError"),
                   mkterminal v f l shown (Some (timeout - after)%Z) true)
    | CtrlC after =>
        if (timeout <=? after)%Z then gave_up None
        else gave_up (Some (timeout - after)%Z)
    | Silence => gave_up None
    end.
Proof.
  intros Hsig Htimeout.
  unfold prompt_with_timeout, io_bind, io_try_except, print.
  rewrite Hsig. unfold signal_signal at 1. terminal_fields.
  rewrite alarm_armed by exact Htimeout.
  unfold input_, alarm_before, alarm_goes_off, later. terminal_fields.
  rewrite append_empty_r.
  destruct (stdin c) as [after text|after|after|];
    try destruct (timeout <=? after)%Z; reflexivity.
Qed.

(** Without an alarm the prompt waits for the user. *)
Lemma prompt_without_alarm c prompt default timeout v f l out h :
  (if has_SIGALRM c then timeout = 0%Z else True) ->
  prompt_with_timeout c prompt timeout default (mkterminal v f l out None h)
  = let shown := (out ++ [prompt_text prompt timeout])%list in
    let h' := (has_SIGALRM c || h)%bool in
    match stdin c with
    | Line after text => Some (Ok text, mkterminal v f l shown None h')
    | EndOfFile after =>
        Some (Raise (OtherException "EOFError"), mkterminal v f l shown None h')
    | CtrlC after =>
        Some (Ok default,
              mkterminal v f (l ++ [mkrecord WARNING (NoInputDetected default)])%list
                         (shown ++ [newline])%list None h')
    | Silence => None
    end.
Proof.
  intros Hno.
  unfold prompt_with_timeout, io_bind, io_try_except, print.
  rewrite append_empty_r.
  destruct (has_SIGALRM c); [subst timeout|];
    unfold input_; destruct (stdin c); reflexivity.
Qed.

(** X22.  On a platform with SIGALRM and with a timeout between 1 and
    2^31 - 1 seconds, a prompt that gets no input before the timeout
    returns the default: it has printed the prompt text and a newline,
    logged one warning naming the default, and no alarm is pending. *)
Theorem prompt_times_out :
  forall (c : Console) (prompt default : string) (timeout : Z) (t : Terminal),
    has_SIGALRM c = true ->
    (0 < timeout < 2 ^ 31)%Z ->
    match stdin c with
    | Line after _ | EndOfFile after | CtrlC after => (timeout <= after)%Z
    | Silence => True
    end ->
    prompt_with_timeout c prompt timeout default t
    = Some (Ok default,
            mkterminal (Interactive.self t) (Interactive.fs t)
              (Interactive.log t
                 ++ [mkrecord WARNING (NoInputDetected default)])%list
              (stdout t ++ [prompt_text prompt timeout; newline])%list
              None true).
Proof.
  intros c prompt default timeout [v f l out al h] Hsig Htimeout Hquiet.
  rewrite prompt_with_alarm by assumption. terminal_fields. cbv zeta.
  rewrite <- app_assoc. cbn [app].
  destruct (stdin c) as [after text|after|after|]; try reflexivity;
    apply Z.leb_le in Hquiet; now rewrite Hquiet.
Qed.

Lemma prompt_times_out_witness :
  prompt_with_timeout (mkconsole true (Line 25 "y")) "Continue? (y/N)" 10 "n"
                      sample_terminal
  = Some (Ok "n",
          mkterminal (Validation.init "example-script" INFO) sample_disk
                     [mkrecord WARNING (NoInputDetected "n")]
                     ["Continue? (y/N) (auto-continues in 10s): "; newline]
                     None true).
Proof.
  apply (prompt_times_out (mkconsole true (Line 25 "y")) "Continue? (y/N)" "n"
                          10 sample_terminal).
  - reflexivity.
  - lia.
  - cbn. lia.
Defined.

(** X23.  A line that arrives before the alarm (or on a platform without
    SIGALRM, or with a timeout of 0, which sets no alarm) is returned as
    typed, not stripped and not compared with the default; nothing is
    logged, only the prompt text is printed, and no alarm stays pending. *)
Theorem prompt_returns_answer :
  forall (c : Console) (prompt default : string) (timeout : Z) (t : Terminal)
         (after : Z) (text : string),
    stdin c = Line after text ->
    (0 <= timeout < 2 ^ 31)%Z ->
    (if has_SIGALRM c then timeout = 0%Z \/ (after < timeout)%Z
     else alarm t = None) ->
    prompt_with_timeout c prompt timeout default t
    = Some (Ok text,
            mkterminal (Interactive.self t) (Interactive.fs t)
              (Interactive.log t)
              (stdout t ++ [prompt_text prompt timeout])%list
              None (has_SIGALRM c || timeout_handler_installed t)).
Proof.
  intros c prompt default timeout [v f l out al h] after text Hline Htimeout
         Hfirst.
  terminal_fields.
  destruct (has_SIGALRM c) eqn:Hsig.
  - destruct (Z.eq_dec timeout 0) as [->|Hpos].
    + unfold prompt_with_timeout, io_bind, io_try_except, print.
      rewrite append_empty_r, Hsig.
      unfold input_. rewrite Hline. reflexivity.
    + destruct Hfirst as [H|H]; [contradiction|].
      rewrite prompt_with_alarm by (try assumption; lia).
      rewrite Hline. cbv zeta.
      apply Z.leb_gt in H. now rewrite H.
  - cbv beta iota delta [alarm] in Hfirst. subst al.
    rewrite prompt_without_alarm by (now rewrite Hsig).
    rewrite Hline, Hsig. reflexivity.
Qed.

Lemma prompt_returns_answer_witness :
  prompt_with_timeout (mkconsole false (Line 3600 " Y ")) "Continue? (y/N)" 10
                      "n" sample_terminal
  = Some (Ok " Y ",
          mkterminal (Validation.init "example-script" INFO) sample_disk []
                     ["Continue? (y/N) (auto-continues in 10s): "] None false).
Proof.
  apply (prompt_returns_answer (mkconsole false (Line 3600 " Y "))
           "Continue? (y/N)" "n" 10 sample_terminal 3600 " Y ").
  - reflexivity.
  - lia.
  - reflexivity.
Defined.

(** X24.  Ctrl-C at the prompt is answered like a timeout, by the default
    and the warning, but the alarm is not cancelled: it stays pending with
    the seconds that were left, and [timeout_handler] stays installed, so
    [TimeoutError] is due in the caller. *)
Theorem prompt_interrupt_leaves_alarm :
  forall (c : Console) (prompt default : string) (timeout : Z) (t : Terminal)
         (after : Z),
    has_SIGALRM c = true ->
    stdin c = CtrlC after ->
    (0 <= after < timeout)%Z ->
    (timeout < 2 ^ 31)%Z ->
    prompt_with_timeout c prompt timeout default t
    = Some (Ok default,
            mkterminal (Interactive.self t) (Interactive.fs t)
              (Interactive.log t
                 ++ [mkrecord WARNING (NoInputDetected default)])%list
              (stdout t ++ [prompt_text prompt timeout; newline])%list
              (Some (timeout - after)%Z) true).
Proof.
  intros c prompt default timeout [v f l out al h] after Hsig Hctrl Hafter
         Htimeout.
  rewrite prompt_with_alarm by (try assumption; lia). terminal_fields.
  rewrite Hctrl. cbv zeta. rewrite <- app_assoc. cbn [app].
  replace (timeout <=? after)%Z with false by (symmetry; apply Z.leb_gt; lia).
  reflexivity.
Qed.

Lemma prompt_interrupt_leaves_alarm_witness :
  prompt_with_timeout (mkconsole true (CtrlC 4)) "Continue? (y/N)" 10 "n"
                      sample_terminal
  = Some (Ok "n",
          mkterminal (Validation.init "example-script" INFO) sample_disk
                     [mkrecord WARNING (NoInputDetected "n")]
                     ["Continue? (y/N) (auto-continues in 10s): "; newline]
                     (Some 6%Z) true).
Proof.
  apply (prompt_interrupt_leaves_alarm (mkconsole true (CtrlC 4))
           "Continue? (y/N)" "n" 10 sample_terminal 4).
  - reflexivity.
  - reflexivity.
  - lia.
  - lia.
Defined.

(** X25.  A closed standard input is not answered by the default:
    [EOFError] leaves [prompt_with_timeout], nothing is logged, and an
    alarm that was set stays pending. *)
Theorem prompt_end_of_input_raises :
  forall (c : Console) (prompt default : string) (timeout : Z) (t : Terminal)
         (after : Z),
    stdin c = EndOfFile after ->
    (0 <= timeout < 2 ^ 31)%Z ->
    (if has_SIGALRM c then timeout = 0%Z \/ (after < timeout)%Z
     else alarm t = None) ->
    prompt_with_timeout c prompt timeout default t
    = Some (Raise (OtherException "EOFError"),
            mkterminal (Interactive.self t) (Interactive.fs t)
              (Interactive.log t)
              (stdout t ++ [prompt_text prompt timeout])%list
              (if has_SIGALRM c && negb (timeout =? 0)%Z
               then Some (timeout - after)%Z else None)
              (has_SIGALRM c || timeout_handler_installed t)).
Proof.
  intros c prompt default timeout [v f l out al h] after Heof Htimeout Hfirst.
  terminal_fields.
  destruct (has_SIGALRM c) eqn:Hsig.
  - destruct (Z.eq_dec timeout 0) as [->|Hpos].
    + unfold prompt_with_timeout, io_bind, io_try_except, print.
      rewrite append_empty_r, Hsig.
      unfold input_. rewrite Heof. reflexivity.
    + destruct Hfirst as [H|H]; [contradiction|].
      rewrite prompt_with_alarm by (try assumption; lia).
      rewrite Heof. cbv zeta.
      apply Z.leb_gt in H. rewrite H.
      apply Z.eqb_neq in Hpos. now rewrite Hpos.
  - cbv beta iota delta [alarm] in Hfirst. subst al.
    rewrite prompt_without_alarm by (now rewrite Hsig).
    rewrite Heof, Hsig. reflexivity.
Qed.

Lemma prompt_end_of_input_raises_witness :
  prompt_with_timeout (mkconsole true (EndOfFile 0)) "Continue? (y/N)" 10 "n"
                      sample_terminal
  = Some (Raise (OtherException "EOFError"),
          mkterminal (Validation.init "example-script" INFO) sample_disk []
                     ["Continue? (y/N) (auto-continues in 10s): "]
                     (Some 10%Z) true).
Proof.
  apply (prompt_end_of_input_raises (mkconsole true (EndOfFile 0))
           "Continue? (y/N)" "n" 10 sample_terminal 0).
  - reflexivity.
  - lia.
  - right. lia.
Defined.

(** X26.  Without an alarm the prompt does not continue by itself,
    whatever its text says: on a platform without SIGALRM, or with a
    timeout of 0, a prompt that gets no input never returns. *)
Theorem prompt_waits_forever :
  forall (c : Console) (prompt default : string) (timeout : Z) (t : Terminal),
    stdin c = Silence ->
    (if has_SIGALRM c then timeout = 0%Z else alarm t = None) ->
    prompt_with_timeout c prompt timeout default t = None.
Proof.
  intros c prompt default timeout [v f l out al h] Hsilence Hno.
  destruct (has_SIGALRM c) eqn:Hsig.
  - subst timeout.
    unfold prompt_with_timeout, io_bind, io_try_except, print.
    rewrite Hsig. unfold input_. now rewrite Hsilence.
  - cbv beta iota delta [alarm] in Hno. subst al.
    rewrite prompt_without_alarm by (now rewrite Hsig).
    now rewrite Hsilence.
Qed.

Lemma prompt_waits_forever_witness :
  prompt_with_timeout (mkconsole false Silence) "Continue? (y/N)" 10 "n"
                      sample_terminal = None.
Proof.
  apply (prompt_waits_forever (mkconsole false Silence) "Continue? (y/N)" "n"
                              10 sample_terminal).
  - reflexivity.
  - reflexivity.
Defined.

(** ** The example [main] *)

Lemma lower_char_y (ch : ascii) :
  lower_char ch = "y"%char <-> ch = "y"%char \/ ch = "Y"%char.
Proof.
  destruct ch as [[] [] [] [] [] [] [] []]; vm_compute;
    (split; [intros H; first [discriminate H | now left | now right]
            |intros [H|H]; first [discriminate H | reflexivity]]).
Qed.

Lemma lower_y (s : string) : lower s = "y" <-> s = "y" \/ s = "Y".
Proof.
  destruct s as [|ch [|ch' s]]; cbn [lower].
  - split; [discriminate|intros [H|H]; discriminate].
  - split.
    + intros H. injection H as H. apply lower_char_y in H.
      destruct H as [->| ->]; auto.
    + intros [H|H]; injection H as ->; reflexivity.
  - split; [discriminate|intros [H|H]; discriminate].
Qed.

(** The validation that [main] asks for. *)
Abbreviation example_validation env :=
  (validate_system env (3, 7)%Z (Some ["git"; "python"])
                   (Some ["os"; "sys"; "pathlib"])
                   (Some ["Windows"; "Linux"; "Darwin"])).

(** The records of the validator as they appear in the log of the
    process. *)
Abbreviation of_checks records :=
  (map (fun r => mkrecord (Validation.record_level r)
                          (OfCheck (Validation.record_msg r))) records).

Lemma main_eq env c v f l out al h passed s' :
  example_validation env
    (Validation.mkstate (Validation.init "example-script" INFO) f [])
  = (Ok passed, s') ->
  Interactive.main env c (mkterminal v f l out al h)
  = let l' := (l ++ of_checks (Validation.log s'))%list in
    if passed then
      match prompt_with_timeout c "Continue? (y/N)" 10 "n"
              (mkterminal (Validation.self s') (Validation.fs s') l' out al h)
      with
      | Some (Ok response, t') =>
          if String.eqb (lower response) "y" then
            print "Validation passed! Script can continue..." newline t'
          else
            Some (Raise (SystemExit 0),
                  mkterminal (Interactive.self t') (Interactive.fs t')
                    (Interactive.log t')
                    (stdout t' ++ [("Operation cancelled" ++ newline)%string])%list
                    (alarm t') (timeout_handler_installed t'))
      | Some (Raise e, t') => Some (Raise e, t')
      | None => None
      end
    else
      Some (Raise (SystemExit 1),
            mkterminal (Validation.self s') (Validation.fs s') l'
              (out ++ [("System validation failed!" ++ newline)%string])%list
              al h).
Proof.
  intros Hv.
  unfold Interactive.main, io_bind at 1 2. terminal_fields.
  unfold of_validator at 1. terminal_fields.
  rewrite Hv. cbv zeta.
  destruct passed; cbv beta iota delta [negb].
  - unfold io_bind at 1, io_ret at 1. cbv beta iota.
    unfold io_bind at 1.
    destruct (prompt_with_timeout _ _ _ _ _) as [[[response|e] t']|];
      try reflexivity.
    destruct (String.eqb (lower response) "y"); cbv beta iota delta [negb].
    + reflexivity.
    + reflexivity.
  - reflexivity.
Qed.

(** X27.  The example [main] exits with status 1 exactly when the
    validation fails: then it has printed the failure line only, the prompt
    is not shown and no alarm is set; and when the validation passes, no
    behaviour of the user makes it exit with status 1. *)
Theorem example_main_exits_1_iff_validation_fails :
  forall (env : Env) (c : Console) (t : Terminal) (passed : bool)
         (s' : Validation.State),
    example_validation env
      (Validation.mkstate (Validation.init "example-script" INFO)
                          (Interactive.fs t) [])
    = (Ok passed, s') ->
    (has_SIGALRM c = false -> alarm t = None) ->
    (passed = false ->
     Interactive.main env c t
     = Some (Raise (SystemExit 1),
             mkterminal (Validation.self s') (Validation.fs s')
               (Interactive.log t ++ of_checks (Validation.log s'))%list
               (stdout t ++ [("System validation failed!" ++ newline)%string])%list
               (alarm t) (timeout_handler_installed t)))
    /\ (passed = true ->
        forall t', Interactive.main env c t <> Some (Raise (SystemExit 1), t')).
Proof.
  intros env c [v f l out al h] passed s' Hv Hal.
  terminal_fields. terminal_fields_in Hv. terminal_fields_in Hal.
  rewrite (main_eq env c v f l out al h passed s' Hv). cbv zeta.
  split; intros ->; [reflexivity|].
  intros t'.
  destruct (has_SIGALRM c) eqn:Hsig.
  - rewrite prompt_with_alarm by (try assumption; lia). cbv zeta.
    destruct (stdin c) as [after text|after|after|];
      try destruct (10 <=? after)%Z;
      try destruct (String.eqb (lower text) "y");
      intros H; vm_compute in H; discriminate H.
  - rewrite (Hal eq_refl).
    rewrite prompt_without_alarm by (now rewrite Hsig). cbv zeta.
    destruct (stdin c) as [after text|after|after|];
      try destruct (String.eqb (lower text) "y");
      intros H; vm_compute in H; discriminate H.
Qed.

Lemma example_main_exits_1_iff_validation_fails_witness :
  exists t',
    Interactive.main (sample_env "Linux") (mkconsole true (Line 1 "y"))
                     sample_terminal
    = Some (Raise (SystemExit 1), t')
    /\ stdout t' = [("System validation failed!" ++ newline)%string].
Proof.
  eexists. split.
  - apply (example_main_exits_1_iff_validation_fails
             (sample_env "Linux") (mkconsole true (Line 1 "y")) sample_terminal
             false
             (snd (example_validation (sample_env "Linux")
                     (Validation.mkstate
                        (Validation.init "example-script" INFO)
                        sample_disk [])))).
    + vm_compute. reflexivity.
    + discriminate.
    + reflexivity.
  - reflexivity.
Defined.

(** X28.  The example [main] asks for the commands [git] and [python]
    without alternatives: on a host where [shutil.which] does not find one
    of them (a host with [python3] only, say), a run whose validation
    returns exits with status 1 before the prompt. *)
Theorem example_main_needs_its_commands :
  forall (env : Env) (c : Console) (t : Terminal) (passed : bool)
         (s' : Validation.State),
    example_validation env
      (Validation.mkstate (Validation.init "example-script" INFO)
                          (Interactive.fs t) [])
    = (Ok passed, s') ->
    resolvable env "git" = false \/ resolvable env "python" = false ->
    exists t',
      Interactive.main env c t = Some (Raise (SystemExit 1), t')
      /\ stdout t'
         = (stdout t ++ [("System validation failed!" ++ newline)%string])%list
      /\ alarm t' = alarm t.
Proof.
  intros env c [v f l out al h] passed s' Hv Hmissing.
  terminal_fields. terminal_fields_in Hv.
  assert (0 < tally s')%Z as Hpos.
  { assert (0 <= tally (Validation.mkstate
                            (Validation.init "example-script" INFO) f []))%Z
      as Hs by (cbn; lia).
    destruct Hmissing as [H|H].
    - exact (validate_system_missing_command_tally _ _ _ _ _ "git" _ _ _
               Hs (in_eq _ _) H Hv).
    - exact (validate_system_missing_command_tally _ _ _ _ _ "python" _ _ _
               Hs (in_cons _ _ _ (in_eq _ _)) H Hv). }
  pose proof (validate_system_answer _ _ _ _ _ _ _ _ Hv) as Hb.
  apply Z.ltb_lt in Hpos. rewrite Hpos in Hb. cbn [negb] in Hb. subst passed.
  rewrite (main_eq env c v f l out al h false s' Hv). cbv zeta.
  eexists. split; [reflexivity|split; reflexivity].
Qed.

Lemma example_main_needs_its_commands_witness :
  exists t',
    Interactive.main (sample_env "Linux") (mkconsole true (Line 1 "y"))
                     sample_terminal
    = Some (Raise (SystemExit 1), t').
Proof.
  destruct (example_main_needs_its_commands
              (sample_env "Linux") (mkconsole true (Line 1 "y")) sample_terminal
              false
              (snd (example_validation (sample_env "Linux")
                      (Validation.mkstate
                         (Validation.init "example-script" INFO)
                         sample_disk []))))
    as (t' & Hrun & _).
  - vm_compute. reflexivity.
  - right. reflexivity.
  - exists t'. exact Hrun.
Defined.

(** X29.  The example [main] returns normally, rather than through
    [sys.exit], exactly when the validation passed and the user typed [y]
    or [Y], and nothing else on the line, before the 10 seconds of the
    alarm were over (at any time on a platform without SIGALRM). *)
Theorem example_main_continues_only_on_yes :
  forall (env : Env) (c : Console) (t : Terminal) (passed : bool)
         (s' : Validation.State),
    example_validation env
      (Validation.mkstate (Validation.init "example-script" INFO)
                          (Interactive.fs t) [])
    = (Ok passed, s') ->
    (has_SIGALRM c = false -> alarm t = None) ->
    (exists t', Interactive.main env c t = Some (Ok tt, t'))
    <-> passed = true
        /\ exists after text,
             stdin c = Line after text
             /\ (has_SIGALRM c = true -> (after < 10)%Z)
             /\ (text = "y" \/ text = "Y").
Proof.
  intros env c [v f l out al h] passed s' Hv Hal.
  terminal_fields_in Hv. terminal_fields_in Hal.
  rewrite (main_eq env c v f l out al h passed s' Hv). cbv zeta.
  destruct passed.
  2:{ split; [intros [t' H]; discriminate H|intros [H _]; discriminate H]. }
  assert (forall text t0,
             (exists t', (if String.eqb (lower text) "y"
                          then print "Validation passed! Script can continue..."
                                     newline t0
                          else Some (Raise (SystemExit 0),
                                     mkterminal (Interactive.self t0)
                                       (Interactive.fs t0) (Interactive.log t0)
                                       (stdout t0
                                          ++ [("Operation cancelled" ++ newline)%string])%list
                                       (alarm t0) (timeout_handler_installed t0)))
                         = Some (Ok tt, t'))
             <-> (text = "y" \/ text = "Y")) as Hanswer.
  { intros text t0. rewrite <- lower_y.
    destruct (String.eqb (lower text) "y") eqn:E.
    - apply String.eqb_eq in E. split; [auto|intros _].
      unfold print. eauto.
    - apply String.eqb_neq in E. split; [intros [t' H]; discriminate H|tauto]. }
  destruct (has_SIGALRM c) eqn:Hsig.
  - rewrite prompt_with_alarm by (try assumption; lia). cbv zeta.
    destruct (stdin c) as [after text|after|after|].
    + destruct (10 <=? after)%Z eqn:E.
      * split.
        -- intros [t' H]. vm_compute in H. discriminate H.
        -- intros (_ & after' & text' & H & Hlt & _). injection H as Ha Ht; subst after' text'.
           apply Z.leb_le in E. specialize (Hlt eq_refl). lia.
      * rewrite Hanswer. apply Z.leb_gt in E. split.
        -- intros H. split; [reflexivity|]. exists after, text. auto.
        -- intros (_ & after' & text' & H & _ & Hy). injection H as Ha Ht; subst after' text'; exact Hy.
    + split.
      * intros [t' H]. destruct (10 <=? after)%Z; vm_compute in H; discriminate H.
      * intros (_ & after' & text' & H & _). discriminate H.
    + split.
      * intros [t' H]. destruct (10 <=? after)%Z; vm_compute in H; discriminate H.
      * intros (_ & after' & text' & H & _). discriminate H.
    + split.
      * intros [t' H]. vm_compute in H. discriminate H.
      * intros (_ & after' & text' & H & _). discriminate H.
  - rewrite (Hal eq_refl).
    rewrite prompt_without_alarm by (now rewrite Hsig). cbv zeta.
    destruct (stdin c) as [after text|after|after|].
    + rewrite Hanswer. split.
      * intros H. split; [reflexivity|]. exists after, text.
        repeat split; [discriminate|exact H].
      * intros (_ & after' & text' & H & _ & Hy). injection H as Ha Ht; subst after' text'; exact Hy.
    + split.
      * intros [t' H]. discriminate H.
      * intros (_ & after' & text' & H & _). discriminate H.
    + split.
      * intros [t' H]. vm_compute in H. discriminate H.
      * intros (_ & after' & text' & H & _). discriminate H.
    + split.
      * intros [t' H]. discriminate H.
      * intros (_ & after' & text' & H & _). discriminate H.
Qed.

Lemma example_main_continues_only_on_yes_witness :
  exists t',
    Interactive.main sample_workstation (mkconsole true (Line 2 "Y"))
                     sample_terminal
    = Some (Ok tt, t').
Proof.
  apply (proj2 (example_main_continues_only_on_yes
                  sample_workstation (mkconsole true (Line 2 "Y"))
                  sample_terminal true
                  (snd (example_validation sample_workstation
                          (Validation.mkstate
                             (Validation.init "example-script" INFO)
                             sample_disk [])))
                  ltac:(vm_compute; reflexivity)
                  ltac:(discriminate))).
  split; [reflexivity|].
  exists 2%Z, "Y". split; [reflexivity|split; [intros _; lia|now right]].
Defined.

(** X30.  With a passed validation and SIGALRM, no input within 10
    seconds cancels the example [main]: the default answer is [n], so it
    prints the prompt, a newline and the cancellation line, logs the
    warning after the records of the validation, and exits with status
    0. *)
Theorem example_main_cancels_without_answer :
  forall (env : Env) (c : Console) (t : Terminal) (s' : Validation.State),
    example_validation env
      (Validation.mkstate (Validation.init "example-script" INFO)
                          (Interactive.fs t) [])
    = (Ok true, s') ->
    has_SIGALRM c = true ->
    match stdin c with
    | Line after _ | EndOfFile after | CtrlC after => (10 <= after)%Z
    | Silence => True
    end ->
    Interactive.main env c t
    = Some (Raise (SystemExit 0),
            mkterminal (Validation.self s') (Validation.fs s')
              (Interactive.log t ++ of_checks (Validation.log s')
                 ++ [mkrecord WARNING (NoInputDetected "n")])%list
              (stdout t
                 ++ [prompt_text "Continue? (y/N)" 10%Z; newline;
                     ("Operation cancelled" ++ newline)%string])%list
              None true).
Proof.
  intros env c [v f l out al h] s' Hv Hsig Hquiet. terminal_fields.
  terminal_fields_in Hv.
  rewrite (main_eq env c v f l out al h true s' Hv). cbv zeta.
  rewrite prompt_with_alarm by (try assumption; lia). cbv zeta.
  assert (forall after, (10 <= after)%Z -> (10 <=? after)%Z = true) as Hle
      by (intros after; apply Z.leb_le).
  destruct (stdin c) as [after text|after|after|];
    rewrite ?(Hle _ Hquiet);
    change (String.eqb (lower "n") "y") with false; cbv beta iota;
    terminal_fields; rewrite <- !app_assoc; reflexivity.
Qed.

Lemma example_main_cancels_without_answer_witness :
  exists t',
    Interactive.main sample_workstation (mkconsole true Silence)
                     sample_terminal
    = Some (Raise (SystemExit 0), t')
    /\ alarm t' = None.
Proof.
  eexists. split.
  - apply (example_main_cancels_without_answer
             sample_workstation (mkconsole true Silence) sample_terminal
             (snd (example_validation sample_workstation
                     (Validation.mkstate
                        (Validation.init "example-script" INFO)
                        sample_disk [])))).
    + vm_compute. reflexivity.
    + reflexivity.
    + exact I.
  - reflexivity.
Defined.
